(** * Projeto_modelo: notebooks/src/auxiliares.py

    A shallow embedding of the notebook helpers of [auxiliares.py]:

    - [tabela_distribuicao_frequencias], the frequency-table builder;
    - [composicao_histograma_boxplot], the histogram/boxplot composer;
    - the hypothesis-test reporters [analise_shapiro], [analise_levene],
      [analises_shapiro_levene], [analise_ttest_ind], [analise_ttest_rel],
      [analise_anova_one_way], [analise_wilcoxon], [analise_mannwhitneyu],
      [analise_friedman] and [analise_kruskal].

    Python objects live in a store ([World]): data frames are mutable
    objects addressed by reference, [print] appends a line to the standard
    output, and an exception aborts the rest of the call while keeping the
    effects already performed.  Numbers are the ones of the program: [int64]
    columns are integers with their wrap-around written out, [float64]
    values are IEEE 754 binary64 numbers ([spec_float] with [prec = 53] and
    [emax = 1024]), so that [0 / 0] is NaN and [1 / 0] is infinite as in
    NumPy.  The routines of [scipy.stats], [seaborn] and [matplotlib] are
    parameters of the development.  The frequency-table builder is embedded
    for [int64] columns, which hold the observations in one mode and the
    counts in the other, and, in raw-observation mode, for categorical
    columns ([dtype="category"]), which may hold missing values and
    categories that no row takes; the other paths end in [NotModelled]. *)

From Stdlib Require Import String Ascii ZArith QArith Qabs List Bool Lia.
From Stdlib Require Import Permutation Sorted.
From Stdlib Require Import SpecFloat DecimalString.
Import ListNotations.

Local Open Scope Z_scope.

(** ** binary64 arithmetic *)

Abbreviation float := spec_float.

Module B64.

Definition prec : Z := 53.
Definition emax : Z := 1024.

Definition nan : float := S754_nan.
Definition zero : float := S754_zero false.

Definition add : float -> float -> float := SFadd prec emax.
Definition div : float -> float -> float := SFdiv prec emax.

(** The C cast from [int64] to [double]: round to nearest, ties to even. *)
Definition of_Z (z : Z) : float := binary_normalize prec emax z 0 false.

(** [x > y]; false as soon as one side is NaN. *)
Definition gtb (x y : float) : bool := SFltb y x.

(** [x == y] of IEEE 754: NaN differs from itself, [0.0 == -0.0]. *)
Definition eqb (x y : float) : bool := SFeqb x y.

Definition isnan (x : float) : bool :=
  match x with S754_nan => true | _ => false end.

Definition is_finite (x : float) : bool :=
  match x with S754_zero _ | S754_finite _ _ _ => true | _ => false end.

(** The decimal literal [m / 10^k] for [m] and [10^k] below [2^53]: both
    operands are exact and the division rounds once, which gives the
    double that Python reads from the literal. *)
Definition decimal (m : Z) (k : Z) : float := div (of_Z m) (of_Z (10 ^ k)).

End B64.

(** ** Formatting: the format specification [.3f] *)

Definition sign_string (s : bool) : string := (if s then "-" else "")%string.

Definition digit_char (d : Z) : ascii := ascii_of_N (48 + Z.to_N d).

Definition is_digit (c : ascii) : bool :=
  ((48 <=? N_of_ascii c) && (N_of_ascii c <=? 57))%N.

Definition three_digits (k : Z) : string :=
  String (digit_char (k / 100))
    (String (digit_char ((k / 10) mod 10))
       (String (digit_char (k mod 10)) EmptyString)).

Definition decimal_string (n : Z) : string :=
  NilZero.string_of_uint (N.to_uint (Z.to_N n)).

(** [|x| * 1000] rounded to an integer, exact ties to even, for the finite
    [x = m * 2^e]. CPython formats with correctly rounded conversion. *)
Definition round_milli (m : positive) (e : Z) : Z :=
  match e with
  | Zneg p =>
      let num := Zpos m * 1000 in
      let den := 2 ^ Zpos p in
      let q := num / den in
      let r := num mod den in
      match 2 * r ?= den with
      | Lt => q
      | Gt => q + 1
      | Eq => if Z.even q then q else q + 1
      end
  | _ => Zpos m * 2 ^ e * 1000
  end.

Definition format_milli (s : bool) (n : Z) : string :=
  (sign_string s ++ decimal_string (n / 1000) ++ "." ++ three_digits (n mod 1000))%string.

(** [format(x, ".3f")] *)
Definition format_3f (x : float) : string :=
  match x with
  | S754_nan => "nan"%string
  | S754_infinity s => (sign_string s ++ "inf")%string
  | S754_zero s => format_milli s 0
  | S754_finite s m e => format_milli s (round_milli m e)
  end.

(** ** NumPy arrays and pandas Series *)

(** [int64] arithmetic wraps modulo [2^64]. *)
Definition wrap64 (z : Z) : Z := (z + 2 ^ 63) mod 2 ^ 64 - 2 ^ 63.

Definition int64_range (z : Z) : Prop := - 2 ^ 63 <= z < 2 ^ 63.

(** Row labels and category keys are integers. *)
Definition label : Type := Z.

(** A column is a typed array. A categorical column holds its categories
    and, for every row, the position of the value of the row among them,
    [-1] when the value is missing ([Categorical.categories] and
    [Categorical.codes]). *)
Inductive column : Type :=
| Int64 (v : list Z)
| Float64 (v : list float)
| Categorical (categories : list label) (codes : list Z).

Definition column_length (c : column) : nat :=
  match c with
  | Int64 v => length v
  | Float64 v => length v
  | Categorical _ codes => length codes
  end.

Record Series : Type := mkSeries {
  s_index : list label;
  s_values : column
}.

(** A scalar produced by a reduction. *)
Inductive scalar : Type :=
| IntScalar (z : Z)
| FloatScalar (x : float).

(** Python exceptions. [NotModelled] marks the pandas paths this
    development does not embed (reindexing on assignment, [value_counts]
    and [sum] of [float64] columns, [sum] and [cumsum] of categorical
    columns, which pandas refuses, and categories declared in an order
    that is not increasing); the builder never reaches them on [int64]
    columns. *)
Inductive exn : Type :=
| KeyError (key : string)
| IndexError
| LibraryError (message : string)
| NotModelled.

Definition result (A : Type) : Type := (exn + A)%type.

(** [np.cumsum] on [int64]: [out[0] = a[0]], [out[i] = out[i-1] + a[i]]. *)
Fixpoint cumsum_int_from (acc : Z) (l : list Z) : list Z :=
  match l with
  | [] => []
  | x :: l' => let acc' := wrap64 (acc + x) in acc' :: cumsum_int_from acc' l'
  end.

Definition np_cumsum_int (l : list Z) : list Z :=
  match l with
  | [] => []
  | x :: l' => x :: cumsum_int_from x l'
  end.

(** [np.cumsum] on [float64]. *)
Fixpoint cumsum_float_from (acc : float) (l : list float) : list float :=
  match l with
  | [] => []
  | x :: l' => let acc' := B64.add acc x in acc' :: cumsum_float_from acc' l'
  end.

Definition np_cumsum_float (l : list float) : list float :=
  match l with
  | [] => []
  | x :: l' => x :: cumsum_float_from x l'
  end.

(** [nanops.na_accum_func] for [np.cumsum] with [skipna=True]: NaN entries
    are replaced by [0.0], the array is accumulated, and the NaN are put
    back at their places. *)
Definition mask_fill (l : list float) : list float :=
  map (fun x => if B64.isnan x then B64.zero else x) l.

Fixpoint mask_restore (orig res : list float) : list float :=
  match orig, res with
  | x :: orig', y :: res' =>
      (if B64.isnan x then B64.nan else y) :: mask_restore orig' res'
  | _, _ => []
  end.

Definition na_cumsum (l : list float) : list float :=
  mask_restore l (np_cumsum_float (mask_fill l)).

(** [Series.cumsum()] *)
Definition series_cumsum (s : Series) : result Series :=
  match s_values s with
  | Int64 v => inr (mkSeries (s_index s) (Int64 (np_cumsum_int v)))
  | Float64 v => inr (mkSeries (s_index s) (Float64 (na_cumsum v)))
  | Categorical _ _ => inl NotModelled
  end.

(** [np.sum] on [int64]. *)
Definition sum_int64 (l : list Z) : Z :=
  fold_left (fun acc x => wrap64 (acc + x)) l 0.

(** [Series.sum()] *)
Definition series_sum (s : Series) : result scalar :=
  match s_values s with
  | Int64 v => inr (IntScalar (sum_int64 v))
  | Float64 _ => inl NotModelled
  | Categorical _ _ => inl NotModelled
  end.

(** [series / scalar]: true division converts both sides to [float64]. *)
Definition series_truediv (s : Series) (d : scalar) : result Series :=
  match s_values s, d with
  | Int64 v, IntScalar t =>
      inr (mkSeries (s_index s)
             (Float64 (map (fun x => B64.div (B64.of_Z x) (B64.of_Z t)) v)))
  | _, _ => inl NotModelled
  end.

(** *** [value_counts] and [sort_index] *)

Section Sorting.

Context {A : Type}.
Variable before : A -> A -> bool.

Fixpoint insert_sorted (x : A) (l : list A) : list A :=
  match l with
  | [] => [x]
  | y :: l' => if before x y then x :: l else y :: insert_sorted x l'
  end.

(** A stable insertion sort: [x] stays in front of the elements it is not
    strictly after. *)
Definition sort_by (l : list A) : list A :=
  fold_right insert_sorted [] l.

End Sorting.

(** The distinct values in order of first appearance ([pd.unique]). *)
Fixpoint unique (l : list Z) : list Z :=
  match l with
  | [] => []
  | x :: l' => x :: filter (fun y => negb (y =? x)) (unique l')
  end.

Definition count (k : Z) (l : list Z) : Z :=
  Z.of_nat (length (filter (fun y => y =? k) l)).

Definition rows : Type := list (label * Z).

Definition series_of_rows (r : rows) : Series :=
  mkSeries (map fst r) (Int64 (map snd r)).

(** The hash-table pass of [value_counts]: one row per distinct value. *)
Definition value_counts_arraylike (l : list Z) : rows :=
  map (fun k => (k, count k l)) (unique l).

(** [sort_values(ascending=False)] on the counts. *)
Definition sort_values_desc (r : rows) : rows :=
  sort_by (fun a b => snd b <=? snd a) r.

(** [np.bincount(obs, minlength=n)] for observations below [n]: how many
    times each of [0], ..., [n - 1] occurs. *)
Definition bincount (obs : list Z) (n : nat) : list Z :=
  map (fun i => count (Z.of_nat i) obs) (seq 0 n).

(** [Categorical.value_counts(dropna=True)]: the missing values are left
    out and every category has a row, also a category that no row takes. *)
Definition value_counts_categorical (categories : list label) (codes : list Z) : rows :=
  combine categories
    (bincount (filter (fun c => 0 <=? c) codes) (length categories)).

(** Strictly increasing categories, as pandas infers them from the data. *)
Fixpoint increasing (l : list label) : bool :=
  match l with
  | [] => true
  | x :: l' => match l' with [] => true | y :: _ => x <? y end && increasing l'
  end.

(** The codes pandas builds: [-1] or a position among the categories. *)
Definition valid_codes (categories : list label) (codes : list Z) : bool :=
  forallb (fun c => (-1 <=? c) && (c <? Z.of_nat (length categories))) codes.

(** The end of [value_counts]: the counts are sorted, most frequent first,
    and with [normalize] divided by their sum. *)
Definition sorted_and_normalized (normalize : bool) (r : rows) : result Series :=
  let counts := series_of_rows (sort_values_desc r) in
  if normalize then
    match series_sum counts with
    | inr total => series_truediv counts total
    | inl e => inl e
    end
  else inr counts.

(** [Series.value_counts(normalize=...)]: counts per distinct value, most
    frequent first; with [normalize] the sorted counts are divided by their
    sum. The index of the counts of a categorical column is categorical:
    [sort_index] orders it by the position of the categories, which is
    the order of the labels when the categories are increasing. *)
Definition value_counts (normalize : bool) (s : Series) : result Series :=
  match s_values s with
  | Int64 v => sorted_and_normalized normalize (value_counts_arraylike v)
  | Float64 _ => inl NotModelled
  | Categorical categories codes =>
      if increasing categories && valid_codes categories codes
      then sorted_and_normalized normalize (value_counts_categorical categories codes)
      else inl NotModelled
  end.

Definition by_label {A : Type} (a b : label * A) : bool := fst a <=? fst b.

(** [Series.sort_index()]: rows in ascending order of their label. *)
Definition sort_index (s : Series) : Series :=
  match s_values s with
  | Int64 v =>
      let r := sort_by by_label (combine (s_index s) v) in
      mkSeries (map fst r) (Int64 (map snd r))
  | Float64 v =>
      let r := sort_by by_label (combine (s_index s) v) in
      mkSeries (map fst r) (Float64 (map snd r))
  | Categorical categories codes =>
      let r := sort_by by_label (combine (s_index s) codes) in
      mkSeries (map fst r) (Categorical categories (map snd r))
  end.

(** ** The store: data frames, standard output and the figure *)

Record DataFrame : Type := mkDataFrame {
  df_index : list label;
  df_columns : list (string * column)
}.

(** [pd.DataFrame()] *)
Definition empty_DataFrame : DataFrame := mkDataFrame [] [].

Definition ref : Type := nat.

(** The calls received by the plotting libraries, in order. *)
Inductive plot_call : Type :=
| Subplots
| Boxplot (data : DataFrame) (x : string)
| Histplot (data : DataFrame) (x : string) (bins : string)
| Grid (ax : nat)
| SetAxisbelow (ax : nat)
| Axvline (x : float) (color : string) (legend : string)
| Legend
| Show.

Record World : Type := mkWorld {
  heap : list DataFrame;
  stdout : list string;
  figure : list plot_call
}.

Definition deref (w : World) (r : ref) : DataFrame :=
  nth r (heap w) empty_DataFrame.

Definition allocated (w : World) (r : ref) : Prop := (r < length (heap w))%nat.

Fixpoint update_nth {A : Type} (n : nat) (x : A) (l : list A) : list A :=
  match l, n with
  | [], _ => []
  | _ :: l', O => x :: l'
  | y :: l', S n' => y :: update_nth n' x l'
  end.

(** Computations of the interpreter: an exception keeps the store reached
    when it was raised. *)
Definition M (A : Type) : Type := World -> result A * World.

Definition ret {A : Type} (a : A) : M A := fun w => (inr a, w).

Definition raise {A : Type} (e : exn) : M A := fun w => (inl e, w).

Definition bind {A B : Type} (m : M A) (k : A -> M B) : M B :=
  fun w =>
    match m w with
    | (inl e, w') => (inl e, w')
    | (inr a, w') => k a w'
    end.

Definition lift {A : Type} (r : result A) : M A := fun w => (r, w).

Declare Scope py_scope.
Delimit Scope py_scope with py.
Notation "x <- m ;; k" := (bind m (fun x => k))
  (at level 61, m at next level, right associativity) : py_scope.
Notation "m ;; k" := (bind m (fun _ => k))
  (at level 61, right associativity) : py_scope.
Local Open Scope py_scope.

(** [print(line)] *)
Definition print (line : string) : M unit :=
  fun w => (inr tt, mkWorld (heap w) (stdout w ++ [line]) (figure w)).

(** A call into the plotting libraries. *)
Definition plot (c : plot_call) : M unit :=
  fun w => (inr tt, mkWorld (heap w) (stdout w) (figure w ++ [c])).

Definition alloc (w : World) (df : DataFrame) : World :=
  mkWorld (heap w ++ [df]) (stdout w) (figure w).

(** [pd.DataFrame()]: a fresh object. *)
Definition new_DataFrame : M ref :=
  fun w => (inr (length (heap w)), alloc w empty_DataFrame).

Fixpoint lookup_column (name : string) (cols : list (string * column)) : option column :=
  match cols with
  | [] => None
  | (n, c) :: cols' => if String.eqb n name then Some c else lookup_column name cols'
  end.

Fixpoint set_column (name : string) (c : column) (cols : list (string * column))
  : list (string * column) :=
  match cols with
  | [] => [(name, c)]
  | (n, c') :: cols' =>
      if String.eqb n name then (n, c) :: cols' else (n, c') :: set_column name c cols'
  end.

(** [dataframe.columns] *)
Definition columns (r : ref) : M (list string) :=
  fun w => (inr (map fst (df_columns (deref w r))), w).

(** [dataframe[name]] *)
Definition getitem (r : ref) (name : string) : M Series :=
  fun w =>
    match lookup_column name (df_columns (deref w r)) with
    | Some c => (inr (mkSeries (df_index (deref w r)) c), w)
    | None => (inl (KeyError name), w)
    end.

Definition index_eqb (a b : list label) : bool :=
  if list_eq_dec Z.eq_dec a b then true else false.

(** [DataFrame.__setitem__] with a Series: a frame without rows takes the
    index of the value ([_ensure_valid_index]); a frame whose index equals
    the one of the value stores the values as they are
    ([_reindex_for_setitem]). pandas reindexes the value in the remaining
    cases. *)
Definition frame_setitem (name : string) (s : Series) (df : DataFrame) : result DataFrame :=
  match df_index df, df_columns df with
  | [], [] => inr (mkDataFrame (s_index s) [(name, s_values s)])
  | [], _ :: _ =>
      match s_index s with
      | [] => inr (mkDataFrame [] (set_column name (s_values s) (df_columns df)))
      | _ :: _ => inl NotModelled
      end
  | _ :: _, _ =>
      if index_eqb (s_index s) (df_index df)
      then inr (mkDataFrame (df_index df) (set_column name (s_values s) (df_columns df)))
      else inl NotModelled
  end.

Definition set_frame (w : World) (r : ref) (df : DataFrame) : World :=
  mkWorld (update_nth r df (heap w)) (stdout w) (figure w).

(** [dataframe[name] = series] *)
Definition setitem (r : ref) (name : string) (s : Series) : M unit :=
  fun w =>
    match frame_setitem name s (deref w r) with
    | inr df' => (inr tt, set_frame w r df')
    | inl e => (inl e, w)
    end.

(** ** The frequency-table builder *)

Definition tabela_distribuicao_frequencias
  (dataframe : ref) (coluna : string) (coluna_frequencia : bool) : M ref :=
  df_estatistica <- new_DataFrame ;;
  (if coluna_frequencia then
     frequencia <- getitem dataframe coluna ;;
     setitem df_estatistica "frequencia" frequencia ;;
     numerador <- getitem df_estatistica "frequencia" ;;
     denominador <- getitem df_estatistica "frequencia" ;;
     total <- lift (series_sum denominador) ;;
     relativa <- lift (series_truediv numerador total) ;;
     setitem df_estatistica "frequencia_relativa" relativa
   else
     observacoes <- getitem dataframe coluna ;;
     contagem <- lift (value_counts false observacoes) ;;
     setitem df_estatistica "frequencia" (sort_index contagem) ;;
     observacoes' <- getitem dataframe coluna ;;
     proporcao <- lift (value_counts true observacoes') ;;
     setitem df_estatistica "frequencia_relativa" (sort_index proporcao)) ;;
  frequencia <- getitem df_estatistica "frequencia" ;;
  acumulada <- lift (series_cumsum frequencia) ;;
  setitem df_estatistica "frequencia_acumulada" acumulada ;;
  relativa <- getitem df_estatistica "frequencia_relativa" ;;
  relativa_acumulada <- lift (series_cumsum relativa) ;;
  setitem df_estatistica "frequencia_relativa_acumulada" relativa_acumulada ;;
  ret df_estatistica.

(** ** The external libraries *)

Definition test_result : Type := (float * float)%type.

(** [scipy.stats]: each routine receives the samples and its keyword
    arguments, and returns [(statistic, pvalue)] or raises. *)
Class ScipyStats : Type := {
  shapiro : Series -> forall nan_policy : string, result test_result;
  levene : list Series -> forall center nan_policy : string, result test_result;
  ttest_ind : list Series -> forall (equal_var : bool) (alternative nan_policy : string),
      result test_result;
  ttest_rel : list Series -> forall alternative nan_policy : string, result test_result;
  f_oneway : list Series -> forall nan_policy : string, result test_result;
  wilcoxon : list Series -> forall nan_policy alternative : string, result test_result;
  mannwhitneyu : list Series -> forall nan_policy alternative : string, result test_result;
  friedmanchisquare : list Series -> forall nan_policy : string, result test_result;
  kruskal : list Series -> forall nan_policy : string, result test_result
}.

(** [seaborn] and [matplotlib] draw, or raise; [Series.mean], [median] and
    [mode] are the reductions of pandas. *)
Class Plotting : Type := {
  render : plot_call -> result unit;
  series_mean : Series -> result float;
  series_median : Series -> result float;
  series_mode : Series -> result (list float)
}.

(** A call into a plotting library: it is recorded, then the library
    answers. *)
Definition draw `{Plotting} (c : plot_call) : M unit :=
  plot c ;; lift (render c).

(** [for x in l: body(x)] *)
Fixpoint for_each {A : Type} (l : list A) (body : A -> M unit) : M unit :=
  match l with
  | [] => ret tt
  | x :: l' => body x ;; for_each l' body
  end.

(** [[f(x) for x in l]] *)
Fixpoint comprehension {A B : Type} (l : list A) (f : A -> M B) : M (list B) :=
  match l with
  | [] => ret []
  | x :: l' => y <- f x ;; ys <- comprehension l' f ;; ret (y :: ys)
  end.

(** [[dataframe[coluna] for coluna in dataframe.columns]] *)
Definition amostras (dataframe : ref) : M (list Series) :=
  nomes <- columns dataframe ;;
  comprehension nomes (fun coluna => getitem dataframe coluna).

(** [series[0]] on the result of [mode()] *)
Definition first_mode (l : list float) : result float :=
  match l with
  | [] => inl (KeyError "0")
  | x :: _ => inr x
  end.

(** ** The histogram and boxplot composer *)

Definition composicao_histograma_boxplot `{Plotting}
  (dataframe : ref) (coluna : string) (intervalos : string) : M unit :=
  draw Subplots ;;
  (fun w => draw (Boxplot (deref w dataframe) coluna) w) ;;
  (fun w => draw (Histplot (deref w dataframe) coluna intervalos) w) ;;
  for_each [1%nat; 2%nat] (fun ax => draw (Grid ax) ;; draw (SetAxisbelow ax)) ;;
  s <- getitem dataframe coluna ;;
  media <- lift (series_mean s) ;;
  draw (Axvline media "C1" "Média") ;;
  s <- getitem dataframe coluna ;;
  mediana <- lift (series_median s) ;;
  draw (Axvline mediana "C2" "Mediana") ;;
  s <- getitem dataframe coluna ;;
  modas <- lift (series_mode s) ;;
  moda <- lift (first_mode modas) ;;
  draw (Axvline moda "C3" "Moda") ;;
  draw Legend ;;
  draw Show.

(** ** The hypothesis-test reporters *)

(** The default threshold [alfa=0.05]. *)
Definition alfa_padrao : float := B64.decimal 5 2.

(** The f-string [f"{name=:.3f}"]. *)
Definition debug_3f (name : string) (x : float) : string :=
  (name ++ "=" ++ format_3f x)%string.

(** The f-string [f"{text} (valor p: {p:.3f})"]. *)
Definition com_valor_p (text : string) (p : float) : string :=
  (text ++ " (valor p: " ++ format_3f p ++ ")")%string.

Section Reporters.

Context `{ScipyStats}.

Definition analise_shapiro (dataframe : ref) (alfa : float) : M unit :=
  print "Teste de Shapiro-Wilk" ;;
  nomes <- columns dataframe ;;
  for_each nomes (fun coluna =>
    x <- getitem dataframe coluna ;;
    r <- lift (shapiro x "omit") ;;
    let '(estatistica_sw, valor_p_sw) := r in
    print (debug_3f "estatistica_sw" estatistica_sw) ;;
    if B64.gtb valor_p_sw alfa
    then print (com_valor_p (coluna ++ " segue uma distribuição normal") valor_p_sw)
    else print (com_valor_p (coluna ++ " não segue uma distribuição normal") valor_p_sw)).

Definition analise_levene (dataframe : ref) (alfa : float) (centro : string) : M unit :=
  print "Teste de Levene" ;;
  xs <- amostras dataframe ;;
  r <- lift (levene xs centro "omit") ;;
  let '(estatistica_levene, valor_p_levene) := r in
  print (debug_3f "estatistica_levene" estatistica_levene) ;;
  if B64.gtb valor_p_levene alfa
  then print (com_valor_p "Variâncias iguais" valor_p_levene)
  else print (com_valor_p "Ao menos uma variância é diferente" valor_p_levene).

Definition analises_shapiro_levene (dataframe : ref) (alfa : float) (centro : string)
  : M unit :=
  analise_shapiro dataframe alfa ;;
  print "" ;;
  analise_levene dataframe alfa centro.

Definition analise_ttest_ind
  (dataframe : ref) (alfa : float) (variancias_iguais : bool) (alternativa : string)
  : M unit :=
  print "Teste t de Student" ;;
  xs <- amostras dataframe ;;
  r <- lift (ttest_ind xs variancias_iguais alternativa "omit") ;;
  let '(estatistica_ttest, valor_p_ttest) := r in
  print (debug_3f "estatistica_ttest" estatistica_ttest) ;;
  if B64.gtb valor_p_ttest alfa
  then print (com_valor_p "Não rejeita a hipótese nula" valor_p_ttest)
  else print (com_valor_p "Rejeita a hipótese nula" valor_p_ttest).

Definition analise_ttest_rel (dataframe : ref) (alfa : float) (alternativa : string)
  : M unit :=
  print "Teste t de Student" ;;
  xs <- amostras dataframe ;;
  r <- lift (ttest_rel xs alternativa "omit") ;;
  let '(estatistica_ttest, valor_p_ttest) := r in
  print (debug_3f "estatistica_ttest" estatistica_ttest) ;;
  if B64.gtb valor_p_ttest alfa
  then print (com_valor_p "Não rejeita a hipótese nula" valor_p_ttest)
  else print (com_valor_p "Rejeita a hipótese nula" valor_p_ttest).

Definition analise_anova_one_way (dataframe : ref) (alfa : float) : M unit :=
  print "Teste ANOVA one way" ;;
  xs <- amostras dataframe ;;
  r <- lift (f_oneway xs "omit") ;;
  let '(estatistica_f, valor_p_f) := r in
  print (debug_3f "estatistica_f" estatistica_f) ;;
  if B64.gtb valor_p_f alfa
  then print (com_valor_p "Não rejeita a hipótese nula" valor_p_f)
  else print (com_valor_p "Rejeita a hipótese nula" valor_p_f).

Definition analise_wilcoxon (dataframe : ref) (alfa : float) (alternativa : string)
  : M unit :=
  print "Teste de Wilcoxon" ;;
  xs <- amostras dataframe ;;
  r <- lift (wilcoxon xs "omit" alternativa) ;;
  let '(estatistica_wilcoxon, valor_p_wilcoxon) := r in
  print (debug_3f "estatistica_wilcoxon" estatistica_wilcoxon) ;;
  if B64.gtb valor_p_wilcoxon alfa
  then print (com_valor_p "Não rejeita a hipótese nula" valor_p_wilcoxon)
  else print (com_valor_p "Rejeita a hipótese nula" valor_p_wilcoxon).

Definition analise_mannwhitneyu (dataframe : ref) (alfa : float) (alternativa : string)
  : M unit :=
  print "Teste de Mann-Whitney" ;;
  xs <- amostras dataframe ;;
  r <- lift (mannwhitneyu xs "omit" alternativa) ;;
  let '(estatistica_mw, valor_p_mw) := r in
  print (debug_3f "estatistica_mw" estatistica_mw) ;;
  if B64.gtb valor_p_mw alfa
  then print (com_valor_p "Não rejeita a hipótese nula" valor_p_mw)
  else print (com_valor_p "Rejeita a hipótese nula" valor_p_mw).

Definition analise_friedman (dataframe : ref) (alfa : float) : M unit :=
  print "Teste de Friedman" ;;
  xs <- amostras dataframe ;;
  r <- lift (friedmanchisquare xs "omit") ;;
  let '(estatistica_friedman, valor_p_friedman) := r in
  print (debug_3f "estatistica_friedman" estatistica_friedman) ;;
  if B64.gtb valor_p_friedman alfa
  then print (com_valor_p "Não rejeita a hipótese nula" valor_p_friedman)
  else print (com_valor_p "Rejeita a hipótese nula" valor_p_friedman).

Definition analise_kruskal (dataframe : ref) (alfa : float) : M unit :=
  print "Teste de Kruskal" ;;
  xs <- amostras dataframe ;;
  r <- lift (kruskal xs "omit") ;;
  let '(estatistica_kruskal, valor_p_kruskal) := r in
  print (debug_3f "estatistica_kruskal" estatistica_kruskal) ;;
  if B64.gtb valor_p_kruskal alfa
  then print (com_valor_p "Não rejeita a hipótese nula" valor_p_kruskal)
  else print (com_valor_p "Rejeita a hipótese nula" valor_p_kruskal).

End Reporters.

(** ** Closed forms and predicates used in the statements *)

(** The mathematical sum of a list of integers. *)
Definition total (l : list Z) : Z := fold_right Z.add 0 l.

(** [x0 + x1 + ... + xn], added from the left as [np.cumsum] does. *)
Definition partial_sum (l : list float) : float :=
  match l with
  | [] => B64.zero
  | x :: l' => fold_left B64.add l' x
  end.

Definition relative_of_counts (t : Z) (v : list Z) : list float :=
  map (fun x => B64.div (B64.of_Z x) (B64.of_Z t)) v.

Definition frequency_table (idx : list label) (freq : list Z) (rel : list float)
  : DataFrame :=
  mkDataFrame idx
    [("frequencia"%string, Int64 freq);
     ("frequencia_relativa"%string, Float64 rel);
     ("frequencia_acumulada"%string, Int64 (np_cumsum_int freq));
     ("frequencia_relativa_acumulada"%string, Float64 (na_cumsum rel))].

(** The table built from a column of frequencies. *)
Definition count_table (idx : list label) (v : list Z) : DataFrame :=
  frequency_table idx v (relative_of_counts (sum_int64 v) v).

(** The rows of [value_counts().sort_index()]. *)
Definition sorted_counts (v : list Z) : rows :=
  sort_by by_label (sort_values_desc (value_counts_arraylike v)).

(** The table built from a column of observations. *)
Definition raw_table (v : list Z) : DataFrame :=
  frequency_table (map fst (sorted_counts v)) (map snd (sorted_counts v))
    (relative_of_counts
       (sum_int64 (map snd (sort_values_desc (value_counts_arraylike v))))
       (map snd (sorted_counts v))).

(** The observations of a categorical column that are not missing. *)
Definition observed (codes : list Z) : list Z := filter (fun c => 0 <=? c) codes.

(** The counts of the categories, in the order of the categories. *)
Definition category_counts (categories : list label) (codes : list Z) : list Z :=
  bincount (observed codes) (length categories).

(** The table built from a categorical column of observations. *)
Definition categorical_table (categories : list label) (codes : list Z) : DataFrame :=
  frequency_table categories (category_counts categories codes)
    (relative_of_counts (sum_int64 (category_counts categories codes))
       (category_counts categories codes)).

Definition int_column (df : DataFrame) (name : string) : list Z :=
  match lookup_column name (df_columns df) with
  | Some (Int64 v) => v
  | _ => []
  end.

Definition float_column (df : DataFrame) (name : string) : list float :=
  match lookup_column name (df_columns df) with
  | Some (Float64 v) => v
  | _ => []
  end.

(** Every column has one value per row label. *)
Definition wf_DataFrame (df : DataFrame) : Prop :=
  Forall (fun nc => column_length (snd nc) = length (df_index df)) (df_columns df).

Fixpoint nondecreasing (l : list Z) : Prop :=
  match l with
  | [] => True
  | x :: l' => match l' with [] => True | y :: _ => x <= y end /\ nondecreasing l'
  end.

(** The frames that exist before a call are the same after it. *)
Definition frames_kept (w w' : World) : Prop :=
  (length (heap w) <= length (heap w'))%nat /\
  forall r, allocated w r -> deref w' r = deref w r.

(** The lines a computation prints when run in [w]. *)
Definition printed {A : Type} (m : M A) (w : World) : list string :=
  skipn (length (stdout w)) (stdout (snd (m w))).

Definition returns {A : Type} (m : M A) (w : World) : Prop :=
  exists a, fst (m w) = inr a.

(** The cumulative frequencies never decrease and end at the sum of the
    frequencies. *)
Definition cumulative_frequency_invariant (T : DataFrame) : Prop :=
  let freq := int_column T "frequencia" in
  let acc := int_column T "frequencia_acumulada" in
  nondecreasing acc /\ (acc <> [] -> last acc 0 = total freq).

Definition all_nan (l : list float) : Prop :=
  Forall (fun x => B64.isnan x = true) l.

(** The table has no row. *)
Definition zero_rows (T : DataFrame) : Prop :=
  df_index T = [] /\
  Forall (fun nc => column_length (snd nc) = 0%nat) (df_columns T).

(** [pd.RangeIndex(n)] *)
Definition range_index (n : nat) : list label := map Z.of_nat (seq 0 n).

(** A store that holds one frame, of one column, at reference [0]. *)
Definition one_column_world (name : string) (c : column) : World :=
  mkWorld [mkDataFrame (range_index (column_length c)) [(name, c)]] [] [].

(** *** The reporters *)

(** The samples handed to a routine: one Series per column name, each
    looked up in the frame. *)
Definition sample_of (df : DataFrame) (name : string) : Series :=
  mkSeries (df_index df)
    (match lookup_column name (df_columns df) with
     | Some c => c
     | None => Int64 []
     end).

Definition samples_of (df : DataFrame) : list Series :=
  map (sample_of df) (map fst (df_columns df)).

(** The store after some lines were printed. *)
Definition say (w : World) (lines : list string) : World :=
  mkWorld (heap w) (stdout w ++ lines) (figure w).

(** The verdict line: the first message when [p > alfa], the second one
    otherwise. *)
Definition verdict (nao_rejeita rejeita : string) (p alfa : float) : string :=
  if B64.gtb p alfa then com_valor_p nao_rejeita p else com_valor_p rejeita p.

(** The three lines of a report. *)
Definition report (titulo nome nao_rejeita rejeita : string)
  (r : test_result) (alfa : float) : list string :=
  [titulo; debug_3f nome (fst r); verdict nao_rejeita rejeita (snd r) alfa].

(** The reporters that delegate to one routine, once, with their keyword
    arguments. *)
Inductive teste : Type :=
| Levene (centro : string)
| TtestInd (variancias_iguais : bool) (alternativa : string)
| TtestRel (alternativa : string)
| AnovaOneWay
| Wilcoxon (alternativa : string)
| MannWhitneyU (alternativa : string)
| Friedman
| Kruskal.

Definition analise `{ScipyStats} (t : teste) (dataframe : ref) (alfa : float) : M unit :=
  match t with
  | Levene centro => analise_levene dataframe alfa centro
  | TtestInd variancias_iguais alternativa =>
      analise_ttest_ind dataframe alfa variancias_iguais alternativa
  | TtestRel alternativa => analise_ttest_rel dataframe alfa alternativa
  | AnovaOneWay => analise_anova_one_way dataframe alfa
  | Wilcoxon alternativa => analise_wilcoxon dataframe alfa alternativa
  | MannWhitneyU alternativa => analise_mannwhitneyu dataframe alfa alternativa
  | Friedman => analise_friedman dataframe alfa
  | Kruskal => analise_kruskal dataframe alfa
  end.

(** The routine a reporter delegates to. *)
Definition rotina `{ScipyStats} (t : teste) (xs : list Series) : result test_result :=
  match t with
  | Levene centro => levene xs centro "omit"
  | TtestInd variancias_iguais alternativa =>
      ttest_ind xs variancias_iguais alternativa "omit"
  | TtestRel alternativa => ttest_rel xs alternativa "omit"
  | AnovaOneWay => f_oneway xs "omit"
  | Wilcoxon alternativa => wilcoxon xs "omit" alternativa
  | MannWhitneyU alternativa => mannwhitneyu xs "omit" alternativa
  | Friedman => friedmanchisquare xs "omit"
  | Kruskal => kruskal xs "omit"
  end.

Definition titulo (t : teste) : string :=
  match t with
  | Levene _ => "Teste de Levene"
  | TtestInd _ _ | TtestRel _ => "Teste t de Student"
  | AnovaOneWay => "Teste ANOVA one way"
  | Wilcoxon _ => "Teste de Wilcoxon"
  | MannWhitneyU _ => "Teste de Mann-Whitney"
  | Friedman => "Teste de Friedman"
  | Kruskal => "Teste de Kruskal"
  end.

(** The name of the local variable that the f-string shows. *)
Definition nome_estatistica (t : teste) : string :=
  match t with
  | Levene _ => "estatistica_levene"
  | TtestInd _ _ | TtestRel _ => "estatistica_ttest"
  | AnovaOneWay => "estatistica_f"
  | Wilcoxon _ => "estatistica_wilcoxon"
  | MannWhitneyU _ => "estatistica_mw"
  | Friedman => "estatistica_friedman"
  | Kruskal => "estatistica_kruskal"
  end.

(** The message of the branch [p > alfa]: the null hypothesis stands. *)
Definition mensagem_nao_rejeita (t : teste) : string :=
  match t with
  | Levene _ => "Variâncias iguais"
  | _ => "Não rejeita a hipótese nula"
  end.

(** The message of the other branch: the null hypothesis is rejected. *)
Definition mensagem_rejeita (t : teste) : string :=
  match t with
  | Levene _ => "Ao menos uma variância é diferente"
  | _ => "Rejeita a hipótese nula"
  end.

(** The lines of the Shapiro-Wilk loop over the column names, and the
    exception that stopped it, if any. *)
Fixpoint shapiro_lines `{ScipyStats} (df : DataFrame) (alfa : float) (nomes : list string)
  : list string * option exn :=
  match nomes with
  | [] => ([], None)
  | coluna :: nomes' =>
      match shapiro (sample_of df coluna) "omit" with
      | inl e => ([], Some e)
      | inr r =>
          let rest := shapiro_lines df alfa nomes' in
          (debug_3f "estatistica_sw" (fst r)
             :: verdict (coluna ++ " segue uma distribuição normal")
                  (coluna ++ " não segue uma distribuição normal") (snd r) alfa
             :: fst rest,
           snd rest)
      end
  end.

Definition outcome (e : option exn) : result unit :=
  match e with
  | None => inr tt
  | Some e => inl e
  end.

(** The text ends with a point and three decimal digits. *)
Definition three_decimals (s : string) : Prop :=
  exists body d1 d2 d3,
    s = (body ++ "." ++ String d1 (String d2 (String d3 EmptyString)))%string /\
    is_digit d1 = true /\ is_digit d2 = true /\ is_digit d3 = true.

(** The output that C1 describes: the name, the statistic, one verdict. *)
Definition reports_once (out : list string) : Prop :=
  exists titulo nome nao_rejeita rejeita r alfa,
    out = report titulo nome nao_rejeita rejeita r alfa.

(** A test double for [scipy.stats]: every routine answers [r]. *)
Definition mock_scipy (r : result test_result) : ScipyStats := {|
  shapiro := fun _ _ => r;
  levene := fun _ _ _ => r;
  ttest_ind := fun _ _ _ _ => r;
  ttest_rel := fun _ _ _ => r;
  f_oneway := fun _ _ => r;
  wilcoxon := fun _ _ _ => r;
  mannwhitneyu := fun _ _ _ => r;
  friedmanchisquare := fun _ _ => r;
  kruskal := fun _ _ => r
|}.

(** A test double for the plotting libraries: everything succeeds. *)
Definition mock_plotting : Plotting := {|
  render := fun _ => inr tt;
  series_mean := fun _ => inr B64.zero;
  series_median := fun _ => inr B64.zero;
  series_mode := fun _ => inr [B64.zero]
|}.

(** A store that holds one frame with the samples [a] and [b]. *)
Definition two_samples_world : World :=
  mkWorld
    [mkDataFrame (range_index 3)
       [("a"%string, Float64 [B64.of_Z 1; B64.of_Z 2; B64.of_Z 3]);
        ("b"%string, Float64 [B64.of_Z 2; B64.of_Z 4; B64.of_Z 6])]]
    [] [].

(** A computation started with at least [n] frames keeps the first [n]
    of them as they are, and discards none. *)
Definition preserves (n : nat) {A : Type} (m : M A) : Prop :=
  forall w, (n <= length (heap w))%nat ->
    (length (heap w) <= length (heap (snd (m w))))%nat /\
    forall r, (r < n)%nat -> deref (snd (m w)) r = deref w r.

(** *** Exact values *)

(** The value of a finite double in units of [2^-1074], the smallest
    positive double: an integer, since no exponent is below [-1074]. *)
Definition ulps (x : float) : Z :=
  match x with
  | S754_finite s m e => (if s then -1 else 1) * (Zpos m * 2 ^ (e + 1074))
  | _ => 0
  end.

Definition smallest : positive := 2 ^ 1074.

(** The rational number that a finite double stands for. *)
Definition B2Q (x : float) : Q := ulps x # smallest.

(** The sum of the values, without rounding. *)
Definition exact_sum (l : list float) : Q :=
  fold_right (fun x s => (B2Q x + s)%Q) 0%Q l.

Definition total_ulps (l : list float) : Z := total (map ulps l).

(** A positive finite double. *)
Definition positive_finite (x : float) : Prop :=
  exists m e, x = S754_finite false m e /\ -1074 <= e.

(** Rows in strictly increasing order of their labels. *)
Definition label_lt {A : Type} (a b : label * A) : Prop := fst a < fst b.

(** *** Effects *)

(** A computation that neither prints nor draws, and leaves the number of
    frames as it is. *)
Definition quiet {A : Type} (m : M A) : Prop :=
  forall w,
    stdout (snd (m w)) = stdout w /\
    figure (snd (m w)) = figure w /\
    length (heap (snd (m w))) = length (heap w).

(** A computation that, run in [w], only prints. *)
Definition only_prints {A : Type} (m : M A) (w : World) : Prop :=
  heap (snd (m w)) = heap w /\
  figure (snd (m w)) = figure w /\
  stdout (snd (m w)) = stdout w ++ printed m w.

(** The calls of a complete figure, in order. *)
Definition composicao_calls (df : DataFrame) (coluna intervalos : string)
  (media mediana moda : float) : list plot_call :=
  [Subplots;
   Boxplot df coluna;
   Histplot df coluna intervalos;
   Grid 1; SetAxisbelow 1; Grid 2; SetAxisbelow 2;
   Axvline media "C1" "Média";
   Axvline mediana "C2" "Mediana";
   Axvline moda "C3" "Moda";
   Legend; Show].

(** [x <= y] of IEEE 754. *)
Definition float_leb (x y : float) : bool := SFleb x y.

(** A test double for [scipy.stats] whose [shapiro] refuses, as the real
    one does, a sample with fewer than three values that are not NaN; the
    other routines answer [(2.0, NaN)]. *)
Definition valid_values (c : column) : nat :=
  match c with
  | Int64 v => length v
  | Float64 v => length (filter (fun x => negb (B64.isnan x)) v)
  | Categorical _ codes => length (filter (fun c => 0 <=? c) codes)
  end.

Definition strict_shapiro (x : Series) (nan_policy : string) : result test_result :=
  if (valid_values (s_values x) <? 3)%nat
  then inl (LibraryError "Data must be at least length 3.")
  else inr (B64.decimal 98 2, B64.decimal 5 1).

Definition strict_scipy : ScipyStats := {|
  shapiro := strict_shapiro;
  levene := fun _ _ _ => inr (B64.of_Z 2, B64.nan);
  ttest_ind := fun _ _ _ _ => inr (B64.of_Z 2, B64.nan);
  ttest_rel := fun _ _ _ => inr (B64.of_Z 2, B64.nan);
  f_oneway := fun _ _ => inr (B64.of_Z 2, B64.nan);
  wilcoxon := fun _ _ _ => inr (B64.of_Z 2, B64.nan);
  mannwhitneyu := fun _ _ _ => inr (B64.of_Z 2, B64.nan);
  friedmanchisquare := fun _ _ => inr (B64.of_Z 2, B64.nan);
  kruskal := fun _ _ => inr (B64.of_Z 2, B64.nan)
|}.

(** A store that holds one frame with the samples [a], [b] and [c]; the
    second one has a missing value. *)
Definition three_samples_world : World :=
  mkWorld
    [mkDataFrame (range_index 3)
       [("a"%string, Float64 [B64.of_Z 1; B64.of_Z 2; B64.of_Z 3]);
        ("b"%string, Float64 [B64.of_Z 1; B64.nan; B64.of_Z 3]);
        ("c"%string, Float64 [B64.of_Z 4; B64.of_Z 5; B64.of_Z 6])]]
    [] [].

(** A test double for the plotting libraries: the mean is 2, the median
    3, and the modes are 1 and 4. *)
Definition sample_plotting : Plotting := {|
  render := fun _ => inr tt;
  series_mean := fun _ => inr (B64.of_Z 2);
  series_median := fun _ => inr (B64.of_Z 3);
  series_mode := fun _ => inr [B64.of_Z 1; B64.of_Z 4]
|}.

(** A test double for the plotting libraries on a column without a mode. *)
Definition plotting_without_mode : Plotting := {|
  render := fun _ => inr tt;
  series_mean := fun _ => inr B64.nan;
  series_median := fun _ => inr B64.nan;
  series_mode := fun _ => inr []
|}.

(** * Properties *)

(** ** The store *)

Lemma update_nth_length {A : Type} (n : nat) (x : A) (l : list A) :
  length (update_nth n x l) = length l.
Proof.
  revert n; induction l as [|y l IH]; intros [|n]; simpl; auto.
Qed.

Lemma update_nth_app_last {A : Type} (x y : A) (l : list A) :
  update_nth (length l) y (l ++ [x]) = l ++ [y].
Proof.
  induction l as [|z l IH]; simpl; [reflexivity | now rewrite IH].
Qed.

Lemma nth_update_nth_other {A : Type} (n k : nat) (x d : A) (l : list A) :
  n <> k -> nth k (update_nth n x l) d = nth k l d.
Proof.
  revert n k; induction l as [|y l IH]; intros [|n] [|k] Hnk; simpl; auto.
  - congruence.
Qed.

Lemma deref_alloc_old (w : World) (df : DataFrame) (r : ref) :
  allocated w r -> deref (alloc w df) r = deref w r.
Proof.
  unfold allocated, deref, alloc; simpl; intros Hr.
  now rewrite app_nth1.
Qed.

Lemma deref_alloc_new (w : World) (df : DataFrame) :
  deref (alloc w df) (length (heap w)) = df.
Proof.
  unfold deref, alloc; simpl.
  rewrite app_nth2, Nat.sub_diag; [reflexivity | lia].
Qed.

Lemma set_frame_alloc (w : World) (df df' : DataFrame) :
  set_frame (alloc w df) (length (heap w)) df' = alloc w df'.
Proof.
  unfold set_frame, alloc; simpl. now rewrite update_nth_app_last.
Qed.

Lemma lookup_allocated (w : World) (r : ref) (name : string) (c : column) :
  lookup_column name (df_columns (deref w r)) = Some c -> allocated w r.
Proof.
  unfold allocated, deref; intros Hl.
  destruct (Nat.lt_ge_cases r (length (heap w))) as [Hlt|Hge]; [assumption|].
  rewrite nth_overflow in Hl by assumption. discriminate.
Qed.

Lemma index_eqb_refl (l : list label) : index_eqb l l = true.
Proof.
  unfold index_eqb. destruct (list_eq_dec Z.eq_dec l l); congruence.
Qed.

(** Assigning a column whose index is the one of the frame. *)
Lemma frame_setitem_aligned (name : string) (idx : list label) (c c0 : column)
  (n0 : string) (cols : list (string * column)) :
  frame_setitem name (mkSeries idx c) (mkDataFrame idx ((n0, c0) :: cols)) =
  inr (mkDataFrame idx (set_column name c ((n0, c0) :: cols))).
Proof.
  unfold frame_setitem; cbn [df_index df_columns s_index s_values].
  destruct idx as [|i idx]; [reflexivity|].
  now rewrite index_eqb_refl.
Qed.

(** ** Sorting by label *)

Lemma combine_fst_snd {A B : Type} (r : list (A * B)) :
  combine (map fst r) (map snd r) = r.
Proof.
  induction r as [|[a b] r IH]; simpl; [reflexivity | now rewrite IH].
Qed.

Lemma combine_fst_map_snd {A B C : Type} (f : B -> C) (r : list (A * B)) :
  combine (map fst r) (map f (map snd r)) = map (fun p => (fst p, f (snd p))) r.
Proof.
  induction r as [|[a b] r IH]; simpl; [reflexivity | now rewrite IH].
Qed.

Lemma insert_by_label_map {A B : Type} (f : A -> B) (x : label * A) (r : list (label * A)) :
  insert_sorted by_label (fst x, f (snd x)) (map (fun p => (fst p, f (snd p))) r) =
  map (fun p => (fst p, f (snd p))) (insert_sorted by_label x r).
Proof.
  induction r as [|y r IH]; simpl; [reflexivity|].
  unfold by_label at 1 3; simpl.
  destruct (fst x <=? fst y); simpl; [reflexivity | now rewrite IH].
Qed.

Lemma sort_by_label_map {A B : Type} (f : A -> B) (r : list (label * A)) :
  sort_by by_label (map (fun p => (fst p, f (snd p))) r) =
  map (fun p => (fst p, f (snd p))) (sort_by by_label r).
Proof.
  unfold sort_by.
  induction r as [|x r IH]; simpl; [reflexivity|].
  now rewrite IH, insert_by_label_map.
Qed.

Lemma sort_index_rows (r : rows) :
  sort_index (series_of_rows r) = series_of_rows (sort_by by_label r).
Proof.
  unfold sort_index, series_of_rows; simpl. now rewrite combine_fst_snd.
Qed.

Lemma sort_index_relative (t : Z) (r : rows) :
  sort_index (mkSeries (map fst r) (Float64 (relative_of_counts t (map snd r)))) =
  mkSeries (map fst (sort_by by_label r))
    (Float64 (relative_of_counts t (map snd (sort_by by_label r)))).
Proof.
  unfold sort_index, relative_of_counts; cbn [s_values s_index].
  set (f := fun x => B64.div (B64.of_Z x) (B64.of_Z t)).
  rewrite combine_fst_map_snd, (sort_by_label_map f), !map_map. reflexivity.
Qed.

(** ** What the builder returns *)

Ltac step_builder :=
  repeat first
    [ rewrite deref_alloc_new
    | rewrite set_frame_alloc
    | rewrite frame_setitem_aligned
    | progress cbn [lookup_column df_columns df_index String.eqb Ascii.eqb Bool.eqb
                    s_index s_values set_column series_cumsum fst snd] ].

(** In raw-count mode the builder returns a fresh frame, [count_table]. *)
Lemma tabela_count_mode (w : World) (dataframe : ref) (coluna : string) (v : list Z) :
  lookup_column coluna (df_columns (deref w dataframe)) = Some (Int64 v) ->
  tabela_distribuicao_frequencias dataframe coluna true w =
  (inr (length (heap w)),
   alloc w (count_table (df_index (deref w dataframe)) v)).
Proof.
  intros Hcol. pose proof (lookup_allocated _ _ _ _ Hcol) as Hr.
  unfold tabela_distribuicao_frequencias, bind, new_DataFrame, getitem, setitem,
    lift, ret.
  rewrite (deref_alloc_old w empty_DataFrame dataframe Hr), Hcol.
  rewrite deref_alloc_new.
  unfold frame_setitem at 1. cbn [empty_DataFrame df_index df_columns s_index s_values].
  step_builder.
  unfold series_sum, series_truediv. step_builder.
  reflexivity.
Qed.

(** In raw-observation mode the builder returns a fresh frame, [raw_table]. *)
Lemma tabela_raw_mode (w : World) (dataframe : ref) (coluna : string) (v : list Z) :
  lookup_column coluna (df_columns (deref w dataframe)) = Some (Int64 v) ->
  tabela_distribuicao_frequencias dataframe coluna false w =
  (inr (length (heap w)), alloc w (raw_table v)).
Proof.
  intros Hcol. pose proof (lookup_allocated _ _ _ _ Hcol) as Hr.
  unfold tabela_distribuicao_frequencias, bind, new_DataFrame, getitem, setitem,
    lift, ret.
  rewrite (deref_alloc_old w empty_DataFrame dataframe Hr), Hcol.
  unfold value_counts, sorted_and_normalized. cbn [s_values].
  rewrite sort_index_rows.
  rewrite deref_alloc_new.
  unfold frame_setitem at 1.
  cbn [empty_DataFrame df_index df_columns s_index s_values series_of_rows].
  rewrite set_frame_alloc.
  rewrite (deref_alloc_old _ _ dataframe Hr), Hcol.
  unfold series_sum, series_truediv.
  cbn [s_values s_index series_of_rows].
  fold (relative_of_counts
          (sum_int64 (map snd (sort_values_desc (value_counts_arraylike v))))
          (map snd (sort_values_desc (value_counts_arraylike v)))).
  rewrite sort_index_relative.
  fold (sorted_counts v).
  step_builder.
  reflexivity.
Qed.

(** ** Integer sums *)

Lemma wrap64_small (z : Z) : int64_range z -> wrap64 z = z.
Proof.
  unfold int64_range, wrap64; intros Hz.
  rewrite Z.mod_small; lia.
Qed.

Lemma total_cons (x : Z) (l : list Z) : total (x :: l) = x + total l.
Proof. reflexivity. Qed.

Lemma total_app (l1 l2 : list Z) : total (l1 ++ l2) = total l1 + total l2.
Proof.
  induction l1 as [|x l1 IH]; simpl; [reflexivity | rewrite IH; lia].
Qed.

Lemma total_nonneg (l : list Z) : Forall (fun x => 0 <= x) l -> 0 <= total l.
Proof.
  induction 1 as [|x l Hx _ IH]; simpl; lia.
Qed.

Lemma total_permutation (l1 l2 : list Z) : Permutation l1 l2 -> total l1 = total l2.
Proof.
  induction 1; simpl; lia.
Qed.

(** Without overflow the running sums are the mathematical ones: they do
    not decrease and they end at the total. *)
Lemma cumsum_int_from_exact (l : list Z) (acc : Z) :
  Forall (fun x => 0 <= x) l -> 0 <= acc -> acc + total l < 2 ^ 63 ->
  nondecreasing (acc :: cumsum_int_from acc l) /\
  last (acc :: cumsum_int_from acc l) 0 = acc + total l.
Proof.
  intros Hl; revert acc.
  induction Hl as [|x l Hx Hl IH]; intros acc Hacc Hsum.
  - simpl. split; [auto | lia].
  - cbn [cumsum_int_from].
    change (total (x :: l)) with (x + total l) in *.
    assert (Hx' : 0 <= total l) by now apply total_nonneg.
    rewrite wrap64_small by (unfold int64_range; lia).
    destruct (IH (acc + x)) as [Hmono Hlast]; [lia | lia |].
    split.
    + cbn [nondecreasing]. split; [lia | exact Hmono].
    + change (last (acc :: acc + x :: cumsum_int_from (acc + x) l) 0)
        with (last (acc + x :: cumsum_int_from (acc + x) l) 0).
      rewrite Hlast. lia.
Qed.

Lemma np_cumsum_int_exact (l : list Z) :
  Forall (fun x => 0 <= x) l -> total l < 2 ^ 63 ->
  nondecreasing (np_cumsum_int l) /\ last (np_cumsum_int l) 0 = total l.
Proof.
  intros Hl Hsum. destruct Hl as [|x l Hx Hl]; [simpl; auto|].
  cbn [np_cumsum_int]. change (total (x :: l)) with (x + total l) in *.
  apply cumsum_int_from_exact; assumption.
Qed.

Lemma fold_wrap_exact (l : list Z) (acc : Z) :
  Forall (fun x => 0 <= x) l -> 0 <= acc -> acc + total l < 2 ^ 63 ->
  fold_left (fun a x => wrap64 (a + x)) l acc = acc + total l.
Proof.
  intros Hl; revert acc.
  induction Hl as [|x l Hx Hl IH]; intros acc Hacc Hsum;
    [simpl in *; lia|].
  change (total (x :: l)) with (x + total l) in *. cbn [fold_left].
  assert (Hx' : 0 <= total l) by now apply total_nonneg.
  rewrite wrap64_small by (unfold int64_range; lia).
  rewrite IH; lia.
Qed.

Lemma sum_int64_exact (l : list Z) :
  Forall (fun x => 0 <= x) l -> total l < 2 ^ 63 -> sum_int64 l = total l.
Proof.
  intros Hl Hsum. unfold sum_int64. rewrite fold_wrap_exact; auto; lia.
Qed.

Lemma np_cumsum_int_length (l : list Z) : length (np_cumsum_int l) = length l.
Proof.
  destruct l as [|x l]; [reflexivity|]. simpl. f_equal.
  revert x; induction l as [|y l IH]; intros x; simpl; [reflexivity | now rewrite IH].
Qed.

Lemma wrap64_add_l (a b : Z) : wrap64 (wrap64 a + b) = wrap64 (a + b).
Proof.
  unfold wrap64.
  replace ((a + 2 ^ 63) mod 2 ^ 64 - 2 ^ 63 + b + 2 ^ 63)
    with ((a + 2 ^ 63) mod 2 ^ 64 + b) by lia.
  rewrite Z.add_mod_idemp_l by lia.
  f_equal. f_equal. lia.
Qed.

Lemma fold_wrap_total (l : list Z) (a : Z) :
  fold_left (fun acc x => wrap64 (acc + x)) l (wrap64 a) = wrap64 (a + total l).
Proof.
  revert a; induction l as [|x l IH]; intros a.
  - simpl. now rewrite Z.add_0_r.
  - cbn [fold_left]. rewrite wrap64_add_l, IH, total_cons. f_equal. lia.
Qed.

(** [Series.sum()] on [int64] is the sum reduced to [int64]. *)
Lemma sum_int64_wrap (l : list Z) : sum_int64 l = wrap64 (total l).
Proof.
  unfold sum_int64. change 0 with (wrap64 0) at 1. now rewrite fold_wrap_total.
Qed.

(** ** Counting the observations *)

Lemma insert_sorted_permutation {A : Type} (before : A -> A -> bool) (x : A) (l : list A) :
  Permutation (insert_sorted before x l) (x :: l).
Proof.
  induction l as [|y l IH]; simpl; [reflexivity|].
  destruct (before x y); [reflexivity|].
  rewrite IH. apply perm_swap.
Qed.

Lemma sort_by_permutation {A : Type} (before : A -> A -> bool) (l : list A) :
  Permutation (sort_by before l) l.
Proof.
  unfold sort_by.
  induction l as [|x l IH]; simpl; [reflexivity|].
  rewrite insert_sorted_permutation. now constructor.
Qed.

Lemma sorted_counts_permutation (v : list Z) :
  Permutation (sorted_counts v) (value_counts_arraylike v).
Proof.
  unfold sorted_counts, sort_values_desc.
  now rewrite !sort_by_permutation.
Qed.

Lemma count_cons (k x : Z) (l : list Z) :
  count k (x :: l) = (if x =? k then 1 else 0) + count k l.
Proof.
  unfold count; simpl. destruct (x =? k); simpl length; lia.
Qed.

Lemma count_nonneg (k : Z) (l : list Z) : 0 <= count k l.
Proof. unfold count; lia. Qed.

Lemma count_pos (k : Z) (l : list Z) : In k l -> 1 <= count k l.
Proof.
  induction l as [|x l IH]; intros Hin; [contradiction|].
  rewrite count_cons. pose proof (count_nonneg k l).
  destruct Hin as [->|Hin]; [rewrite Z.eqb_refl; lia|].
  specialize (IH Hin). destruct (x =? k); lia.
Qed.

Lemma unique_In (x : Z) (l : list Z) : In x (unique l) <-> In x l.
Proof.
  induction l as [|y l IH]; simpl; [tauto|].
  rewrite filter_In, IH.
  destruct (Z.eq_dec y x) as [->|Hne]; [tauto|].
  assert (negb (x =? y) = true) by (apply negb_true_iff, Z.eqb_neq; congruence).
  tauto.
Qed.

Lemma unique_NoDup (l : list Z) : NoDup (unique l).
Proof.
  induction l as [|y l IH]; simpl; constructor.
  - rewrite filter_In, Z.eqb_refl. simpl. intros [_ H]; discriminate.
  - now apply NoDup_filter.
Qed.

(** The counts of pairwise distinct keys add up to the number of
    observations that carry one of these keys. *)
Lemma total_counts_NoDup (u l : list Z) :
  NoDup u ->
  total (map (fun k => count k l) u) =
  Z.of_nat (length (filter (fun y => existsb (Z.eqb y) u) l)).
Proof.
  intros Hu. induction l as [|x l IH].
  - simpl. induction u as [|k u IHu]; simpl; [reflexivity|].
    inversion Hu; subst. rewrite IHu by assumption. reflexivity.
  - assert (Hsplit : total (map (fun k => count k (x :: l)) u) =
                     (if existsb (Z.eqb x) u then 1 else 0) +
                     total (map (fun k => count k l) u)).
    { clear IH. induction Hu as [|k u Hk Hu IHu]; [reflexivity|].
      cbn [map existsb]. rewrite !total_cons, IHu, count_cons.
      destruct (x =? k) eqn:Hxk; cbn [orb]; [|lia].
      apply Z.eqb_eq in Hxk; subst k.
      destruct (existsb (Z.eqb x) u) eqn:Hex; [|lia].
      apply existsb_exists in Hex. destruct Hex as [y [Hy Hxy]].
      apply Z.eqb_eq in Hxy; subst y. contradiction. }
    rewrite Hsplit, IH. simpl filter.
    destruct (existsb (Z.eqb x) u); simpl length; lia.
Qed.

Lemma total_value_counts (v : list Z) :
  total (map snd (value_counts_arraylike v)) = Z.of_nat (length v).
Proof.
  unfold value_counts_arraylike. rewrite map_map. simpl.
  rewrite total_counts_NoDup by apply unique_NoDup.
  f_equal. f_equal.
  apply forallb_filter_id. apply forallb_forall. intros x Hx.
  apply existsb_exists. exists x. split; [now apply unique_In | apply Z.eqb_refl].
Qed.

Lemma value_counts_positive (v : list Z) :
  Forall (fun x => 1 <= x) (map snd (value_counts_arraylike v)).
Proof.
  unfold value_counts_arraylike. rewrite map_map. simpl.
  apply Forall_map, Forall_forall. intros k Hk.
  apply count_pos. now apply unique_In.
Qed.

Lemma total_sorted_counts (v : list Z) :
  total (map snd (sorted_counts v)) = Z.of_nat (length v).
Proof.
  rewrite <- total_value_counts.
  apply total_permutation, Permutation_map, sorted_counts_permutation.
Qed.

Lemma sorted_counts_positive (v : list Z) :
  Forall (fun x => 1 <= x) (map snd (sorted_counts v)).
Proof.
  eapply Permutation_Forall; [|apply value_counts_positive].
  apply Permutation_map. symmetry. apply sorted_counts_permutation.
Qed.

Lemma total_sort_values (v : list Z) :
  total (map snd (sort_values_desc (value_counts_arraylike v))) = Z.of_nat (length v).
Proof.
  rewrite <- total_value_counts.
  apply total_permutation, Permutation_map, sort_by_permutation.
Qed.

Lemma sort_values_positive (v : list Z) :
  Forall (fun x => 1 <= x) (map snd (sort_values_desc (value_counts_arraylike v))).
Proof.
  eapply Permutation_Forall; [|apply value_counts_positive].
  apply Permutation_map. symmetry. apply sort_by_permutation.
Qed.

(** ** The order of the rows *)

Lemma insert_by_label_In {A : Type} (x y : label * A) (l : list (label * A)) :
  In y (insert_sorted by_label x l) <-> y = x \/ In y l.
Proof.
  induction l as [|z l IH]; simpl; [intuition auto|].
  destruct (by_label x z); simpl; [intuition auto|].
  rewrite IH. intuition auto.
Qed.

Lemma insert_by_label_sorted {A : Type} (x : label * A) (l : list (label * A)) :
  StronglySorted label_lt l -> ~ In (fst x) (map fst l) ->
  StronglySorted label_lt (insert_sorted by_label x l).
Proof.
  induction 1 as [|z l Hl IH Hz]; intros Hnew; simpl.
  - constructor; constructor.
  - unfold by_label at 1. destruct (fst x <=? fst z) eqn:Hxz.
    + apply Z.leb_le in Hxz.
      assert (Hlt : fst x < fst z) by (simpl in Hnew; lia).
      constructor; [now constructor|].
      constructor; [exact Hlt|].
      rewrite Forall_forall in *. intros y Hy. specialize (Hz y Hy).
      unfold label_lt in *. lia.
    + apply Z.leb_gt in Hxz.
      constructor.
      * apply IH. simpl in Hnew. tauto.
      * rewrite Forall_forall in *. intros y Hy.
        apply insert_by_label_In in Hy. destruct Hy as [->|Hy]; [exact Hxz | auto].
Qed.

Lemma sort_by_label_In {A : Type} (y : label * A) (l : list (label * A)) :
  In y (sort_by by_label l) <-> In y l.
Proof.
  unfold sort_by. induction l as [|x l IH]; simpl; [tauto|].
  rewrite insert_by_label_In, IH. intuition auto.
Qed.

(** Rows with pairwise distinct labels are sorted into strictly increasing
    labels. *)
Lemma sort_by_label_sorted {A : Type} (l : list (label * A)) :
  NoDup (map fst l) -> StronglySorted label_lt (sort_by by_label l).
Proof.
  unfold sort_by. induction l as [|x l IH]; simpl; intros Hnd; [constructor|].
  inversion Hnd as [|? ? Hx Hnd']; subst.
  apply insert_by_label_sorted; [auto|].
  intros Hin. apply Hx. apply in_map_iff in Hin. destruct Hin as [y [Hy Hin]].
  apply in_map_iff. exists y. split; [exact Hy|].
  now apply (sort_by_label_In y l).
Qed.

(** Two strictly sorted lists with the same elements are equal. *)
Lemma sorted_unique {A : Type} (l1 l2 : list (label * A)) :
  StronglySorted label_lt l1 -> StronglySorted label_lt l2 ->
  (forall y, In y l1 <-> In y l2) -> l1 = l2.
Proof.
  intros H1; revert l2. induction H1 as [|x l1 Hl1 IH Hx]; intros l2 H2 Hsame.
  - destruct l2 as [|y l2]; [reflexivity|]. exfalso. apply (Hsame y). now left.
  - destruct H2 as [|y l2 Hl2 Hy].
    + exfalso. apply (Hsame x). now left.
    + rewrite Forall_forall in Hx, Hy. unfold label_lt in *.
      assert (Hxy : x = y).
      { destruct (proj1 (Hsame x) (or_introl eq_refl)) as [Heq|Hin]; [congruence|].
        destruct (proj2 (Hsame y) (or_introl eq_refl)) as [Heq|Hin']; [assumption|].
        specialize (Hx _ Hin'). specialize (Hy _ Hin). lia. }
      subst y. f_equal. apply IH; [assumption|].
      intros z. split; intros Hz.
      * destruct (proj1 (Hsame z) (or_intror Hz)) as [Heq|]; [|assumption].
        subst z. specialize (Hx _ Hz). lia.
      * destruct (proj2 (Hsame z) (or_intror Hz)) as [Heq|]; [|assumption].
        subst z. specialize (Hy _ Hz). lia.
Qed.

(** [sort_index] forgets the order in which rows with distinct labels
    arrive: the order that [value_counts] gives to equal counts does not
    show in the table. *)
Lemma sort_by_label_permutation {A : Type} (l1 l2 : list (label * A)) :
  NoDup (map fst l1) -> Permutation l1 l2 ->
  sort_by by_label l1 = sort_by by_label l2.
Proof.
  intros Hnd Hperm. apply sorted_unique.
  - now apply sort_by_label_sorted.
  - apply sort_by_label_sorted.
    eapply Permutation_NoDup; [|exact Hnd]. now apply Permutation_map.
  - intros y. rewrite !sort_by_label_In.
    split; apply Permutation_in; [assumption | now symmetry].
Qed.

Lemma value_counts_labels (v : list Z) :
  map fst (value_counts_arraylike v) = unique v.
Proof.
  unfold value_counts_arraylike. rewrite map_map. simpl. apply map_id.
Qed.

(** The rows of the table of observations: one per distinct value, in
    increasing order of the values, each with the number of its
    occurrences. *)
Lemma sorted_counts_spec (v : list Z) :
  StronglySorted label_lt (sorted_counts v) /\
  forall k c, In (k, c) (sorted_counts v) <-> In k v /\ c = count k v.
Proof.
  assert (Hnd : NoDup (map fst (sort_values_desc (value_counts_arraylike v)))).
  { eapply Permutation_NoDup.
    - apply Permutation_map. symmetry. apply sort_by_permutation.
    - rewrite value_counts_labels. apply unique_NoDup. }
  split; [now apply sort_by_label_sorted|].
  intros k c. unfold sorted_counts. rewrite sort_by_label_In.
  assert (Hperm := sort_by_permutation (fun a b : label * Z => snd b <=? snd a)
                     (value_counts_arraylike v)).
  fold (sort_values_desc (value_counts_arraylike v)) in Hperm.
  split.
  - intros Hin. apply (Permutation_in _ Hperm) in Hin.
    unfold value_counts_arraylike in Hin. apply in_map_iff in Hin.
    destruct Hin as [k' [[= <- <-] Hk]]. split; [now apply unique_In | reflexivity].
  - intros [Hk ->]. apply (Permutation_in _ (Permutation_sym Hperm)).
    unfold value_counts_arraylike. apply in_map_iff. exists k.
    split; [reflexivity | now apply unique_In].
Qed.

(** ** Running sums of floats *)

Lemma cumsum_float_from_nth (l : list float) (acc : float) (i : nat) :
  (i < length l)%nat ->
  nth_error (cumsum_float_from acc l) i = Some (fold_left B64.add (firstn (S i) l) acc).
Proof.
  revert acc i; induction l as [|x l IH]; intros acc i Hi; simpl in Hi; [lia|].
  destruct i as [|i]; [reflexivity|].
  cbn [cumsum_float_from nth_error]. rewrite IH by lia. reflexivity.
Qed.

Lemma np_cumsum_float_nth (l : list float) (i : nat) :
  (i < length l)%nat ->
  nth_error (np_cumsum_float l) i = Some (partial_sum (firstn (S i) l)).
Proof.
  destruct l as [|x l]; simpl; intros Hi; [lia|].
  destruct i as [|i]; [reflexivity|].
  cbn [nth_error]. rewrite cumsum_float_from_nth by lia. reflexivity.
Qed.

Lemma np_cumsum_float_length (l : list float) :
  length (np_cumsum_float l) = length l.
Proof.
  destruct l as [|x l]; [reflexivity|]. simpl. f_equal.
  revert x; induction l as [|y l IH]; intros x; simpl; [reflexivity | now rewrite IH].
Qed.

Lemma mask_restore_nth (orig res : list float) (i : nat) (x y : float) :
  nth_error orig i = Some x -> nth_error res i = Some y ->
  nth_error (mask_restore orig res) i = Some (if B64.isnan x then B64.nan else y).
Proof.
  revert res i; induction orig as [|a orig IH]; intros [|b res] [|i] Hx Hy;
    simpl in *; try discriminate.
  - now inversion Hx; inversion Hy; subst.
  - now apply IH.
Qed.

Lemma mask_restore_length (orig res : list float) :
  length orig = length res -> length (mask_restore orig res) = length orig.
Proof.
  revert res; induction orig as [|a orig IH]; intros [|b res] Hlen;
    simpl in *; try discriminate; [reflexivity|].
  now rewrite IH by lia.
Qed.

Lemma na_cumsum_length (l : list float) : length (na_cumsum l) = length l.
Proof.
  unfold na_cumsum. apply mask_restore_length.
  unfold mask_fill. now rewrite np_cumsum_float_length, length_map.
Qed.

(** Row [i] of [cumsum()]: NaN where the value is NaN, otherwise the sum of
    the values up to row [i] in which the NaN count as zero. *)
Lemma na_cumsum_nth (l : list float) (i : nat) (x : float) :
  nth_error l i = Some x ->
  nth_error (na_cumsum l) i =
  Some (if B64.isnan x then B64.nan else partial_sum (firstn (S i) (mask_fill l))).
Proof.
  intros Hx. unfold na_cumsum.
  apply mask_restore_nth; [assumption|].
  apply np_cumsum_float_nth.
  unfold mask_fill. rewrite length_map.
  apply nth_error_Some. congruence.
Qed.

Lemma mask_fill_no_nan (l : list float) :
  Forall (fun x => B64.isnan x = false) l -> mask_fill l = l.
Proof.
  unfold mask_fill. induction 1 as [|x l Hx _ IH]; simpl; [reflexivity|].
  now rewrite Hx, IH.
Qed.

Lemma isnan_true (x : float) : B64.isnan x = true -> x = B64.nan.
Proof. destruct x; simpl; intros H; try discriminate; reflexivity. Qed.

Lemma na_cumsum_all_nan (l : list float) :
  Forall (fun x => B64.isnan x = true) l -> na_cumsum l = l.
Proof.
  intros Hl. unfold na_cumsum.
  assert (Hlen : length l = length (np_cumsum_float (mask_fill l)))
    by (unfold mask_fill; now rewrite np_cumsum_float_length, length_map).
  revert Hlen. generalize (np_cumsum_float (mask_fill l)) as res.
  induction Hl as [|x l Hx _ IH]; intros [|y res] Hlen; simpl in *;
    try discriminate; [reflexivity|].
  rewrite Hx, IH by lia. f_equal. symmetry. now apply isnan_true.
Qed.

(** ** The frequency table: raw counts *)

(** C3. In raw-count mode the table keeps the caller's rows in their
    order; at each row the relative frequency is the frequency divided by
    the sum of the column ([Series.sum], on [int64]), in [float64]; and the
    cumulative relative column is the cumulative sum of the relative
    column: recomputing [cumsum()] gives it back, row [i] holds
    [rel[0] + ... + rel[i]] where pandas lets a NaN row stay NaN and count
    for nothing, which is the plain running sum as soon as the relative
    column has no NaN. *)
Theorem count_mode_relative_frequency
  (w : World) (dataframe : ref) (coluna : string) (v : list Z) :
  lookup_column coluna (df_columns (deref w dataframe)) = Some (Int64 v) ->
  exists t w',
    tabela_distribuicao_frequencias dataframe coluna true w = (inr t, w') /\
    let T := deref w' t in
    let rel := float_column T "frequencia_relativa" in
    let acc := float_column T "frequencia_relativa_acumulada" in
    df_index T = df_index (deref w dataframe) /\
    int_column T "frequencia" = v /\
    length rel = length v /\
    (forall i x, nth_error v i = Some x ->
       nth_error rel i = Some (B64.div (B64.of_Z x) (B64.of_Z (sum_int64 v)))) /\
    series_cumsum (mkSeries (df_index T) (Float64 rel)) =
      inr (mkSeries (df_index T) (Float64 acc)) /\
    (forall i x, nth_error rel i = Some x ->
       nth_error acc i =
       Some (if B64.isnan x then B64.nan
             else partial_sum (firstn (S i) (mask_fill rel)))) /\
    (Forall (fun x => B64.isnan x = false) rel ->
     forall i, (i < length rel)%nat ->
       nth_error acc i = Some (partial_sum (firstn (S i) rel))).
Proof.
  intros Hcol.
  exists (length (heap w)), (alloc w (count_table (df_index (deref w dataframe)) v)).
  split; [now apply tabela_count_mode|].
  rewrite deref_alloc_new.
  unfold count_table, frequency_table, float_column, int_column.
  cbn [lookup_column df_columns df_index String.eqb Ascii.eqb Bool.eqb].
  repeat split.
  - unfold relative_of_counts. now rewrite length_map.
  - intros i x Hx. unfold relative_of_counts.
    now rewrite nth_error_map, Hx.
  - intros i x Hx. now apply na_cumsum_nth.
  - intros Hnan i Hi.
    destruct (nth_error (relative_of_counts (sum_int64 v) v) i) as [x|] eqn:Hx;
      [|apply nth_error_None in Hx; lia].
    rewrite (na_cumsum_nth _ _ _ Hx), mask_fill_no_nan by assumption.
    rewrite Forall_forall in Hnan.
    now rewrite (Hnan x (nth_error_In _ _ Hx)).
Qed.

Lemma count_mode_relative_frequency_witness :
  exists t w',
    tabela_distribuicao_frequencias 0%nat "n" true
      (one_column_world "n" (Int64 [2; 2; 1])) = (inr t, w') /\
    float_column (deref w' t) "frequencia_relativa" =
      [B64.decimal 4 1; B64.decimal 4 1; B64.decimal 2 1] /\
    float_column (deref w' t) "frequencia_relativa_acumulada" =
      [B64.decimal 4 1; B64.decimal 8 1; B64.decimal 10 1].
Proof.
  destruct (count_mode_relative_frequency
              (one_column_world "n" (Int64 [2; 2; 1])) 0%nat "n" [2; 2; 1]
              eq_refl) as [t [w' [Hrun _]]].
  exists t, w'. split; [exact Hrun|].
  vm_compute in Hrun. injection Hrun as <- <-. split; reflexivity.
Defined.

(** pandas lets a NaN row stay NaN and adds the other rows: with the
    frequencies [0, 1, -1], which sum to zero, the relative frequencies are
    [NaN, inf, -inf] and their cumulative sums [NaN, inf, NaN], where
    adding from the first row on would give NaN on every row. *)
Example cumsum_skips_nan :
  exists t w',
    tabela_distribuicao_frequencias 0%nat "n" true
      (one_column_world "n" (Int64 [0; 1; -1])) = (inr t, w') /\
    float_column (deref w' t) "frequencia_relativa" =
      [S754_nan; S754_infinity false; S754_infinity true] /\
    float_column (deref w' t) "frequencia_relativa_acumulada" =
      [S754_nan; S754_infinity false; S754_nan] /\
    np_cumsum_float (float_column (deref w' t) "frequencia_relativa") =
      [S754_nan; S754_nan; S754_nan].
Proof.
  eexists; eexists. split; [vm_compute; reflexivity|].
  repeat split; reflexivity.
Qed.

(** ** The frequency table: cumulative frequencies *)

(** The claim of C5 read on every input fails: a column of frequencies
    with a negative entry gives a cumulative column that decreases. *)
Lemma cumulative_frequency_negative_entry :
  exists t w',
    tabela_distribuicao_frequencias 0%nat "n" true
      (one_column_world "n" (Int64 [3; -1])) = (inr t, w') /\
    int_column (deref w' t) "frequencia_acumulada" = [3; 2] /\
    ~ cumulative_frequency_invariant (deref w' t).
Proof.
  eexists; eexists. split; [vm_compute; reflexivity|].
  split; [reflexivity|].
  intros [Hmono _]. vm_compute in Hmono. destruct Hmono as [Hle _].
  apply Hle. reflexivity.
Qed.

(** C5, amended. In raw-observation mode, and in raw-count mode when the
    frequencies supplied are non-negative, the cumulative frequencies never
    decrease and their last value is the sum of the frequencies (the sums
    staying below [2^63], the range of [int64]). *)
Theorem cumulative_frequency_monotone
  (w : World) (dataframe : ref) (coluna : string) (coluna_frequencia : bool)
  (v : list Z) :
  lookup_column coluna (df_columns (deref w dataframe)) = Some (Int64 v) ->
  (if coluna_frequencia
   then Forall (fun x => 0 <= x) v /\ total v < 2 ^ 63
   else Z.of_nat (length v) < 2 ^ 63) ->
  exists t w',
    tabela_distribuicao_frequencias dataframe coluna coluna_frequencia w = (inr t, w') /\
    cumulative_frequency_invariant (deref w' t) /\
    sum_int64 (int_column (deref w' t) "frequencia") =
      total (int_column (deref w' t) "frequencia").
Proof.
  intros Hcol Hdom. destruct coluna_frequencia.
  - destruct Hdom as [Hpos Hsum].
    exists (length (heap w)), (alloc w (count_table (df_index (deref w dataframe)) v)).
    split; [now apply tabela_count_mode|].
    rewrite deref_alloc_new.
    unfold cumulative_frequency_invariant, count_table, frequency_table, int_column.
    cbn [lookup_column df_columns df_index String.eqb Ascii.eqb Bool.eqb].
    destruct (np_cumsum_int_exact v Hpos Hsum) as [Hmono Hlast].
    split; [split; auto|]. now apply sum_int64_exact.
  - exists (length (heap w)), (alloc w (raw_table v)).
    split; [now apply tabela_raw_mode|].
    rewrite deref_alloc_new.
    unfold cumulative_frequency_invariant, raw_table, frequency_table, int_column.
    cbn [lookup_column df_columns df_index String.eqb Ascii.eqb Bool.eqb].
    assert (Hpos : Forall (fun x => 0 <= x) (map snd (sorted_counts v))).
    { eapply Forall_impl; [|apply sorted_counts_positive]. simpl; intros; lia. }
    assert (Hsum : total (map snd (sorted_counts v)) < 2 ^ 63)
      by now rewrite total_sorted_counts.
    destruct (np_cumsum_int_exact _ Hpos Hsum) as [Hmono Hlast].
    split; [split; auto|]. now apply sum_int64_exact.
Qed.

Lemma cumulative_frequency_monotone_witness :
  exists t w',
    tabela_distribuicao_frequencias 0%nat "n" false
      (one_column_world "n" (Int64 [1; 1; 2; 2; 3])) = (inr t, w') /\
    cumulative_frequency_invariant (deref w' t) /\
    sum_int64 (int_column (deref w' t) "frequencia") =
      total (int_column (deref w' t) "frequencia").
Proof.
  apply (cumulative_frequency_monotone
           (one_column_world "n" (Int64 [1; 1; 2; 2; 3])) 0%nat "n" false
           [1; 1; 2; 2; 3]).
  - reflexivity.
  - simpl. lia.
Defined.

(** Non-negative frequencies whose total leaves [int64] wrap around. *)
Example cumulative_frequency_overflow :
  exists t w',
    tabela_distribuicao_frequencias 0%nat "n" true
      (one_column_world "n" (Int64 [2 ^ 62; 2 ^ 62])) = (inr t, w') /\
    int_column (deref w' t) "frequencia_acumulada" = [2 ^ 62; - 2 ^ 63].
Proof.
  eexists; eexists. split; [vm_compute; reflexivity | reflexivity].
Qed.

(** ** The frequency table: the worked example *)

(** C6. The column [[1,1,2,2,3]] of observations gives rows for the keys
    1, 2, 3 in that order, frequencies [[2,2,1]], relative frequencies
    [[0.4,0.4,0.2]], cumulative frequencies [[2,4,5]] and cumulative
    relative frequencies [[0.4,0.8,1.0]]. *)
Theorem example_observations
  (w : World) (dataframe : ref) (coluna : string) :
  lookup_column coluna (df_columns (deref w dataframe)) =
    Some (Int64 [1; 1; 2; 2; 3]) ->
  exists t w',
    tabela_distribuicao_frequencias dataframe coluna false w = (inr t, w') /\
    deref w' t =
    mkDataFrame [1; 2; 3]
      [("frequencia"%string, Int64 [2; 2; 1]);
       ("frequencia_relativa"%string,
        Float64 [B64.decimal 4 1; B64.decimal 4 1; B64.decimal 2 1]);
       ("frequencia_acumulada"%string, Int64 [2; 4; 5]);
       ("frequencia_relativa_acumulada"%string,
        Float64 [B64.decimal 4 1; B64.decimal 8 1; B64.decimal 10 1])].
Proof.
  intros Hcol.
  exists (length (heap w)), (alloc w (raw_table [1; 1; 2; 2; 3])).
  split; [now apply tabela_raw_mode|].
  rewrite deref_alloc_new. vm_compute. reflexivity.
Qed.

Lemma example_observations_witness :
  exists t w',
    tabela_distribuicao_frequencias 0%nat "x" false
      (one_column_world "x" (Int64 [1; 1; 2; 2; 3])) = (inr t, w') /\
    deref w' t =
    mkDataFrame [1; 2; 3]
      [("frequencia"%string, Int64 [2; 2; 1]);
       ("frequencia_relativa"%string,
        Float64 [B64.decimal 4 1; B64.decimal 4 1; B64.decimal 2 1]);
       ("frequencia_acumulada"%string, Int64 [2; 4; 5]);
       ("frequencia_relativa_acumulada"%string,
        Float64 [B64.decimal 4 1; B64.decimal 8 1; B64.decimal 10 1])].
Proof.
  apply (example_observations (one_column_world "x" (Int64 [1; 1; 2; 2; 3])) 0%nat "x").
  reflexivity.
Defined.

(** ** Categorical columns *)

Lemma increasing_sorted (l : list label) :
  increasing l = true -> StronglySorted Z.lt l.
Proof.
  induction l as [|x l IH]; intros Hinc; [constructor|].
  cbn [increasing] in Hinc. apply andb_prop in Hinc as [Hhd Htl].
  specialize (IH Htl). constructor; [exact IH|].
  destruct l as [|y l]; [constructor|].
  apply Z.ltb_lt in Hhd. inversion IH as [|? ? _ Hy]; subst.
  constructor; [exact Hhd|].
  eapply Forall_impl; [|exact Hy]. simpl; intros; lia.
Qed.

Lemma bincount_length (obs : list Z) (n : nat) : length (bincount obs n) = n.
Proof. unfold bincount. now rewrite length_map, length_seq. Qed.

Lemma category_rows_labels (categories : list label) (codes : list Z) :
  map fst (value_counts_categorical categories codes) = categories.
Proof.
  unfold value_counts_categorical.
  generalize (bincount_length (filter (fun c => 0 <=? c) codes) (length categories)).
  generalize (bincount (filter (fun c => 0 <=? c) codes) (length categories)).
  induction categories as [|k categories IH]; intros [|c l] Hlen; simpl in *;
    try discriminate; [reflexivity|].
  f_equal. apply IH. lia.
Qed.

Lemma category_rows_counts (categories : list label) (codes : list Z) :
  map snd (value_counts_categorical categories codes) =
  category_counts categories codes.
Proof.
  unfold value_counts_categorical, category_counts, observed.
  generalize (bincount_length (filter (fun c => 0 <=? c) codes) (length categories)).
  generalize (bincount (filter (fun c => 0 <=? c) codes) (length categories)).
  induction categories as [|k categories IH]; intros [|c l] Hlen; simpl in *;
    try discriminate; [reflexivity|].
  f_equal. apply IH. lia.
Qed.

Lemma label_lt_of_sorted {A : Type} (r : list (label * A)) :
  StronglySorted Z.lt (map fst r) -> StronglySorted label_lt r.
Proof.
  induction r as [|x r IH]; intros Hs; [constructor|].
  simpl in Hs. inversion Hs as [|? ? Hr Hx]; subst.
  constructor; [auto|].
  rewrite Forall_forall in *. intros y Hy. apply Hx. now apply in_map.
Qed.

Lemma sorted_NoDup (l : list Z) : StronglySorted Z.lt l -> NoDup l.
Proof.
  induction 1 as [|x l _ IH Hx]; constructor; [|assumption].
  intros Hin. rewrite Forall_forall in Hx. specialize (Hx _ Hin). lia.
Qed.

(** Rows that come in another order go back, by [sort_index], to the
    increasing order of their labels. *)
Lemma sort_by_label_of_sorted {A : Type} (r r' : list (label * A)) :
  StronglySorted Z.lt (map fst r) -> Permutation r r' ->
  sort_by by_label r' = r.
Proof.
  intros Hs Hperm. apply sorted_unique.
  - apply sort_by_label_sorted.
    eapply Permutation_NoDup; [apply Permutation_map; exact Hperm|].
    now apply sorted_NoDup.
  - now apply label_lt_of_sorted.
  - intros y. rewrite sort_by_label_In.
    split; apply Permutation_in; [now symmetry | assumption].
Qed.

Lemma sort_values_of_categories (categories : list label) (codes : list Z) :
  increasing categories = true ->
  sort_by by_label (sort_values_desc (value_counts_categorical categories codes)) =
  value_counts_categorical categories codes.
Proof.
  intros Hinc. apply sort_by_label_of_sorted.
  - rewrite category_rows_labels. now apply increasing_sorted.
  - symmetry. apply sort_by_permutation.
Qed.

Lemma sum_sort_values (r : rows) :
  sum_int64 (map snd (sort_values_desc r)) = sum_int64 (map snd r).
Proof.
  rewrite !sum_int64_wrap. f_equal. apply total_permutation.
  apply Permutation_map. apply sort_by_permutation.
Qed.

(** In raw-observation mode, on a categorical column, the builder returns
    a fresh frame, [categorical_table]. *)
Lemma tabela_categorical (w : World) (dataframe : ref) (coluna : string)
  (categories : list label) (codes : list Z) :
  lookup_column coluna (df_columns (deref w dataframe)) =
    Some (Categorical categories codes) ->
  increasing categories = true -> valid_codes categories codes = true ->
  tabela_distribuicao_frequencias dataframe coluna false w =
  (inr (length (heap w)), alloc w (categorical_table categories codes)).
Proof.
  intros Hcol Hinc Hvalid. pose proof (lookup_allocated _ _ _ _ Hcol) as Hr.
  unfold tabela_distribuicao_frequencias, bind, new_DataFrame, getitem, setitem,
    lift, ret.
  rewrite (deref_alloc_old w empty_DataFrame dataframe Hr), Hcol.
  unfold value_counts, sorted_and_normalized. cbn [s_values].
  rewrite Hinc, Hvalid. cbn [andb].
  rewrite sort_index_rows, (sort_values_of_categories _ _ Hinc).
  rewrite deref_alloc_new.
  unfold frame_setitem at 1.
  cbn [empty_DataFrame df_index df_columns s_index s_values series_of_rows].
  rewrite set_frame_alloc.
  rewrite (deref_alloc_old _ _ dataframe Hr), Hcol.
  cbn [s_values]. rewrite Hinc, Hvalid. cbn [andb].
  unfold series_sum, series_truediv.
  cbn [s_values s_index series_of_rows].
  fold (relative_of_counts
          (sum_int64 (map snd (sort_values_desc
                                 (value_counts_categorical categories codes))))
          (map snd (sort_values_desc (value_counts_categorical categories codes)))).
  rewrite sort_index_relative, (sort_values_of_categories _ _ Hinc).
  rewrite sum_sort_values, category_rows_labels, category_rows_counts.
  step_builder.
  reflexivity.
Qed.

(** ** The frequency table: empty columns and zero sums *)

Lemma lookup_column_In (name : string) (c : column) (cols : list (string * column)) :
  lookup_column name cols = Some c -> exists n, In (n, c) cols.
Proof.
  induction cols as [|[n c'] cols IH]; simpl; [discriminate|].
  destruct (String.eqb n name).
  - intros [= ->]. exists n. now left.
  - intros Hl. destruct (IH Hl) as [n' Hn']. exists n'. now right.
Qed.

Lemma empty_column_index (df : DataFrame) (name : string) :
  wf_DataFrame df ->
  lookup_column name (df_columns df) = Some (Int64 []) ->
  df_index df = [].
Proof.
  unfold wf_DataFrame; intros Hwf Hcol.
  destruct (lookup_column_In _ _ _ Hcol) as [n Hn].
  rewrite Forall_forall in Hwf. specialize (Hwf _ Hn). simpl in Hwf.
  symmetry in Hwf. now apply length_zero_iff_nil in Hwf.
Qed.

Lemma observed_all_missing (codes : list Z) :
  Forall (fun c => c = -1) codes -> observed codes = [].
Proof.
  induction 1 as [|c codes -> _ IH]; [reflexivity|]. simpl. exact IH.
Qed.

Lemma valid_codes_all_missing (categories : list label) (codes : list Z) :
  Forall (fun c => c = -1) codes -> valid_codes categories codes = true.
Proof.
  intros Hcodes. unfold valid_codes. apply forallb_forall. intros c Hc.
  rewrite Forall_forall in Hcodes. rewrite (Hcodes c Hc).
  apply andb_true_intro. split; [reflexivity | apply Z.ltb_lt; lia].
Qed.

Lemma bincount_nil (n : nat) : bincount [] n = repeat 0 n.
Proof.
  unfold bincount. rewrite <- (length_seq n 0) at 2.
  induction (seq 0 n) as [|i l IH]; simpl; [reflexivity | now rewrite IH].
Qed.

Lemma total_zeros (n : nat) : total (repeat 0 n) = 0.
Proof. induction n as [|n IH]; [reflexivity|]. simpl repeat. now rewrite total_cons, IH. Qed.

Lemma cumsum_int_from_zeros (n : nat) : cumsum_int_from 0 (repeat 0 n) = repeat 0 n.
Proof.
  induction n as [|n IH]; [reflexivity|].
  cbn [repeat cumsum_int_from]. change (wrap64 (0 + 0)) with 0. now rewrite IH.
Qed.

Lemma np_cumsum_int_zeros (n : nat) : np_cumsum_int (repeat 0 n) = repeat 0 n.
Proof.
  destruct n as [|n]; [reflexivity|].
  cbn [repeat np_cumsum_int]. now rewrite cumsum_int_from_zeros.
Qed.

Lemma relative_of_zeros (n : nat) :
  relative_of_counts 0 (repeat 0 n) = repeat B64.nan n.
Proof.
  induction n as [|n IH]; [reflexivity|].
  cbn [repeat relative_of_counts map]. fold (relative_of_counts 0 (repeat 0 n)).
  now rewrite IH.
Qed.

Lemma all_nan_repeat (n : nat) : all_nan (repeat B64.nan n).
Proof. induction n as [|n IH]; constructor; [reflexivity | exact IH]. Qed.

(** The claim of C7 read on every empty column fails: an empty categorical
    column with the categories [1] and [2] gives a table of two rows, one
    per category, with the frequency 0 and [0 / 0], which is NaN. *)
Lemma empty_categorical_column_has_rows :
  exists t w',
    tabela_distribuicao_frequencias 0%nat "x" false
      (one_column_world "x" (Categorical [1; 2] [])) = (inr t, w') /\
    df_index (deref w' t) = [1; 2] /\
    int_column (deref w' t) "frequencia" = [0; 0] /\
    float_column (deref w' t) "frequencia_relativa" = [B64.nan; B64.nan] /\
    ~ zero_rows (deref w' t).
Proof.
  eexists; eexists. split; [vm_compute; reflexivity|].
  split; [reflexivity|]. split; [reflexivity|]. split; [reflexivity|].
  intros [Hidx _]. vm_compute in Hidx. discriminate.
Qed.

(** C7, amended. An empty column of integers gives a table without rows,
    in both modes, and no exception. A categorical column without
    observations, empty or with missing values only, gives in
    raw-observation mode, and without an exception, one row for every
    category of the column, in the order of the categories: its frequency
    and cumulative frequency are 0, its relative and cumulative relative
    frequency are NaN, since [0 / 0] is NaN and no division is refused. The
    table is without rows when the column has no category, and only then. *)
Theorem empty_column_gives_empty_table
  (w : World) (dataframe : ref) (coluna : string) :
  (forall coluna_frequencia : bool,
     wf_DataFrame (deref w dataframe) ->
     lookup_column coluna (df_columns (deref w dataframe)) = Some (Int64 []) ->
     exists t w',
       tabela_distribuicao_frequencias dataframe coluna coluna_frequencia w =
         (inr t, w') /\
       zero_rows (deref w' t)) /\
  (forall (categories : list label) (codes : list Z),
     lookup_column coluna (df_columns (deref w dataframe)) =
       Some (Categorical categories codes) ->
     increasing categories = true ->
     Forall (fun c => c = -1) codes ->
     exists t w',
       tabela_distribuicao_frequencias dataframe coluna false w = (inr t, w') /\
       let T := deref w' t in
       let n := length categories in
       df_index T = categories /\
       int_column T "frequencia" = repeat 0 n /\
       float_column T "frequencia_relativa" = repeat B64.nan n /\
       int_column T "frequencia_acumulada" = repeat 0 n /\
       float_column T "frequencia_relativa_acumulada" = repeat B64.nan n /\
       (zero_rows T <-> categories = [])).
Proof.
  split.
  - intros coluna_frequencia Hwf Hcol. destruct coluna_frequencia.
    + exists (length (heap w)), (alloc w (count_table (df_index (deref w dataframe)) [])).
      split; [now apply tabela_count_mode|].
      rewrite deref_alloc_new, (empty_column_index _ _ Hwf Hcol).
      split; [reflexivity|]. repeat constructor.
    + exists (length (heap w)), (alloc w (raw_table [])).
      split; [now apply tabela_raw_mode|].
      rewrite deref_alloc_new. split; [reflexivity|]. repeat constructor.
  - intros categories codes Hcol Hinc Hcodes.
    exists (length (heap w)), (alloc w (categorical_table categories codes)).
    split.
    { apply tabela_categorical; [assumption | assumption |].
      now apply valid_codes_all_missing. }
    rewrite deref_alloc_new.
    unfold categorical_table, category_counts.
    rewrite (observed_all_missing codes Hcodes), bincount_nil.
    rewrite sum_int64_wrap, total_zeros. change (wrap64 0) with 0.
    rewrite relative_of_zeros.
    unfold frequency_table, int_column, float_column.
    cbn [lookup_column df_columns df_index String.eqb Ascii.eqb Bool.eqb].
    rewrite np_cumsum_int_zeros, (na_cumsum_all_nan _ (all_nan_repeat _)).
    repeat (split; [reflexivity|]).
    unfold zero_rows. cbn [df_index df_columns]. split.
    + intros [Hidx _]. exact Hidx.
    + intros ->. split; [reflexivity|]. repeat constructor.
Qed.

Lemma empty_column_gives_empty_table_witness :
  (exists t w',
     tabela_distribuicao_frequencias 0%nat "x" true
       (one_column_world "x" (Int64 [])) = (inr t, w') /\
     zero_rows (deref w' t)) /\
  (exists t w',
     tabela_distribuicao_frequencias 0%nat "x" false
       (one_column_world "x" (Categorical [1; 2; 3] [])) = (inr t, w') /\
     df_index (deref w' t) = [1; 2; 3] /\
     float_column (deref w' t) "frequencia_relativa" = [B64.nan; B64.nan; B64.nan]).
Proof.
  split.
  - apply (proj1 (empty_column_gives_empty_table
                    (one_column_world "x" (Int64 [])) 0%nat "x") true).
    + repeat constructor.
    + reflexivity.
  - destruct (proj2 (empty_column_gives_empty_table
                       (one_column_world "x" (Categorical [1; 2; 3] [])) 0%nat "x")
                [1; 2; 3] [] eq_refl eq_refl (Forall_nil _))
      as (t & w' & Hrun & Hidx & _ & Hrel & _).
    exists t, w'. split; [exact Hrun|]. split; [exact Hidx | exact Hrel].
Defined.

Lemma nonneg_total_zero (v : list Z) :
  Forall (fun x => 0 <= x) v -> total v = 0 -> Forall (fun x => x = 0) v.
Proof.
  induction 1 as [|x l Hx Hl IH]; intros Hsum; [constructor|].
  rewrite total_cons in Hsum. pose proof (total_nonneg l Hl).
  constructor; [lia | apply IH; lia].
Qed.

(** The claim of C10 read on every column fails: the frequencies [1] and
    [-1] sum to zero, and their relative frequencies are infinite. *)
Lemma zero_sum_with_negative_entry :
  exists t w',
    tabela_distribuicao_frequencias 0%nat "n" true
      (one_column_world "n" (Int64 [1; -1])) = (inr t, w') /\
    sum_int64 [1; -1] = 0 /\
    float_column (deref w' t) "frequencia_relativa" =
      [S754_infinity false; S754_infinity true] /\
    ~ all_nan (float_column (deref w' t) "frequencia_relativa").
Proof.
  eexists; eexists. split; [vm_compute; reflexivity|].
  split; [reflexivity|]. split; [reflexivity|].
  intros Hnan. vm_compute in Hnan. inversion Hnan as [|x l Hx _]; subst.
  discriminate.
Qed.

(** C10, amended. In raw-count mode, when the frequencies are non-negative
    and sum to zero, that is when they are all zero, the table has one row
    per row of the input, no exception is raised, and every relative and
    cumulative relative frequency is NaN. *)
Theorem zero_counts_give_nan
  (w : World) (dataframe : ref) (coluna : string) (v : list Z) :
  lookup_column coluna (df_columns (deref w dataframe)) = Some (Int64 v) ->
  Forall (fun x => 0 <= x) v -> total v = 0 ->
  exists t w',
    tabela_distribuicao_frequencias dataframe coluna true w = (inr t, w') /\
    let T := deref w' t in
    df_index T = df_index (deref w dataframe) /\
    int_column T "frequencia" = v /\
    length (float_column T "frequencia_relativa") = length v /\
    length (float_column T "frequencia_relativa_acumulada") = length v /\
    all_nan (float_column T "frequencia_relativa") /\
    all_nan (float_column T "frequencia_relativa_acumulada").
Proof.
  intros Hcol Hpos Hsum.
  exists (length (heap w)), (alloc w (count_table (df_index (deref w dataframe)) v)).
  split; [now apply tabela_count_mode|].
  rewrite deref_alloc_new.
  unfold count_table, frequency_table, float_column, int_column.
  cbn [lookup_column df_columns df_index String.eqb Ascii.eqb Bool.eqb].
  assert (Hnan : all_nan (relative_of_counts (sum_int64 v) v)).
  { rewrite sum_int64_exact by (auto; lia). rewrite Hsum.
    unfold all_nan, relative_of_counts. apply Forall_map.
    eapply Forall_impl; [|apply (nonneg_total_zero v Hpos Hsum)].
    simpl. intros x ->. reflexivity. }
  rewrite (na_cumsum_all_nan _ Hnan).
  unfold relative_of_counts in *. rewrite length_map.
  repeat split; assumption.
Qed.

Lemma zero_counts_give_nan_witness :
  exists t w',
    tabela_distribuicao_frequencias 0%nat "n" true
      (one_column_world "n" (Int64 [0; 0; 0])) = (inr t, w') /\
    let T := deref w' t in
    df_index T = df_index (deref (one_column_world "n" (Int64 [0; 0; 0])) 0%nat) /\
    int_column T "frequencia" = [0; 0; 0] /\
    length (float_column T "frequencia_relativa") = length [0; 0; 0] /\
    length (float_column T "frequencia_relativa_acumulada") = length [0; 0; 0] /\
    all_nan (float_column T "frequencia_relativa") /\
    all_nan (float_column T "frequencia_relativa_acumulada").
Proof.
  apply (zero_counts_give_nan (one_column_world "n" (Int64 [0; 0; 0])) 0%nat "n"
           [0; 0; 0]).
  - reflexivity.
  - repeat constructor; lia.
  - reflexivity.
Defined.

(** ** What the reporters print *)

Lemma say_say (w : World) (a b : list string) : say (say w a) b = say w (a ++ b).
Proof. unfold say; simpl. now rewrite app_assoc. Qed.

Lemma say_nil (w : World) : say w [] = w.
Proof. destruct w; unfold say; simpl. now rewrite app_nil_r. Qed.

Lemma print_run (line : string) (w : World) : print line w = (inr tt, say w [line]).
Proof. reflexivity. Qed.

Lemma lookup_own_column (cols : list (string * column)) (n : string) :
  In n (map fst cols) -> lookup_column n cols <> None.
Proof.
  induction cols as [|[n' c] cols IH]; simpl; [tauto|].
  intros [->|Hin]; [now rewrite String.eqb_refl|].
  destruct (String.eqb n' n); [discriminate | auto].
Qed.

Lemma getitem_own_column (w : World) (r : ref) (n : string) :
  In n (map fst (df_columns (deref w r))) ->
  getitem r n w = (inr (sample_of (deref w r) n), w).
Proof.
  intros Hin. apply lookup_own_column in Hin.
  unfold getitem, sample_of.
  destruct (lookup_column n (df_columns (deref w r))); [reflexivity | congruence].
Qed.

Lemma comprehension_getitem (w : World) (r : ref) (nomes : list string) :
  incl nomes (map fst (df_columns (deref w r))) ->
  comprehension nomes (fun coluna => getitem r coluna) w =
  (inr (map (sample_of (deref w r)) nomes), w).
Proof.
  induction nomes as [|n nomes IH]; intros Hincl; [reflexivity|].
  cbn [comprehension map]. unfold bind.
  rewrite getitem_own_column by (apply Hincl; now left).
  rewrite IH by (intros x Hx; apply Hincl; now right).
  reflexivity.
Qed.

Lemma amostras_run (w : World) (r : ref) :
  amostras r w = (inr (samples_of (deref w r)), w).
Proof.
  unfold amostras, bind, columns.
  rewrite comprehension_getitem by apply incl_refl. reflexivity.
Qed.

Section ReporterRuns.

Context `{ScipyStats}.

(** A reporter prints its title, calls its routine on the columns of the
    frame, and prints the statistic and the verdict; when the routine
    raises, the title is all that was printed. *)
Lemma analise_run (t : teste) (dataframe : ref) (alfa : float) (w : World) :
  analise t dataframe alfa w =
  match rotina t (samples_of (deref w dataframe)) with
  | inl e => (inl e, say w [titulo t])
  | inr r =>
      (inr tt,
       say w (report (titulo t) (nome_estatistica t)
                (mensagem_nao_rejeita t) (mensagem_rejeita t) r alfa))
  end.
Proof.
  destruct t; cbn [analise rotina titulo nome_estatistica mensagem_nao_rejeita
                     mensagem_rejeita];
    unfold analise_levene, analise_ttest_ind, analise_ttest_rel,
      analise_anova_one_way, analise_wilcoxon, analise_mannwhitneyu,
      analise_friedman, analise_kruskal;
    unfold bind at 1; rewrite print_run;
    unfold bind at 1; rewrite amostras_run;
    change (deref (say w _) dataframe) with (deref w dataframe);
    unfold bind at 1, lift;
    match goal with
    | |- context [match ?call with inl _ => _ | inr _ => _ end] =>
        destruct call as [e|[estatistica valor_p]]
    end;
    try reflexivity;
    unfold bind, report, verdict; rewrite !print_run; cbn [fst snd];
    destruct (B64.gtb valor_p alfa); rewrite print_run, !say_say; reflexivity.
Qed.

Lemma shapiro_loop (df : DataFrame) (dataframe : ref) (alfa : float)
  (nomes : list string) (w : World) :
  deref w dataframe = df ->
  incl nomes (map fst (df_columns df)) ->
  for_each nomes (fun coluna =>
    x <- getitem dataframe coluna ;;
    r <- lift (shapiro x "omit") ;;
    let '(estatistica_sw, valor_p_sw) := r in
    print (debug_3f "estatistica_sw" estatistica_sw) ;;
    if B64.gtb valor_p_sw alfa
    then print (com_valor_p (coluna ++ " segue uma distribuição normal") valor_p_sw)
    else print (com_valor_p (coluna ++ " não segue uma distribuição normal") valor_p_sw)) w =
  (outcome (snd (shapiro_lines df alfa nomes)),
   say w (fst (shapiro_lines df alfa nomes))).
Proof.
  revert w; induction nomes as [|n nomes IH]; intros w Hdf Hincl.
  - cbn. now rewrite say_nil.
  - cbn [for_each shapiro_lines]. unfold bind at 1. unfold bind at 1.
    rewrite getitem_own_column by (rewrite Hdf; apply Hincl; now left).
    rewrite Hdf. unfold bind at 1, lift.
    destruct (shapiro (sample_of df n) "omit") as [e|[estatistica valor_p]].
    + cbn. now rewrite say_nil.
    + unfold bind at 1. rewrite print_run.
      assert (Hstep : forall w0, deref w0 dataframe = df ->
                for_each nomes (fun coluna =>
                  x <- getitem dataframe coluna ;;
                  r <- lift (shapiro x "omit") ;;
                  let '(estatistica_sw, valor_p_sw) := r in
                  print (debug_3f "estatistica_sw" estatistica_sw) ;;
                  if B64.gtb valor_p_sw alfa
                  then print (com_valor_p (coluna ++ " segue uma distribuição normal")
                                valor_p_sw)
                  else print (com_valor_p (coluna ++ " não segue uma distribuição normal")
                                valor_p_sw)) w0 =
                (outcome (snd (shapiro_lines df alfa nomes)),
                 say w0 (fst (shapiro_lines df alfa nomes)))).
      { intros w0 Hw0. apply IH; [assumption|].
        intros x Hx. apply Hincl. now right. }
      unfold verdict. cbn [fst snd].
      destruct (B64.gtb valor_p alfa); rewrite print_run, Hstep by exact Hdf;
        rewrite !say_say; reflexivity.
Qed.

(** The Shapiro-Wilk reporter prints its title once, and a statistic and a
    verdict for each column in turn, until a call raises. *)
Lemma analise_shapiro_run (dataframe : ref) (alfa : float) (w : World) :
  let lines := shapiro_lines (deref w dataframe) alfa
                 (map fst (df_columns (deref w dataframe))) in
  analise_shapiro dataframe alfa w =
  (outcome (snd lines), say w ("Teste de Shapiro-Wilk"%string :: fst lines)).
Proof.
  intros lines. unfold analise_shapiro.
  unfold bind at 1. rewrite print_run.
  unfold bind at 1, columns.
  change (deref (say w ["Teste de Shapiro-Wilk"%string]) dataframe)
    with (deref w dataframe).
  rewrite (shapiro_loop (deref w dataframe)) by (reflexivity || apply incl_refl).
  now rewrite say_say.
Qed.

Lemma printed_say {A : Type} (m : M A) (w : World) (a : result A) (lines : list string) :
  m w = (a, say w lines) -> printed m w = lines.
Proof.
  intros Hrun. unfold printed. rewrite Hrun. simpl.
  rewrite skipn_app, skipn_all, Nat.sub_diag. reflexivity.
Qed.

End ReporterRuns.

(** ** Comparisons of floats *)

Lemma SFcompare_antisym (x y : float) (c : comparison) :
  SFcompare x y = Some c -> SFcompare y x = Some (CompOpp c).
Proof.
  destruct x as [sx|sx| |sx mx ex], y as [sy|sy| |sy my ey]; simpl;
    try discriminate;
    try (intros [= <-]; reflexivity);
    try (destruct sx; intros [= <-]; reflexivity);
    try (destruct sy; intros [= <-]; reflexivity);
    try (destruct sx, sy; intros [= <-]; reflexivity).
  intros [= <-]. f_equal.
  rewrite (Z.compare_antisym ex ey).
  pose proof (Pos.compare_cont_antisym mx my Eq) as Hm. simpl in Hm.
  rewrite <- Hm.
  destruct sx, sy; try reflexivity;
    destruct (ex ?= ey); simpl; try reflexivity;
    destruct (Pos.compare_cont Eq mx my); reflexivity.
Qed.

(** [p == alfa] excludes [p > alfa]. *)
Lemma eqb_not_gtb (p alfa : float) : B64.eqb p alfa = true -> B64.gtb p alfa = false.
Proof.
  unfold B64.eqb, B64.gtb, SFeqb, SFltb.
  destruct (SFcompare p alfa) as [[| |]|] eqn:Hc; try discriminate.
  intros _. now rewrite (SFcompare_antisym _ _ _ Hc).
Qed.

(** ** Three decimal places *)

Example format_3f_half : format_3f (B64.decimal 5 1) = "0.500"%string.
Proof. reflexivity. Qed.

Example format_3f_alfa : format_3f (B64.decimal 5 2) = "0.050"%string.
Proof. reflexivity. Qed.

Example format_3f_tie_even : format_3f (B64.decimal 625 4) = "0.062"%string.
Proof. reflexivity. Qed.

Example format_3f_up : format_3f (B64.decimal 12346 4) = "1.235"%string.
Proof. reflexivity. Qed.

Example format_3f_neg : format_3f (SFopp (B64.decimal 1 4)) = "-0.000"%string.
Proof. reflexivity. Qed.

Example format_3f_nan : format_3f (B64.div B64.zero B64.zero) = "nan"%string.
Proof. reflexivity. Qed.

Lemma digit_char_is_digit (d : Z) : 0 <= d <= 9 -> is_digit (digit_char d) = true.
Proof.
  intros Hd. unfold is_digit, digit_char.
  rewrite N_ascii_embedding by lia.
  apply andb_true_iff; split; apply N.leb_le; lia.
Qed.

Lemma string_append_assoc (a b c : string) :
  ((a ++ b) ++ c = a ++ (b ++ c))%string.
Proof.
  induction a as [|ch a IH]; simpl; [reflexivity | now rewrite IH].
Qed.

Lemma format_milli_three_decimals (s : bool) (n : Z) :
  three_decimals (format_milli s n).
Proof.
  unfold three_decimals, format_milli, three_digits.
  exists (sign_string s ++ decimal_string (n / 1000))%string,
    (digit_char (n mod 1000 / 100)),
    (digit_char (n mod 1000 / 10 mod 10)),
    (digit_char (n mod 1000 mod 10)).
  pose proof (Z.mod_pos_bound n 1000 ltac:(lia)) as Hk.
  split; [now rewrite string_append_assoc|].
  repeat split; apply digit_char_is_digit.
  - assert (0 <= n mod 1000 / 100 < 10)
      by (split; [apply Z.div_pos; lia | apply Z.div_lt_upper_bound; lia]).
    lia.
  - pose proof (Z.mod_pos_bound (n mod 1000 / 10) 10 ltac:(lia)). lia.
  - pose proof (Z.mod_pos_bound (n mod 1000) 10 ltac:(lia)). lia.
Qed.

(** A finite number is printed with exactly three digits after the point. *)
Lemma format_3f_three_decimals (x : float) :
  B64.is_finite x = true -> three_decimals (format_3f x).
Proof.
  destruct x; simpl; try discriminate; intros _; apply format_milli_three_decimals.
Qed.

(** ** The reports *)

Section Reports.

Context `{ScipyStats}.

(** C1, amended. The eight reporters that call one routine print the test
    name, then, when the routine returns [(statistic, p)], the statistic
    with three decimals and exactly one verdict: the message that the null
    hypothesis stands when [p > alfa], the message that it is rejected
    otherwise, each with [p] to three decimals; when the routine raises,
    the name is all they print. The Shapiro-Wilk reporter prints its name
    once and a statistic and a verdict for every column. Finite numbers
    are printed with three digits after the point. *)
Theorem reporters_print_name_statistic_verdict
  (t : teste) (dataframe : ref) (alfa : float) (w : World) :
  match rotina t (samples_of (deref w dataframe)) with
  | inr r =>
      fst (analise t dataframe alfa w) = inr tt /\
      printed (analise t dataframe alfa) w =
        [titulo t;
         debug_3f (nome_estatistica t) (fst r);
         if B64.gtb (snd r) alfa
         then com_valor_p (mensagem_nao_rejeita t) (snd r)
         else com_valor_p (mensagem_rejeita t) (snd r)] /\
      reports_once (printed (analise t dataframe alfa) w)
  | inl e =>
      fst (analise t dataframe alfa w) = inl e /\
      printed (analise t dataframe alfa) w = [titulo t]
  end /\
  (let lines := shapiro_lines (deref w dataframe) alfa
                  (map fst (df_columns (deref w dataframe))) in
   fst (analise_shapiro dataframe alfa w) = outcome (snd lines) /\
   printed (analise_shapiro dataframe alfa) w =
     "Teste de Shapiro-Wilk"%string :: fst lines) /\
  (forall x, B64.is_finite x = true -> three_decimals (format_3f x)).
Proof.
  split; [|split].
  - pose proof (analise_run t dataframe alfa w) as Hrun.
    destruct (rotina t (samples_of (deref w dataframe))) as [e|r].
    + split; [now rewrite Hrun | exact (printed_say _ _ _ _ Hrun)].
    + pose proof (printed_say _ _ _ _ Hrun) as Hout.
      split; [now rewrite Hrun|]. split; [exact Hout|].
      rewrite Hout. unfold reports_once.
      exists (titulo t), (nome_estatistica t), (mensagem_nao_rejeita t),
        (mensagem_rejeita t), r, alfa. reflexivity.
  - intros lines. pose proof (analise_shapiro_run dataframe alfa w) as Hrun.
    cbv zeta in Hrun. fold lines in Hrun.
    split; [now rewrite Hrun | exact (printed_say _ _ _ _ Hrun)].
  - exact format_3f_three_decimals.
Qed.

(** With every p-value equal to [alfa], the Shapiro-Wilk loop prints the
    second message for every column. *)
Lemma shapiro_lines_p_equal_alfa (df : DataFrame) (alfa : float) (nomes : list string) :
  (forall coluna, In coluna nomes ->
     exists r, shapiro (sample_of df coluna) "omit" = inr r /\
               B64.eqb (snd r) alfa = true) ->
  shapiro_lines df alfa nomes =
  (flat_map (fun coluna =>
     match shapiro (sample_of df coluna) "omit" with
     | inr r =>
         [debug_3f "estatistica_sw" (fst r);
          com_valor_p (coluna ++ " não segue uma distribuição normal") (snd r)]
     | inl _ => []
     end) nomes, None).
Proof.
  induction nomes as [|n nomes IH]; intros Hall; [reflexivity|].
  cbn [shapiro_lines flat_map].
  destruct (Hall n (or_introl eq_refl)) as [r [Hr Heq]].
  rewrite Hr, IH by (intros c Hc; apply Hall; now right).
  unfold verdict. now rewrite (eqb_not_gtb _ _ Heq).
Qed.

(** C2, amended. When the routine returns a p-value equal to [alfa], the
    strict comparison [p > alfa] fails and every reporter prints the
    message of its second branch: the null hypothesis is rejected (for
    Shapiro-Wilk, on every column: the column is not normal). *)
Theorem p_equal_alfa_rejects
  (t : teste) (dataframe : ref) (alfa : float) (w : World) :
  (forall estatistica p,
     rotina t (samples_of (deref w dataframe)) = inr (estatistica, p) ->
     B64.eqb p alfa = true ->
     printed (analise t dataframe alfa) w =
       [titulo t; debug_3f (nome_estatistica t) estatistica;
        com_valor_p (mensagem_rejeita t) p]) /\
  ((forall coluna, In coluna (map fst (df_columns (deref w dataframe))) ->
      exists r, shapiro (sample_of (deref w dataframe) coluna) "omit" = inr r /\
                B64.eqb (snd r) alfa = true) ->
   printed (analise_shapiro dataframe alfa) w =
     "Teste de Shapiro-Wilk"%string ::
     flat_map (fun coluna =>
       match shapiro (sample_of (deref w dataframe) coluna) "omit" with
       | inr r =>
           [debug_3f "estatistica_sw" (fst r);
            com_valor_p (coluna ++ " não segue uma distribuição normal") (snd r)]
       | inl _ => []
       end) (map fst (df_columns (deref w dataframe)))).
Proof.
  split.
  - intros estatistica p Hr Heq. apply eqb_not_gtb in Heq.
    pose proof (analise_run t dataframe alfa w) as Hrun.
    rewrite Hr in Hrun. rewrite (printed_say _ _ _ _ Hrun).
    unfold report, verdict. cbn [fst snd]. now rewrite Heq.
  - intros Hall.
    pose proof (analise_shapiro_run dataframe alfa w) as Hrun.
    cbv zeta in Hrun. rewrite (shapiro_lines_p_equal_alfa _ _ _ Hall) in Hrun.
    exact (printed_say _ _ _ _ Hrun).
Qed.

(** The composite reporter: the Shapiro-Wilk report, an empty line, the
    Levene report; an exception of the first stops it there. *)
Lemma analises_shapiro_levene_run
  (dataframe : ref) (alfa : float) (centro : string) (w : World) :
  analises_shapiro_levene dataframe alfa centro w =
  match fst (analise_shapiro dataframe alfa w) with
  | inl e => (inl e, say w (printed (analise_shapiro dataframe alfa) w))
  | inr _ =>
      (fst (analise_levene dataframe alfa centro w),
       say w (printed (analise_shapiro dataframe alfa) w ++ [""%string] ++
              printed (analise_levene dataframe alfa centro) w))
  end.
Proof.
  pose proof (analise_shapiro_run dataframe alfa w) as Hs. cbv zeta in Hs.
  rewrite (printed_say _ _ _ _ Hs).
  unfold analises_shapiro_levene, bind at 1. rewrite Hs. cbn [fst].
  destruct (outcome _) as [e|[]]; [reflexivity|].
  unfold bind. rewrite print_run, say_say.
  pose proof (analise_run (Levene centro) dataframe alfa) as Hl.
  cbn [analise] in Hl.
  pose proof (Hl w) as Hw. rewrite Hl.
  match goal with
  | |- context [deref (say w ?l) dataframe] =>
      change (deref (say w l) dataframe) with (deref w dataframe)
  end.
  destruct (rotina (Levene centro) (samples_of (deref w dataframe))) as [e|r];
    rewrite (printed_say _ _ _ _ Hw), Hw; cbn [fst];
    rewrite say_say, <- !app_assoc; reflexivity.
Qed.

(** C8, amended. When the Shapiro-Wilk reporter returns, the composite
    reporter prints what the Shapiro-Wilk reporter prints with the same
    frame and threshold, then an empty line, then what the Levene reporter
    prints with the same frame, threshold and centre, and it ends as the
    Levene reporter ends. When the Shapiro-Wilk reporter raises, the
    composite reporter raises the same exception and has printed what the
    Shapiro-Wilk reporter printed: no empty line and no Levene report. *)
Theorem composite_is_shapiro_blank_levene
  (dataframe : ref) (alfa : float) (centro : string) (w : World) :
  match fst (analise_shapiro dataframe alfa w) with
  | inr _ =>
      printed (analises_shapiro_levene dataframe alfa centro) w =
        printed (analise_shapiro dataframe alfa) w ++ [""%string] ++
        printed (analise_levene dataframe alfa centro) w /\
      fst (analises_shapiro_levene dataframe alfa centro w) =
        fst (analise_levene dataframe alfa centro w)
  | inl e =>
      printed (analises_shapiro_levene dataframe alfa centro) w =
        printed (analise_shapiro dataframe alfa) w /\
      fst (analises_shapiro_levene dataframe alfa centro w) = inl e
  end.
Proof.
  pose proof (analises_shapiro_levene_run dataframe alfa centro w) as Hrun.
  destruct (fst (analise_shapiro dataframe alfa w)) as [e|[]].
  - split; [exact (printed_say _ _ _ _ Hrun) | now rewrite Hrun].
  - split; [exact (printed_say _ _ _ _ Hrun) | now rewrite Hrun].
Qed.

End Reports.

(** The claim of C1 read on every reporter fails: on a frame of two columns
    the Shapiro-Wilk reporter prints two statistics and two verdicts. *)
Lemma shapiro_prints_one_verdict_per_column :
  printed (@analise_shapiro (mock_scipy (inr (B64.decimal 98 2, B64.decimal 5 1)))
             0%nat alfa_padrao) two_samples_world =
    ["Teste de Shapiro-Wilk"%string;
     "estatistica_sw=0.980"%string;
     "a segue uma distribuição normal (valor p: 0.500)"%string;
     "estatistica_sw=0.980"%string;
     "b segue uma distribuição normal (valor p: 0.500)"%string] /\
  ~ reports_once
      (printed (@analise_shapiro (mock_scipy (inr (B64.decimal 98 2, B64.decimal 5 1)))
                  0%nat alfa_padrao) two_samples_world).
Proof.
  assert (Hout : printed (@analise_shapiro
                            (mock_scipy (inr (B64.decimal 98 2, B64.decimal 5 1)))
                            0%nat alfa_padrao) two_samples_world =
                 ["Teste de Shapiro-Wilk"%string;
                  "estatistica_sw=0.980"%string;
                  "a segue uma distribuição normal (valor p: 0.500)"%string;
                  "estatistica_sw=0.980"%string;
                  "b segue uma distribuição normal (valor p: 0.500)"%string])
    by (vm_compute; reflexivity).
  split; [exact Hout|].
  intros (t & n & a & b & r & alfa & Heq).
  rewrite Hout in Heq. apply (f_equal (@length string)) in Heq.
  discriminate Heq.
Qed.

Lemma reporters_print_name_statistic_verdict_witness :
  printed (@analise (mock_scipy (inr (B64.decimal 98 2, B64.decimal 5 1)))
             Kruskal 0%nat alfa_padrao) two_samples_world =
    ["Teste de Kruskal"%string;
     "estatistica_kruskal=0.980"%string;
     "Não rejeita a hipótese nula (valor p: 0.500)"%string] /\
  three_decimals (format_3f (B64.decimal 98 2)).
Proof.
  destruct (@reporters_print_name_statistic_verdict
              (mock_scipy (inr (B64.decimal 98 2, B64.decimal 5 1)))
              Kruskal 0%nat alfa_padrao two_samples_world) as [Hone [_ Hfmt]].
  cbn [rotina mock_scipy kruskal] in Hone.
  destruct Hone as [_ [Hout _]].
  split; [rewrite Hout; reflexivity | apply Hfmt; reflexivity].
Defined.

(** The claim of C2 fails: with a p-value equal to [alfa] the reporter
    prints that the null hypothesis is rejected. *)
Lemma p_equal_alfa_prints_rejection :
  B64.eqb alfa_padrao alfa_padrao = true /\
  printed (@analise_ttest_ind (mock_scipy (inr (B64.of_Z 2, alfa_padrao)))
             0%nat alfa_padrao true "two-sided") two_samples_world =
    ["Teste t de Student"%string;
     "estatistica_ttest=2.000"%string;
     "Rejeita a hipótese nula (valor p: 0.050)"%string] /\
  ~ In "Não rejeita a hipótese nula (valor p: 0.050)"%string
      (printed (@analise_ttest_ind (mock_scipy (inr (B64.of_Z 2, alfa_padrao)))
                  0%nat alfa_padrao true "two-sided") two_samples_world).
Proof.
  assert (Hout : printed (@analise_ttest_ind
                            (mock_scipy (inr (B64.of_Z 2, alfa_padrao)))
                            0%nat alfa_padrao true "two-sided") two_samples_world =
                 ["Teste t de Student"%string;
                  "estatistica_ttest=2.000"%string;
                  "Rejeita a hipótese nula (valor p: 0.050)"%string])
    by (vm_compute; reflexivity).
  split; [reflexivity|]. split; [exact Hout|].
  rewrite Hout. intros [Hin|[Hin|[Hin|[]]]]; discriminate Hin.
Qed.

Lemma p_equal_alfa_rejects_witness :
  printed (@analise (mock_scipy (inr (B64.of_Z 2, alfa_padrao)))
             (TtestInd true "two-sided") 0%nat alfa_padrao) two_samples_world =
    ["Teste t de Student"%string;
     "estatistica_ttest=2.000"%string;
     "Rejeita a hipótese nula (valor p: 0.050)"%string] /\
  printed (@analise_shapiro (mock_scipy (inr (B64.of_Z 2, alfa_padrao)))
             0%nat alfa_padrao) two_samples_world =
    ["Teste de Shapiro-Wilk"%string;
     "estatistica_sw=2.000"%string;
     "a não segue uma distribuição normal (valor p: 0.050)"%string;
     "estatistica_sw=2.000"%string;
     "b não segue uma distribuição normal (valor p: 0.050)"%string].
Proof.
  destruct (@p_equal_alfa_rejects (mock_scipy (inr (B64.of_Z 2, alfa_padrao)))
              (TtestInd true "two-sided") 0%nat alfa_padrao two_samples_world)
    as [Hone Hshapiro].
  split.
  - rewrite (Hone (B64.of_Z 2) alfa_padrao eq_refl eq_refl). reflexivity.
  - rewrite Hshapiro; [reflexivity|].
    intros coluna _. exists (B64.of_Z 2, alfa_padrao). split; reflexivity.
Defined.

(** The claim of C8 read on every frame fails: when [shapiro] refuses the
    second of three columns, the composite reporter prints the three lines
    that the Shapiro-Wilk reporter printed and stops, where the two reports
    and the empty line make seven lines. *)
Lemma composite_stops_when_shapiro_raises :
  printed (@analises_shapiro_levene strict_scipy 0%nat alfa_padrao "mean")
    three_samples_world =
    ["Teste de Shapiro-Wilk"%string;
     "estatistica_sw=0.980"%string;
     "a segue uma distribuição normal (valor p: 0.500)"%string] /\
  printed (@analise_shapiro strict_scipy 0%nat alfa_padrao) three_samples_world ++
  [""%string] ++
  printed (@analise_levene strict_scipy 0%nat alfa_padrao "mean") three_samples_world =
    ["Teste de Shapiro-Wilk"%string;
     "estatistica_sw=0.980"%string;
     "a segue uma distribuição normal (valor p: 0.500)"%string;
     ""%string;
     "Teste de Levene"%string;
     "estatistica_levene=2.000"%string;
     "Ao menos uma variância é diferente (valor p: nan)"%string] /\
  printed (@analises_shapiro_levene strict_scipy 0%nat alfa_padrao "mean")
    three_samples_world <>
  printed (@analise_shapiro strict_scipy 0%nat alfa_padrao) three_samples_world ++
  [""%string] ++
  printed (@analise_levene strict_scipy 0%nat alfa_padrao "mean") three_samples_world.
Proof.
  split; [vm_compute; reflexivity|]. split; [vm_compute; reflexivity|].
  vm_compute. discriminate.
Qed.

Lemma composite_is_shapiro_blank_levene_witness :
  printed (@analises_shapiro_levene
             (mock_scipy (inr (B64.decimal 98 2, B64.decimal 5 1)))
             0%nat alfa_padrao "mean") two_samples_world =
  printed (@analise_shapiro (mock_scipy (inr (B64.decimal 98 2, B64.decimal 5 1)))
             0%nat alfa_padrao) two_samples_world ++ [""%string] ++
  printed (@analise_levene (mock_scipy (inr (B64.decimal 98 2, B64.decimal 5 1)))
             0%nat alfa_padrao "mean") two_samples_world.
Proof.
  pose proof (@composite_is_shapiro_blank_levene
                (mock_scipy (inr (B64.decimal 98 2, B64.decimal 5 1)))
                0%nat alfa_padrao "mean" two_samples_world) as Hrun.
  assert (Hret : fst (@analise_shapiro
                        (mock_scipy (inr (B64.decimal 98 2, B64.decimal 5 1)))
                        0%nat alfa_padrao two_samples_world) = inr tt)
    by (vm_compute; reflexivity).
  rewrite Hret in Hrun. exact (proj1 Hrun).
Defined.

(** ** The frames of the caller *)

Create HintDb frames.

Lemma preserves_ret {A : Type} (n : nat) (a : A) : preserves n (ret a).
Proof. intros w Hn; simpl; auto. Qed.

Lemma preserves_lift {A : Type} (n : nat) (r : result A) : preserves n (lift r).
Proof. intros w Hn; simpl; auto. Qed.

Lemma preserves_print (n : nat) (line : string) : preserves n (print line).
Proof. intros w Hn; simpl; auto. Qed.

Lemma preserves_plot (n : nat) (c : plot_call) : preserves n (plot c).
Proof. intros w Hn; simpl; auto. Qed.

Lemma preserves_columns (n : nat) (r : ref) : preserves n (columns r).
Proof. intros w Hn; simpl; auto. Qed.

Lemma preserves_getitem (n : nat) (r : ref) (name : string) :
  preserves n (getitem r name).
Proof.
  intros w Hn. unfold getitem.
  destruct (lookup_column name (df_columns (deref w r))); simpl; auto.
Qed.

Lemma preserves_setitem (n : nat) (r : ref) (name : string) (s : Series) :
  (n <= r)%nat -> preserves n (setitem r name s).
Proof.
  intros Hr w Hn. unfold setitem.
  destruct (frame_setitem name s (deref w r)); simpl; [auto|].
  rewrite update_nth_length. split; [lia|].
  intros r' Hr'. unfold deref; simpl.
  apply nth_update_nth_other. lia.
Qed.

Lemma preserves_bind {A B : Type} (n : nat) (m : M A) (k : A -> M B) :
  preserves n m -> (forall a, preserves n (k a)) -> preserves n (bind m k).
Proof.
  intros Hm Hk w Hn. unfold bind.
  destruct (Hm w Hn) as [Hlen Hkeep].
  destruct (m w) as [[e|a] w1]; simpl in *; [auto|].
  destruct (Hk a w1 ltac:(lia)) as [Hlen' Hkeep'].
  split; [lia|].
  intros r Hr. now rewrite Hkeep', Hkeep.
Qed.

(** The reference of a new frame is beyond the frames that exist. *)
Lemma preserves_new_DataFrame {B : Type} (n : nat) (k : ref -> M B) :
  (forall r, (n <= r)%nat -> preserves n (k r)) ->
  preserves n (bind new_DataFrame k).
Proof.
  intros Hk w Hn. unfold bind, new_DataFrame.
  destruct (Hk (length (heap w)) Hn (alloc w empty_DataFrame)) as [Hlen Hkeep].
  { unfold alloc; simpl. rewrite length_app. lia. }
  unfold alloc in Hlen at 1; simpl in Hlen. rewrite length_app in Hlen.
  split; [lia|].
  intros r Hr. rewrite Hkeep by assumption.
  apply deref_alloc_old. unfold allocated. lia.
Qed.

(** Reading the store before a call. *)
Lemma preserves_read {A : Type} (n : nat) (f : World -> M A) :
  (forall w0, preserves n (f w0)) -> preserves n (fun w => f w w).
Proof. intros Hf w Hn. exact (Hf w w Hn). Qed.

Lemma preserves_for_each {A : Type} (n : nat) (l : list A) (body : A -> M unit) :
  (forall x, preserves n (body x)) -> preserves n (for_each l body).
Proof.
  intros Hbody. induction l as [|x l IH]; simpl.
  - apply preserves_ret.
  - apply preserves_bind; auto.
Qed.

Lemma preserves_comprehension {A B : Type} (n : nat) (l : list A) (f : A -> M B) :
  (forall x, preserves n (f x)) -> preserves n (comprehension l f).
Proof.
  intros Hf. induction l as [|x l IH]; simpl.
  - apply preserves_ret.
  - apply preserves_bind; [auto|]. intros y.
    apply preserves_bind; [auto|]. intros ys. apply preserves_ret.
Qed.

Lemma preserves_draw `{Plotting} (n : nat) (c : plot_call) : preserves n (draw c).
Proof.
  unfold draw. apply preserves_bind; [apply preserves_plot|].
  intros _. apply preserves_lift.
Qed.

Lemma preserves_amostras (n : nat) (r : ref) : preserves n (amostras r).
Proof.
  unfold amostras. apply preserves_bind; [apply preserves_columns|].
  intros nomes. apply preserves_comprehension. intros x. apply preserves_getitem.
Qed.

#[local] Hint Resolve preserves_ret preserves_lift preserves_print preserves_plot
  preserves_columns preserves_getitem preserves_setitem preserves_draw
  preserves_amostras : frames.

Ltac frames_step :=
  repeat first
    [ apply preserves_bind; [solve [auto with frames]|]; intros ?
    | apply preserves_bind; [|intros ?]
    | match goal with
      | |- preserves _ (let '(_, _) := ?r in _) => destruct r
      | |- preserves _ (if ?b then _ else _) => destruct b
      end
    | solve [auto with frames] ].

Lemma preserves_tabela (n : nat) (dataframe : ref) (coluna : string) (flag : bool) :
  preserves n (tabela_distribuicao_frequencias dataframe coluna flag).
Proof.
  unfold tabela_distribuicao_frequencias.
  apply preserves_new_DataFrame. intros df_estatistica Hfresh.
  destruct flag; frames_step.
Qed.

Lemma preserves_composicao `{Plotting} (n : nat) (dataframe : ref)
  (coluna intervalos : string) :
  preserves n (composicao_histograma_boxplot dataframe coluna intervalos).
Proof.
  unfold composicao_histograma_boxplot.
  apply preserves_bind; [auto with frames|]. intros _.
  apply preserves_bind;
    [apply (preserves_read n (fun w0 => draw (Boxplot (deref w0 dataframe) coluna)));
     auto with frames|]. intros _.
  apply preserves_bind;
    [apply (preserves_read n
              (fun w0 => draw (Histplot (deref w0 dataframe) coluna intervalos)));
     auto with frames|]. intros _.
  apply preserves_bind.
  { apply preserves_for_each. intros ax. frames_step. }
  intros _. frames_step.
Qed.

Section Frames.

Context `{ScipyStats} `{Plotting}.

Lemma preserves_analise_shapiro (n : nat) (dataframe : ref) (alfa : float) :
  preserves n (analise_shapiro dataframe alfa).
Proof.
  unfold analise_shapiro.
  apply preserves_bind; [auto with frames|]. intros _.
  apply preserves_bind; [auto with frames|]. intros nomes.
  apply preserves_for_each. intros coluna. frames_step.
Qed.

Lemma preserves_analise (n : nat) (t : teste) (dataframe : ref) (alfa : float) :
  preserves n (analise t dataframe alfa).
Proof.
  destruct t; cbn [analise];
    unfold analise_levene, analise_ttest_ind, analise_ttest_rel,
      analise_anova_one_way, analise_wilcoxon, analise_mannwhitneyu,
      analise_friedman, analise_kruskal;
    frames_step.
Qed.

Lemma preserves_analises_shapiro_levene
  (n : nat) (dataframe : ref) (alfa : float) (centro : string) :
  preserves n (analises_shapiro_levene dataframe alfa centro).
Proof.
  unfold analises_shapiro_levene.
  apply preserves_bind; [apply preserves_analise_shapiro|]. intros _.
  apply preserves_bind; [auto with frames|]. intros _.
  apply (preserves_analise n (Levene centro)).
Qed.

Lemma preserves_frames_kept {A : Type} (m : M A) (w : World) :
  preserves (length (heap w)) m -> frames_kept w (snd (m w)).
Proof.
  intros Hm. destruct (Hm w (le_n _)) as [Hlen Hkeep].
  split; [exact Hlen | exact Hkeep].
Qed.

(** C9. No function changes a frame of its caller: after any call of the
    frequency-table builder, of the plot composer or of a reporter,
    whether it returns or raises, every frame that existed before the call,
    the input among them, is what it was. *)
Theorem inputs_are_not_mutated
  (w : World) (dataframe : ref) (coluna intervalos centro : string)
  (coluna_frequencia : bool) (alfa : float) (t : teste) :
  frames_kept w
    (snd (tabela_distribuicao_frequencias dataframe coluna coluna_frequencia w)) /\
  frames_kept w (snd (composicao_histograma_boxplot dataframe coluna intervalos w)) /\
  frames_kept w (snd (analise_shapiro dataframe alfa w)) /\
  frames_kept w (snd (analises_shapiro_levene dataframe alfa centro w)) /\
  frames_kept w (snd (analise t dataframe alfa w)).
Proof.
  split; [|split; [|split; [|split]]]; apply preserves_frames_kept.
  - apply preserves_tabela.
  - apply preserves_composicao.
  - apply preserves_analise_shapiro.
  - apply preserves_analises_shapiro_levene.
  - apply preserves_analise.
Qed.

End Frames.

Lemma inputs_are_not_mutated_witness :
  deref (snd (tabela_distribuicao_frequencias 0%nat "x" false
                (one_column_world "x" (Int64 [1; 1; 2; 2; 3])))) 0%nat =
  deref (one_column_world "x" (Int64 [1; 1; 2; 2; 3])) 0%nat.
Proof.
  destruct (@inputs_are_not_mutated (mock_scipy (inl IndexError)) mock_plotting
              (one_column_world "x" (Int64 [1; 1; 2; 2; 3])) 0%nat "x" "auto" "mean"
              false alfa_padrao Kruskal) as [[_ Hkeep] _].
  apply Hkeep. unfold allocated. simpl. lia.
Defined.

(** ** binary64: conversions and quotients of integers below [2^53] *)

Lemma digits2_pos_size (p : positive) : digits2_pos p = Pos.size p.
Proof. induction p; simpl; congruence. Qed.

Lemma digits2_pos_upper (p : positive) : Zpos p < 2 ^ Zpos (digits2_pos p).
Proof.
  rewrite digits2_pos_size. pose proof (Pos.size_gt p) as H.
  apply Pos2Z.pos_lt_pos in H. now rewrite Pos2Z.inj_pow in H.
Qed.

Lemma digits2_pos_lower (p : positive) : 2 ^ (Zpos (digits2_pos p) - 1) <= Zpos p.
Proof.
  rewrite digits2_pos_size. pose proof (Pos.size_le p) as H.
  apply Pos2Z.pos_le_pos in H. rewrite Pos2Z.inj_pow in H.
  rewrite (Pos2Z.inj_xO p) in H.
  assert (Hs : 2 ^ Zpos (Pos.size p) = 2 * 2 ^ (Zpos (Pos.size p) - 1)).
  { rewrite <- Z.pow_succ_r by lia. f_equal. lia. }
  lia.
Qed.

Lemma digits2_pos_unique (p : positive) (d : Z) :
  2 ^ (d - 1) <= Zpos p < 2 ^ d -> Zpos (digits2_pos p) = d.
Proof.
  intros [Hlo Hhi].
  pose proof (digits2_pos_upper p) as Hu. pose proof (digits2_pos_lower p) as Hl.
  destruct (Z.lt_trichotomy (Zpos (digits2_pos p)) d) as [Hlt|[Heq|Hgt]]; [|assumption|].
  - assert (2 ^ Zpos (digits2_pos p) <= 2 ^ (d - 1)) by (apply Z.pow_le_mono_r; lia). lia.
  - assert (0 <= d).
    { destruct (Z.neg_nonneg_cases d) as [Hn|]; [|assumption].
      rewrite (Z.pow_neg_r 2 d Hn) in Hhi. lia. }
    assert (2 ^ d <= 2 ^ (Zpos (digits2_pos p) - 1)) by (apply Z.pow_le_mono_r; lia). lia.
Qed.

Lemma round_nearest_even_cases (m : Z) (l : location) :
  round_nearest_even m l = m \/ round_nearest_even m l = m + 1.
Proof.
  destruct l as [|[| |]]; simpl; auto. destruct (Z.even m); auto.
Qed.

Lemma shr_record_of_loc_m (m : Z) (l : location) : shr_m (shr_record_of_loc m l) = m.
Proof. destruct l as [|[| |]]; reflexivity. Qed.

Lemma fexp_normal (e : Z) : -1021 <= e -> fexp 53 1024 e = e - 53.
Proof. intros He. unfold fexp, emin. lia. Qed.

(** The second half of [binary_round_aux]: a mantissa of 53 digits and its
    location are rounded to the mantissa or to its successor. *)
Lemma round_finish (m : positive) (e : Z) (l : location) :
  Zpos (digits2_pos m) = 53 -> -1074 <= e <= 970 ->
  exists M E,
    (let '(mrs, e') := shr_fexp 53 1024 (round_nearest_even (Zpos m) l) e loc_Exact in
     match shr_m mrs with
     | Z0 => S754_zero false
     | Zpos m' => if e' <=? 1024 - 53 then S754_finite false m' e' else S754_infinity false
     | Zneg _ => S754_nan
     end) = S754_finite false M E /\
    (Zpos M * 2 ^ (E - e) = Zpos m \/ Zpos M * 2 ^ (E - e) = Zpos m + 1) /\
    e <= E <= e + 1.
Proof.
  intros Hd He.
  pose proof (digits2_pos_upper m) as Hu. pose proof (digits2_pos_lower m) as Hl.
  rewrite Hd in Hu, Hl. change (53 - 1) with 52 in Hl.
  destruct (round_nearest_even_cases (Zpos m) l) as [Hr|Hr]; rewrite Hr.
  - unfold shr_fexp. cbn [Zdigits2]. rewrite Hd, fexp_normal by lia.
    replace (53 + e - 53 - e) with 0 by lia. cbn [shr shr_record_of_loc shr_m].
    replace (e <=? 1024 - 53) with true by (symmetry; apply Z.leb_le; lia).
    exists m, e. rewrite Z.sub_diag, Z.pow_0_r, Z.mul_1_r. repeat split; auto; lia.
  - destruct (Z.eq_dec (Zpos m + 1) (2 ^ 53)) as [Hcarry|Hno].
    + rewrite Hcarry.
      assert (Hshift : shr_fexp 53 1024 (2 ^ 53) e loc_Exact =
                       (Build_shr_record (Zpos (2 ^ 52)) false false, e + 1)).
      { unfold shr_fexp. replace (Zdigits2 (2 ^ 53)) with 54 by reflexivity.
        rewrite fexp_normal by lia.
        replace (54 + e - 53 - e) with 1 by lia. reflexivity. }
      rewrite Hshift. cbn [shr_m].
      replace (e + 1 <=? 1024 - 53) with true by (symmetry; apply Z.leb_le; lia).
      exists (2 ^ 52)%positive, (e + 1). split; [reflexivity|].
      replace (e + 1 - e) with 1 by lia.
      split; [right; reflexivity | lia].
    + assert (Hpos : exists q, Zpos m + 1 = Zpos q) by (exists (m + 1)%positive; lia).
      destruct Hpos as [q Hq]. rewrite Hq.
      assert (Hdq : Zpos (digits2_pos q) = 53).
      { apply digits2_pos_unique. change (53 - 1) with 52. lia. }
      unfold shr_fexp. cbn [Zdigits2]. rewrite Hdq, fexp_normal by lia.
      replace (53 + e - 53 - e) with 0 by lia. cbn [shr shr_record_of_loc shr_m].
      replace (e <=? 1024 - 53) with true by (symmetry; apply Z.leb_le; lia).
      exists q, e. rewrite Z.sub_diag, Z.pow_0_r, Z.mul_1_r. repeat split; auto; lia.
Qed.

Lemma loc_of_shr_record_of_loc (m : Z) (l : location) :
  loc_of_shr_record (shr_record_of_loc m l) = l.
Proof. destruct l as [|[| |]]; reflexivity. Qed.

(** Rounding a mantissa of 53 digits: the mantissa or its successor. *)
Lemma binary_round_aux_53 (m : positive) (e : Z) (l : location) :
  Zpos (digits2_pos m) = 53 -> -1074 <= e <= 970 ->
  exists M E,
    binary_round_aux 53 1024 false (Zpos m) e l = S754_finite false M E /\
    (Zpos M * 2 ^ (E - e) = Zpos m \/ Zpos M * 2 ^ (E - e) = Zpos m + 1) /\
    e <= E <= e + 1.
Proof.
  intros Hd He. unfold binary_round_aux.
  assert (Hfirst : shr_fexp 53 1024 (Zpos m) e l = (shr_record_of_loc (Zpos m) l, e)).
  { unfold shr_fexp. cbn [Zdigits2]. rewrite Hd, fexp_normal by lia.
    replace (53 + e - 53 - e) with 0 by lia. reflexivity. }
  rewrite Hfirst, loc_of_shr_record_of_loc, shr_record_of_loc_m.
  now apply round_finish.
Qed.

(** Rounding an exact mantissa of 53 digits leaves it as it is. *)
Lemma binary_round_aux_exact (m : positive) (e : Z) :
  Zpos (digits2_pos m) = 53 -> -1074 <= e <= 970 ->
  binary_round_aux 53 1024 false (Zpos m) e loc_Exact = S754_finite false m e.
Proof.
  intros Hd He. unfold binary_round_aux.
  assert (Hfirst : shr_fexp 53 1024 (Zpos m) e loc_Exact =
                   (shr_record_of_loc (Zpos m) loc_Exact, e)).
  { unfold shr_fexp. cbn [Zdigits2]. rewrite Hd, fexp_normal by lia.
    replace (53 + e - 53 - e) with 0 by lia. reflexivity. }
  rewrite Hfirst. cbn [shr_record_of_loc loc_of_shr_record shr_m round_nearest_even].
  rewrite Hfirst. cbn [shr_record_of_loc shr_m].
  now replace (e <=? 1024 - 53) with true by (symmetry; apply Z.leb_le; lia).
Qed.

(** Rounding a mantissa of 54 digits: its half or the successor of its half,
    one exponent higher. *)
Lemma binary_round_aux_54 (m : positive) (e : Z) (l : location) :
  Zpos (digits2_pos m) = 54 -> -1074 <= e <= 969 ->
  exists M E,
    binary_round_aux 53 1024 false (Zpos m) e l = S754_finite false M E /\
    (Zpos M * 2 ^ (E - (e + 1)) = Zpos m / 2 \/
     Zpos M * 2 ^ (E - (e + 1)) = Zpos m / 2 + 1) /\
    e + 1 <= E <= e + 2.
Proof.
  intros Hd He. unfold binary_round_aux.
  assert (Hhalf : exists p r s,
             shr_fexp 53 1024 (Zpos m) e l = (Build_shr_record (Zpos p) r s, e + 1) /\
             Zpos m / 2 = Zpos p /\ Zpos (digits2_pos p) = 53).
  { unfold shr_fexp. cbn [Zdigits2]. rewrite Hd, fexp_normal by lia.
    replace (54 + e - 53 - e) with 1 by lia. cbn [shr iter_pos].
    destruct m as [p|p|]; [| |discriminate Hd].
    - exists p. destruct l as [|[| |]]; do 2 eexists;
        (split; [reflexivity|]); split;
        try (rewrite Pos2Z.inj_xI, Z.mul_comm, Z.div_add_l by lia; reflexivity);
        cbn [digits2_pos] in Hd; lia.
    - exists p. destruct l as [|[| |]]; do 2 eexists;
        (split; [reflexivity|]); split;
        try (rewrite Pos2Z.inj_xO, Z.mul_comm, Z.div_mul by lia; reflexivity);
        cbn [digits2_pos] in Hd; lia. }
  destruct Hhalf as (p & r & s & Hshift & Hdiv & Hdp).
  rewrite Hshift, Hdiv. cbn [shr_m].
  destruct (round_finish p (e + 1)
              (loc_of_shr_record (Build_shr_record (Zpos p) r s)) Hdp ltac:(lia))
    as (M & E & Hres & Hval & HE).
  exists M, E. split; [exact Hres|]. split; [exact Hval | lia].
Qed.

Lemma iter_xO_value (p k : positive) :
  Zpos (Pos.iter xO p k) = Zpos p * 2 ^ Zpos k.
Proof.
  induction k as [|k IH] using Pos.peano_ind.
  - simpl. lia.
  - rewrite Pos.iter_succ, Pos2Z.inj_xO, IH, Pos2Z.inj_succ, Z.pow_succ_r by lia. lia.
Qed.

(** The conversion of an integer below [2^53] is exact, with a mantissa of
    53 digits. *)
Lemma of_Z_normal (c : Z) :
  1 <= c < 2 ^ 53 ->
  exists m e,
    B64.of_Z c = S754_finite false m e /\
    Zpos (digits2_pos m) = 53 /\ -52 <= e <= 0 /\ Zpos m = c * 2 ^ (- e).
Proof.
  intros Hc. destruct c as [|p|p]; try lia.
  unfold B64.of_Z, B64.prec, B64.emax, binary_normalize, binary_round.
  pose proof (digits2_pos_upper p) as Hu. pose proof (digits2_pos_lower p) as Hl.
  set (d := Zpos (digits2_pos p)) in *.
  assert (Hd : 1 <= d <= 53).
  { split; [unfold d; lia|].
    destruct (Z.le_gt_cases d 53) as [|Hgt]; [assumption|].
    assert (2 ^ 53 <= 2 ^ (d - 1)) by (apply Z.pow_le_mono_r; lia). lia. }
  rewrite fexp_normal by lia.
  unfold shl_align.
  destruct (d + 0 - 53 - 0) as [|k|k] eqn:Hk; try lia.
  - rewrite binary_round_aux_exact by (fold d; lia).
    exists p, 0. repeat split; first [lia | fold d; lia].
  - assert (Hdk : Zpos (digits2_pos (Pos.iter xO p k)) = 53).
    { apply digits2_pos_unique. rewrite iter_xO_value.
      replace (53 - 1) with (d - 1 + Zpos k) by lia.
      replace 53 with (d + Zpos k) by lia.
      rewrite !Z.pow_add_r by lia.
      assert (0 < 2 ^ Zpos k) by (apply Z.pow_pos_nonneg; lia).
      split; [apply Z.mul_le_mono_nonneg_r; lia | apply Z.mul_lt_mono_pos_r; lia]. }
    rewrite binary_round_aux_exact by (assumption || lia).
    exists (Pos.iter xO p k), (d + 0 - 53). repeat split; try lia; try assumption.
    rewrite iter_xO_value. f_equal. f_equal. lia.
Qed.

Lemma SFdiv_normal (m1 m2 : positive) (e1 e2 : Z) :
  Zpos (digits2_pos m1) = 53 -> Zpos (digits2_pos m2) = 53 ->
  -52 <= e1 <= 0 -> -52 <= e2 <= 0 ->
  exists l,
    SFdiv 53 1024 (S754_finite false m1 e1) (S754_finite false m2 e2) =
    binary_round_aux 53 1024 false (Zpos m1 * 2 ^ 53 / Zpos m2) (e1 - e2 - 53) l.
Proof.
  intros Hd1 Hd2 He1 He2.
  unfold SFdiv, SFdiv_core_binary. cbn [Zdigits2 xorb]. rewrite Hd1, Hd2.
  replace (Z.min (fexp 53 1024 (53 + e1 - (53 + e2))) (e1 - e2)) with (e1 - e2 - 53)
    by (rewrite fexp_normal by lia; lia).
  replace (e1 - e2 - (e1 - e2 - 53)) with 53 by lia.
  rewrite Z.shiftl_mul_pow2 by lia.
  unfold Z.div.
  destruct (Z.div_eucl (Zpos m1 * 2 ^ 53) (Zpos m2)) as [q r].
  eexists. reflexivity.
Qed.

(** A quotient that is truncated to at least 53 digits and then moved by at
    most one unit is within [2^-52] of the exact quotient. *)
Lemma truncation_error (N D m0 V : Z) :
  0 < D -> 2 ^ 52 <= m0 -> m0 * D <= N < (m0 + 1) * D ->
  V = m0 \/ V = m0 + 1 ->
  (2 ^ 52 - 1) * N <= 2 ^ 52 * (D * V) <= (2 ^ 52 + 1) * N.
Proof.
  intros HD Hm0 HN HV.
  assert (HP : 2 ^ 52 * D <= m0 * D) by (apply Z.mul_le_mono_nonneg_r; lia).
  assert (HDV : D * V = m0 * D \/ D * V = m0 * D + D) by (destruct HV; subst V; lia).
  set (P := m0 * D) in *. set (T := 2 ^ 52) in *.
  assert (0 < T) by (unfold T; lia).
  destruct HDV as [-> | ->]; nia.
Qed.

Lemma scale_bounds (T N W P X A B : Z) :
  0 < P -> 0 < X -> N * P = A * X -> W * P = B * X ->
  (T - 1) * N <= T * W <= (T + 1) * N ->
  (T - 1) * A <= T * B /\ T * B <= (T + 1) * A.
Proof.
  intros HP HX HN HW [Hlo Hhi].
  split; apply Z.mul_le_mono_pos_r with (p := X); try assumption.
  - replace ((T - 1) * A * X) with ((T - 1) * N * P) by (rewrite <- Z.mul_assoc, HN; ring).
    replace (T * B * X) with (T * W * P) by (rewrite <- Z.mul_assoc, HW; ring).
    apply Z.mul_le_mono_nonneg_r; lia.
  - replace ((T + 1) * A * X) with ((T + 1) * N * P) by (rewrite <- Z.mul_assoc, HN; ring).
    replace (T * B * X) with (T * W * P) by (rewrite <- Z.mul_assoc, HW; ring).
    apply Z.mul_le_mono_nonneg_r; lia.
Qed.

(** The quotient of two integers below [2^53], in [float64]: a finite
    number within [2^-52] of the exact quotient, written in units of
    [2^-1074]. *)
Lemma div_of_Z_bounds (c n : Z) :
  1 <= c < 2 ^ 53 -> 1 <= n < 2 ^ 53 ->
  exists M E,
    B64.div (B64.of_Z c) (B64.of_Z n) = S754_finite false M E /\
    -1074 <= E /\
    (2 ^ 52 - 1) * (c * 2 ^ 1074) <= 2 ^ 52 * (n * (Zpos M * 2 ^ (E + 1074))) /\
    2 ^ 52 * (n * (Zpos M * 2 ^ (E + 1074))) <= (2 ^ 52 + 1) * (c * 2 ^ 1074).
Proof.
  intros Hc Hn.
  destruct (of_Z_normal c Hc) as (m1 & e1 & -> & Hd1 & He1 & Hm1).
  destruct (of_Z_normal n Hn) as (m2 & e2 & -> & Hd2 & He2 & Hm2).
  unfold B64.div, B64.prec, B64.emax.
  destruct (SFdiv_normal m1 m2 e1 e2 Hd1 Hd2 He1 He2) as [l ->].
  pose proof (digits2_pos_upper m1) as Hu1. pose proof (digits2_pos_lower m1) as Hl1.
  pose proof (digits2_pos_upper m2) as Hu2. pose proof (digits2_pos_lower m2) as Hl2.
  rewrite Hd1 in Hu1, Hl1. rewrite Hd2 in Hu2, Hl2.
  change (53 - 1) with 52 in Hl1, Hl2.
  set (N := Zpos m1 * 2 ^ 53) in *.
  set (q := N / Zpos m2) in *.
  assert (Hq : 2 ^ 52 <= q < 2 ^ 54).
  { unfold q, N. split.
    - apply Z.div_le_lower_bound; [lia|].
      change (2 ^ 53) with (2 * 2 ^ 52) in *. nia.
    - apply Z.div_lt_upper_bound; [lia|].
      change (2 ^ 54) with (2 ^ 53 * 2) in *. change (2 ^ 53) with (2 * 2 ^ 52) in *. nia. }
  assert (HqN : q * Zpos m2 <= N < (q + 1) * Zpos m2).
  { unfold q. split.
    - rewrite Z.mul_comm. apply Z.mul_div_le. lia.
    - rewrite Z.mul_comm. apply Z.mul_succ_div_gt. lia. }
  destruct q as [|qp|qp] eqn:Eq; try lia.
  assert (Hcases : exists sh M E V,
             binary_round_aux 53 1024 false (Zpos qp) (e1 - e2 - 53) l =
               S754_finite false M E /\
             0 <= sh <= 1 /\
             Zpos M * 2 ^ (E - (e1 - e2 - 53 + sh)) = V /\
             e1 - e2 - 53 + sh <= E <= e1 - e2 - 53 + sh + 1 /\
             (2 ^ 52 - 1) * N <= 2 ^ 52 * (Zpos m2 * 2 ^ sh * V) <= (2 ^ 52 + 1) * N).
  { destruct (Z.lt_ge_cases (Zpos qp) (2 ^ 53)) as [Hlt|Hge].
    - assert (Hdq : Zpos (digits2_pos qp) = 53)
        by (apply digits2_pos_unique; change (53 - 1) with 52; lia).
      destruct (binary_round_aux_53 qp (e1 - e2 - 53) l Hdq ltac:(lia))
        as (M & E & Hres & HV & HE).
      exists 0, M, E, (Zpos M * 2 ^ (E - (e1 - e2 - 53 + 0))).
      split; [exact Hres|]. split; [lia|]. split; [reflexivity|]. split; [lia|].
      rewrite Z.pow_0_r, Z.mul_1_r, Z.add_0_r.
      apply (truncation_error N (Zpos m2) (Zpos qp)); first [lia | exact HV].
    - assert (Hdq : Zpos (digits2_pos qp) = 54)
        by (apply digits2_pos_unique; change (54 - 1) with 53; lia).
      destruct (binary_round_aux_54 qp (e1 - e2 - 53) l Hdq ltac:(lia))
        as (M & E & Hres & HV & HE).
      exists 1, M, E, (Zpos M * 2 ^ (E - (e1 - e2 - 53 + 1))).
      split; [exact Hres|]. split; [lia|]. split; [reflexivity|]. split; [lia|].
      change (2 ^ 1) with 2.
      pose proof (Z.div_mod (Zpos qp) 2 ltac:(lia)) as Hdm.
      pose proof (Z.mod_pos_bound (Zpos qp) 2 ltac:(lia)) as Hmod.
      apply (truncation_error N (Zpos m2 * 2) (Zpos qp / 2)); try lia.
      set (h := Zpos qp / 2) in *. set (r := Zpos qp mod 2) in *.
      rewrite Hdm in HqN.
      assert (Hr : 0 <= r * Zpos m2 <= Zpos m2) by nia.
      lia. }
  destruct Hcases as (sh & M & E & V & Hres & Hsh & HV & HE & Hbound).
  exists M, E. split; [exact Hres|]. split; [clear - He1 He2 HE Hsh; lia|].
  apply (scale_bounds (2 ^ 52) N (Zpos m2 * 2 ^ sh * V) (2 ^ 1074) (2 ^ (53 - e1))).
  - apply Z.pow_pos_nonneg; lia.
  - apply Z.pow_pos_nonneg; lia.
  - unfold N. rewrite Hm1.
    replace (53 - e1) with (- e1 + 53) by lia. rewrite Z.pow_add_r by lia. ring.
  - subst V. rewrite Hm2.
    assert (Hpow : 2 ^ (- e2) * 2 ^ sh * 2 ^ (E - (e1 - e2 - 53 + sh)) * 2 ^ 1074 =
                   2 ^ (E + 1074) * 2 ^ (53 - e1)).
    { rewrite <- !Z.pow_add_r by lia. f_equal. lia. }
    transitivity (n * Zpos M *
                  (2 ^ (- e2) * 2 ^ sh * 2 ^ (E - (e1 - e2 - 53 + sh)) * 2 ^ 1074));
      [ring | rewrite Hpow; ring].
  - exact Hbound.
Qed.

(** ** The frequency table: the relative frequencies sum to one *)

Lemma exact_sum_ulps (l : list float) : (exact_sum l == total_ulps l # smallest)%Q.
Proof.
  unfold total_ulps. induction l as [|x l IH]; [reflexivity|].
  cbn [exact_sum fold_right map]. fold (exact_sum l). rewrite IH.
  unfold B2Q. rewrite total_cons.
  generalize smallest, (ulps x), (total (map ulps l)). intros P a b.
  unfold Qeq, Qplus. simpl. rewrite Pos2Z.inj_mul. ring.
Qed.

Lemma Qabs_near_one (P : positive) (U : Z) :
  Z.abs (U - Zpos P) * 10 ^ 9 <= Zpos P ->
  (Qabs ((U # P) - 1) <= 1 # 10 ^ 9)%Q.
Proof.
  intros HU. apply Qabs_Qle_condition.
  change (10 ^ 9) with 1000000000 in HU.
  split; unfold Qle, Qminus, Qplus, Qopp; simpl; rewrite ?Pos.mul_1_r; lia.
Qed.

Lemma total_ulps_cons (x : float) (l : list float) :
  total_ulps (x :: l) = ulps x + total_ulps l.
Proof. reflexivity. Qed.


Lemma le_total (c : Z) (l : list Z) :
  Forall (fun x => 0 <= x) l -> In c l -> c <= total l.
Proof.
  induction 1 as [|x l Hx Hl IH]; intros Hin; [contradiction|].
  rewrite total_cons. pose proof (total_nonneg l Hl).
  destruct Hin as [->|Hin]; [lia | specialize (IH Hin); lia].
Qed.

Lemma relative_positive_finite (n : Z) (cs : list Z) :
  1 <= n < 2 ^ 53 -> Forall (fun c => 1 <= c < 2 ^ 53) cs ->
  Forall positive_finite (relative_of_counts n cs).
Proof.
  intros Hn Hcs. unfold relative_of_counts. apply Forall_map.
  eapply Forall_impl; [|exact Hcs]. intros c Hc.
  destruct (div_of_Z_bounds c n Hc Hn) as (M & E & Hdiv & HE & _).
  exists M, E. split; assumption.
Qed.

Lemma div_zero_of_Z (n : Z) :
  1 <= n < 2 ^ 53 -> B64.div (B64.of_Z 0) (B64.of_Z n) = S754_zero false.
Proof.
  intros Hn. destruct (of_Z_normal n Hn) as (m & e & -> & _). reflexivity.
Qed.

Lemma relative_sum_bounds_nonneg (n : Z) (cs : list Z) :
  1 <= n < 2 ^ 53 -> Forall (fun c => 0 <= c < 2 ^ 53) cs ->
  Forall (fun x => B64.is_finite x = true) (relative_of_counts n cs) /\
  (2 ^ 52 - 1) * (total cs * 2 ^ 1074) <=
    2 ^ 52 * (n * total_ulps (relative_of_counts n cs)) /\
  2 ^ 52 * (n * total_ulps (relative_of_counts n cs)) <=
    (2 ^ 52 + 1) * (total cs * 2 ^ 1074).
Proof.
  intros Hn Hcs. induction Hcs as [|c cs Hc _ IH].
  { split; [constructor|].
    change (total []) with 0. change (total_ulps (relative_of_counts n [])) with 0.
    rewrite Z.mul_0_l, !Z.mul_0_r. split; reflexivity. }
  cbn [relative_of_counts map]. fold (relative_of_counts n cs).
  rewrite total_ulps_cons, total_cons.
  destruct IH as (IHfin & IHlo & IHhi).
  destruct (Z.eq_dec c 0) as [->|Hne].
  - rewrite div_zero_of_Z by assumption. cbn [ulps].
    split; [constructor; [reflexivity | assumption]|].
    rewrite !Z.add_0_l. split; assumption.
  - destruct (div_of_Z_bounds c n ltac:(lia) Hn) as (M & E & -> & _ & Hlo & Hhi).
    cbn [ulps].
    split; [constructor; [reflexivity | assumption]|].
    set (T := 2 ^ 52) in *. set (P := 2 ^ 1074) in *.
    set (u := Zpos M * 2 ^ (E + 1074)) in *.
    set (U := total_ulps (relative_of_counts n cs)) in *.
    split; nia.
Qed.










(** * Further properties *)

(** ** The builder: a column that is missing *)

Lemma lookup_alloc_missing (w : World) (r : ref) (name : string) :
  lookup_column name (df_columns (deref w r)) = None ->
  lookup_column name (df_columns (deref (alloc w empty_DataFrame) r)) = None.
Proof.
  intros Hnone.
  destruct (Nat.lt_ge_cases r (length (heap w))) as [Hlt|Hge].
  - now rewrite deref_alloc_old.
  - unfold deref, alloc; simpl.
    destruct (Nat.eq_dec r (length (heap w))) as [->|Hne].
    + now rewrite nth_middle.
    + rewrite nth_overflow; [reflexivity|]. rewrite length_app; simpl; lia.
Qed.

(** X1. A column name that the frame does not have: the builder raises
    [KeyError] with that name, in both modes, having created its empty
    frame and nothing else. *)
Theorem tabela_missing_column
  (w : World) (dataframe : ref) (coluna : string) (coluna_frequencia : bool) :
  lookup_column coluna (df_columns (deref w dataframe)) = None ->
  tabela_distribuicao_frequencias dataframe coluna coluna_frequencia w =
  (inl (KeyError coluna), alloc w empty_DataFrame).
Proof.
  intros Hnone. apply lookup_alloc_missing in Hnone.
  unfold tabela_distribuicao_frequencias, bind, new_DataFrame, getitem.
  destruct coluna_frequencia; now rewrite Hnone.
Qed.

Lemma tabela_missing_column_witness :
  tabela_distribuicao_frequencias 0%nat "y" false
    (one_column_world "x" (Int64 [1; 2])) =
  (inl (KeyError "y"), alloc (one_column_world "x" (Int64 [1; 2])) empty_DataFrame).
Proof.
  apply (tabela_missing_column (one_column_world "x" (Int64 [1; 2])) 0%nat "y" false).
  reflexivity.
Defined.

(** ** The builder: the rows of the table of observations *)

Lemma label_lt_map_fst {A : Type} (r : list (label * A)) :
  StronglySorted label_lt r -> StronglySorted Z.lt (map fst r).
Proof.
  induction 1 as [|x r Hr IH Hx]; simpl; constructor; [assumption|].
  apply Forall_map. exact Hx.
Qed.

(** X2. In raw-observation mode the table has one row per distinct value
    of the column, in strictly increasing order of the values, and the
    frequency of a row is the number of occurrences of its value. *)
Theorem raw_mode_rows
  (w : World) (dataframe : ref) (coluna : string) (v : list Z) :
  lookup_column coluna (df_columns (deref w dataframe)) = Some (Int64 v) ->
  exists t w',
    tabela_distribuicao_frequencias dataframe coluna false w = (inr t, w') /\
    let T := deref w' t in
    StronglySorted Z.lt (df_index T) /\
    forall k c, In (k, c) (combine (df_index T) (int_column T "frequencia")) <->
                In k v /\ c = count k v.
Proof.
  intros Hcol.
  exists (length (heap w)), (alloc w (raw_table v)).
  split; [now apply tabela_raw_mode|].
  rewrite deref_alloc_new.
  unfold raw_table, frequency_table, int_column.
  cbn [lookup_column df_columns df_index String.eqb Ascii.eqb Bool.eqb].
  destruct (sorted_counts_spec v) as [Hsorted Hrows].
  split; [now apply label_lt_map_fst|].
  intros k c. rewrite combine_fst_snd. apply Hrows.
Qed.

Lemma raw_mode_rows_witness :
  exists t w',
    tabela_distribuicao_frequencias 0%nat "x" false
      (one_column_world "x" (Int64 [3; 1; 3; 2; 3])) = (inr t, w') /\
    let T := deref w' t in
    StronglySorted Z.lt (df_index T) /\
    forall k c, In (k, c) (combine (df_index T) (int_column T "frequencia")) <->
                In k [3; 1; 3; 2; 3] /\ c = count k [3; 1; 3; 2; 3].
Proof.
  apply (raw_mode_rows (one_column_world "x" (Int64 [3; 1; 3; 2; 3])) 0%nat "x").
  reflexivity.
Defined.

(** ** [int64] sums modulo [2^64] *)

Lemma cumsum_int_from_nth (l : list Z) (a : Z) (i : nat) :
  (i < length l)%nat ->
  nth_error (cumsum_int_from (wrap64 a) l) i = Some (wrap64 (a + total (firstn (S i) l))).
Proof.
  revert a i; induction l as [|x l IH]; intros a i Hi; simpl in Hi; [lia|].
  cbn [cumsum_int_from]. rewrite wrap64_add_l.
  destruct i as [|i].
  - cbn [nth_error firstn]. rewrite total_cons. simpl total. do 2 f_equal. lia.
  - cbn [nth_error]. rewrite IH by lia.
    change (firstn (S (S i)) (x :: l)) with (x :: firstn (S i) l).
    rewrite total_cons. do 2 f_equal. lia.
Qed.

Lemma np_cumsum_int_nth (l : list Z) (i : nat) :
  Forall int64_range l -> (i < length l)%nat ->
  nth_error (np_cumsum_int l) i = Some (wrap64 (total (firstn (S i) l))).
Proof.
  intros Hl Hi. destruct Hl as [|x l Hx Hl]; [simpl in Hi; lia|].
  cbn [np_cumsum_int]. destruct i as [|i].
  - cbn [nth_error firstn]. rewrite total_cons. simpl total.
    rewrite Z.add_0_r. now rewrite wrap64_small.
  - cbn [nth_error]. rewrite <- (wrap64_small x Hx) at 1.
    simpl in Hi. rewrite cumsum_int_from_nth by lia.
    change (firstn (S (S i)) (x :: l)) with (x :: firstn (S i) l).
    now rewrite total_cons.
Qed.

Lemma last_nth_error {A : Type} (l : list A) (d x : A) :
  nth_error l (pred (length l)) = Some x -> l <> [] -> last l d = x.
Proof.
  induction l as [|a l IH]; intros Hn Hne; [congruence|].
  destruct l as [|b l]; [simpl in *; congruence|].
  change (last (a :: b :: l) d) with (last (b :: l) d).
  apply IH; [exact Hn | discriminate].
Qed.

(** X3. Row [i] of the cumulative frequencies is the sum of the first
    [i + 1] frequencies reduced to [int64], and the last row is
    [Series.sum()] of the frequencies, in both modes and also when the sums
    overflow. *)
Theorem cumulative_frequency_prefix_sums
  (w : World) (dataframe : ref) (coluna : string) (coluna_frequencia : bool)
  (v : list Z) :
  lookup_column coluna (df_columns (deref w dataframe)) = Some (Int64 v) ->
  exists t w',
    tabela_distribuicao_frequencias dataframe coluna coluna_frequencia w = (inr t, w') /\
    let freq := int_column (deref w' t) "frequencia" in
    let acc := int_column (deref w' t) "frequencia_acumulada" in
    length acc = length freq /\
    (Forall int64_range freq ->
     (forall i, (i < length freq)%nat ->
        nth_error acc i = Some (wrap64 (total (firstn (S i) freq)))) /\
     (freq <> [] -> last acc 0 = sum_int64 freq)).
Proof.
  intros Hcol.
  assert (Hgen : forall idx freq rel,
            let T := frequency_table idx freq rel in
            length (int_column T "frequencia_acumulada") =
              length (int_column T "frequencia") /\
            (Forall int64_range (int_column T "frequencia") ->
             (forall i, (i < length (int_column T "frequencia"))%nat ->
                nth_error (int_column T "frequencia_acumulada") i =
                Some (wrap64 (total (firstn (S i) (int_column T "frequencia"))))) /\
             (int_column T "frequencia" <> [] ->
              last (int_column T "frequencia_acumulada") 0 =
              sum_int64 (int_column T "frequencia")))).
  { intros idx freq rel. unfold frequency_table, int_column.
    cbn [lookup_column df_columns df_index String.eqb Ascii.eqb Bool.eqb].
    split; [apply np_cumsum_int_length|].
    intros Hrange. split; [intros i Hi; now apply np_cumsum_int_nth|].
    intros Hne. apply last_nth_error.
    - rewrite np_cumsum_int_length, np_cumsum_int_nth; try assumption.
      + rewrite sum_int64_wrap.
        replace (S (pred (length freq))) with (length freq)
          by (destruct freq; [congruence | simpl; lia]).
        now rewrite firstn_all.
      + destruct freq; [congruence | simpl; lia].
    - intros Hnil. apply (f_equal (@length Z)) in Hnil.
      rewrite np_cumsum_int_length in Hnil. destruct freq; [congruence | discriminate]. }
  destruct coluna_frequencia.
  - exists (length (heap w)), (alloc w (count_table (df_index (deref w dataframe)) v)).
    split; [now apply tabela_count_mode|].
    rewrite deref_alloc_new. apply Hgen.
  - exists (length (heap w)), (alloc w (raw_table v)).
    split; [now apply tabela_raw_mode|].
    rewrite deref_alloc_new. apply Hgen.
Qed.

Lemma cumulative_frequency_prefix_sums_witness :
  exists t w',
    tabela_distribuicao_frequencias 0%nat "n" true
      (one_column_world "n" (Int64 [2 ^ 62; 2 ^ 62; 5])) = (inr t, w') /\
    int_column (deref w' t) "frequencia_acumulada" =
      [2 ^ 62; - 2 ^ 63; - 2 ^ 63 + 5] /\
    last (int_column (deref w' t) "frequencia_acumulada") 0 =
      sum_int64 (int_column (deref w' t) "frequencia").
Proof.
  destruct (cumulative_frequency_prefix_sums
              (one_column_world "n" (Int64 [2 ^ 62; 2 ^ 62; 5])) 0%nat "n" true
              [2 ^ 62; 2 ^ 62; 5] eq_refl) as (t & w' & Hrun & _ & Hsums).
  exists t, w'. split; [exact Hrun|].
  vm_compute in Hrun. injection Hrun as <- <-.
  split; [reflexivity|].
  apply Hsums; [|discriminate].
  repeat constructor; unfold int64_range; cbn; lia.
Defined.

(** ** The builder: the order of the observations *)

Lemma count_permutation (k : Z) (v1 v2 : list Z) :
  Permutation v1 v2 -> count k v1 = count k v2.
Proof.
  induction 1 as [|x l1 l2 _ IH|x y l|l1 l2 l3 _ IH1 _ IH2];
    rewrite ?count_cons; lia.
Qed.

Lemma sorted_counts_permutation_invariant (v1 v2 : list Z) :
  Permutation v1 v2 -> sorted_counts v1 = sorted_counts v2.
Proof.
  intros Hperm.
  destruct (sorted_counts_spec v1) as [Hs1 Hr1].
  destruct (sorted_counts_spec v2) as [Hs2 Hr2].
  apply sorted_unique; try assumption.
  intros [k c]. rewrite Hr1, Hr2, (count_permutation k v1 v2 Hperm).
  split; intros [Hin Hc]; (split; [|exact Hc]).
  - now apply (Permutation_in _ Hperm).
  - now apply (Permutation_in _ (Permutation_sym Hperm)).
Qed.

Lemma raw_table_permutation (v1 v2 : list Z) :
  Permutation v1 v2 -> raw_table v1 = raw_table v2.
Proof.
  intros Hperm. unfold raw_table.
  rewrite (sorted_counts_permutation_invariant v1 v2 Hperm).
  rewrite !sum_int64_wrap, !total_sort_values.
  now rewrite (Permutation_length Hperm).
Qed.

(** X4. In raw-observation mode the table depends on the observations and
    not on their order: two columns that hold the same observations in a
    different order give the same table. *)
Theorem raw_mode_ignores_order
  (w1 w2 : World) (d1 d2 : ref) (c1 c2 : string) (v1 v2 : list Z) :
  lookup_column c1 (df_columns (deref w1 d1)) = Some (Int64 v1) ->
  lookup_column c2 (df_columns (deref w2 d2)) = Some (Int64 v2) ->
  Permutation v1 v2 ->
  exists t1 w1' t2 w2',
    tabela_distribuicao_frequencias d1 c1 false w1 = (inr t1, w1') /\
    tabela_distribuicao_frequencias d2 c2 false w2 = (inr t2, w2') /\
    deref w1' t1 = deref w2' t2.
Proof.
  intros H1 H2 Hperm.
  exists (length (heap w1)), (alloc w1 (raw_table v1)),
    (length (heap w2)), (alloc w2 (raw_table v2)).
  split; [now apply tabela_raw_mode|]. split; [now apply tabela_raw_mode|].
  rewrite !deref_alloc_new. now apply raw_table_permutation.
Qed.

Lemma raw_mode_ignores_order_witness :
  exists t1 w1' t2 w2',
    tabela_distribuicao_frequencias 0%nat "x" false
      (one_column_world "x" (Int64 [2; 1; 1; 3])) = (inr t1, w1') /\
    tabela_distribuicao_frequencias 0%nat "y" false
      (one_column_world "y" (Int64 [1; 2; 1; 3])) = (inr t2, w2') /\
    deref w1' t1 = deref w2' t2.
Proof.
  apply (raw_mode_ignores_order
           (one_column_world "x" (Int64 [2; 1; 1; 3]))
           (one_column_world "y" (Int64 [1; 2; 1; 3])) 0%nat 0%nat "x" "y"
           [2; 1; 1; 3] [1; 2; 1; 3]); try reflexivity.
  apply perm_swap.
Defined.

(** ** The builder: the shape of the table *)

Lemma lookup_column_length (df : DataFrame) (name : string) (c : column) :
  wf_DataFrame df -> lookup_column name (df_columns df) = Some c ->
  column_length c = length (df_index df).
Proof.
  unfold wf_DataFrame; intros Hwf Hcol.
  destruct (lookup_column_In _ _ _ Hcol) as [n Hn].
  rewrite Forall_forall in Hwf. exact (Hwf _ Hn).
Qed.

Lemma frequency_table_wf (idx : list label) (freq : list Z) (rel : list float) :
  length freq = length idx -> length rel = length idx ->
  wf_DataFrame (frequency_table idx freq rel).
Proof.
  intros Hf Hr. unfold wf_DataFrame, frequency_table.
  cbn [df_columns df_index].
  repeat constructor; cbn [snd column_length];
    rewrite ?np_cumsum_int_length, ?na_cumsum_length; assumption.
Qed.

(** X5. The table has the four columns [frequencia],
    [frequencia_relativa], [frequencia_acumulada] and
    [frequencia_relativa_acumulada], in this order, each with one value per
    row; in raw-count mode the rows are the rows of the caller. *)
Theorem table_has_four_aligned_columns
  (w : World) (dataframe : ref) (coluna : string) (coluna_frequencia : bool)
  (v : list Z) :
  wf_DataFrame (deref w dataframe) ->
  lookup_column coluna (df_columns (deref w dataframe)) = Some (Int64 v) ->
  exists t w',
    tabela_distribuicao_frequencias dataframe coluna coluna_frequencia w = (inr t, w') /\
    map fst (df_columns (deref w' t)) =
      ["frequencia"; "frequencia_relativa"; "frequencia_acumulada";
       "frequencia_relativa_acumulada"]%string /\
    wf_DataFrame (deref w' t) /\
    (coluna_frequencia = true ->
     df_index (deref w' t) = df_index (deref w dataframe) /\
     length (df_index (deref w' t)) = length v).
Proof.
  intros Hwf Hcol. destruct coluna_frequencia.
  - exists (length (heap w)), (alloc w (count_table (df_index (deref w dataframe)) v)).
    split; [now apply tabela_count_mode|].
    rewrite deref_alloc_new.
    pose proof (lookup_column_length _ _ _ Hwf Hcol) as Hlen. simpl in Hlen.
    split; [reflexivity|]. split.
    + apply frequency_table_wf; [assumption|].
      unfold relative_of_counts. now rewrite length_map.
    + intros _. split; [reflexivity | now symmetry].
  - exists (length (heap w)), (alloc w (raw_table v)).
    split; [now apply tabela_raw_mode|].
    rewrite deref_alloc_new.
    split; [reflexivity|]. split; [|discriminate].
    apply frequency_table_wf; unfold relative_of_counts; now rewrite !length_map.
Qed.

Lemma table_has_four_aligned_columns_witness :
  exists t w',
    tabela_distribuicao_frequencias 0%nat "n" true
      (one_column_world "n" (Int64 [4; 0; 6])) = (inr t, w') /\
    map fst (df_columns (deref w' t)) =
      ["frequencia"; "frequencia_relativa"; "frequencia_acumulada";
       "frequencia_relativa_acumulada"]%string /\
    wf_DataFrame (deref w' t) /\
    (true = true ->
     df_index (deref w' t) = df_index (deref (one_column_world "n" (Int64 [4; 0; 6])) 0%nat) /\
     length (df_index (deref w' t)) = length [4; 0; 6]).
Proof.
  apply (table_has_four_aligned_columns (one_column_world "n" (Int64 [4; 0; 6]))
           0%nat "n" true [4; 0; 6]).
  - repeat constructor.
  - reflexivity.
Defined.

(** ** The builder: counting the observations *)

Lemma cumsum_int_from_increasing (l : list Z) (acc : Z) :
  Forall (fun x => 1 <= x) l -> 0 <= acc -> acc + total l < 2 ^ 63 ->
  StronglySorted Z.lt (cumsum_int_from acc l) /\
  Forall (fun y => acc < y) (cumsum_int_from acc l).
Proof.
  intros Hl; revert acc.
  induction Hl as [|x l Hx Hl IH]; intros acc Hacc Hsum; [split; constructor|].
  cbn [cumsum_int_from]. rewrite total_cons in Hsum.
  assert (Ht : 0 <= total l).
  { apply total_nonneg. eapply Forall_impl; [|exact Hl]. simpl; intros; lia. }
  rewrite wrap64_small by (unfold int64_range; lia).
  destruct (IH (acc + x)) as [Hsorted Hall]; [lia | lia |].
  split.
  - constructor; assumption.
  - constructor; [lia|]. eapply Forall_impl; [|exact Hall]. simpl; intros; lia.
Qed.

Lemma np_cumsum_int_increasing (l : list Z) :
  Forall (fun x => 1 <= x) l -> total l < 2 ^ 63 ->
  StronglySorted Z.lt (np_cumsum_int l).
Proof.
  intros Hl Hsum. destruct Hl as [|x l Hx Hl]; [constructor|].
  cbn [np_cumsum_int]. rewrite total_cons in Hsum.
  destruct (cumsum_int_from_increasing l x Hl) as [Hsorted Hall]; [lia | lia |].
  constructor; assumption.
Qed.

(** X6. In raw-observation mode every frequency is at least 1, the
    frequencies add up to the number of observations, and the cumulative
    frequencies increase strictly up to that number. *)
Theorem raw_mode_counts_every_observation
  (w : World) (dataframe : ref) (coluna : string) (v : list Z) :
  lookup_column coluna (df_columns (deref w dataframe)) = Some (Int64 v) ->
  Z.of_nat (length v) < 2 ^ 63 ->
  exists t w',
    tabela_distribuicao_frequencias dataframe coluna false w = (inr t, w') /\
    let freq := int_column (deref w' t) "frequencia" in
    let acc := int_column (deref w' t) "frequencia_acumulada" in
    Forall (fun c => 1 <= c) freq /\
    total freq = Z.of_nat (length v) /\
    StronglySorted Z.lt acc /\
    (v <> [] -> last acc 0 = Z.of_nat (length v)).
Proof.
  intros Hcol Hlen.
  exists (length (heap w)), (alloc w (raw_table v)).
  split; [now apply tabela_raw_mode|].
  rewrite deref_alloc_new.
  unfold raw_table, frequency_table, int_column.
  cbn [lookup_column df_columns df_index String.eqb Ascii.eqb Bool.eqb].
  pose proof (sorted_counts_positive v) as Hpos.
  pose proof (total_sorted_counts v) as Htot.
  split; [exact Hpos|]. split; [exact Htot|].
  split; [apply np_cumsum_int_increasing; [exact Hpos | now rewrite Htot]|].
  intros _. rewrite <- Htot.
  apply np_cumsum_int_exact; [|now rewrite Htot].
  eapply Forall_impl; [|exact Hpos]. simpl; intros; lia.
Qed.

Lemma raw_mode_counts_every_observation_witness :
  exists t w',
    tabela_distribuicao_frequencias 0%nat "x" false
      (one_column_world "x" (Int64 [7; 7; 5; 7])) = (inr t, w') /\
    let freq := int_column (deref w' t) "frequencia" in
    let acc := int_column (deref w' t) "frequencia_acumulada" in
    Forall (fun c => 1 <= c) freq /\
    total freq = Z.of_nat (length [7; 7; 5; 7]) /\
    StronglySorted Z.lt acc /\
    ([7; 7; 5; 7] <> [] -> last acc 0 = Z.of_nat (length [7; 7; 5; 7])).
Proof.
  apply (raw_mode_counts_every_observation
           (one_column_world "x" (Int64 [7; 7; 5; 7])) 0%nat "x" [7; 7; 5; 7]).
  - reflexivity.
  - simpl. lia.
Defined.

(** ** The builder: relative frequencies of supplied counts *)

(** X7. In raw-count mode, with non-negative frequencies whose total is
    positive and below [2^53], every relative frequency is a finite double
    and their sum, taken exactly, is within [1e-9] of 1. *)
Theorem count_mode_relative_sum_near_one
  (w : World) (dataframe : ref) (coluna : string) (v : list Z) :
  lookup_column coluna (df_columns (deref w dataframe)) = Some (Int64 v) ->
  Forall (fun x => 0 <= x) v -> 0 < total v < 2 ^ 53 ->
  exists t w',
    tabela_distribuicao_frequencias dataframe coluna true w = (inr t, w') /\
    Forall (fun x => B64.is_finite x = true)
      (float_column (deref w' t) "frequencia_relativa") /\
    (Qabs (exact_sum (float_column (deref w' t) "frequencia_relativa") - 1)
     <= 1 # 10 ^ 9)%Q.
Proof.
  intros Hcol Hpos Hsum.
  exists (length (heap w)), (alloc w (count_table (df_index (deref w dataframe)) v)).
  split; [now apply tabela_count_mode|].
  rewrite deref_alloc_new.
  unfold count_table, frequency_table, float_column.
  cbn [lookup_column df_columns df_index String.eqb Ascii.eqb Bool.eqb].
  rewrite sum_int64_exact by (try assumption; change (2 ^ 63) with (2 ^ 53 * 1024); lia).
  set (n := total v) in *.
  assert (Hn : 1 <= n < 2 ^ 53) by lia.
  assert (Hcs : Forall (fun c => 0 <= c < 2 ^ 53) v).
  { rewrite Forall_forall in *. intros c Hc. split; [now apply Hpos|].
    assert (c <= total v) by (apply le_total; [now apply Forall_forall | assumption]).
    fold n in H. lia. }
  destruct (relative_sum_bounds_nonneg n v Hn Hcs) as (Hfin & Hlo & Hhi).
  split; [exact Hfin|].
  fold n in Hlo, Hhi.
  rewrite exact_sum_ulps. apply Qabs_near_one.
  change (Zpos smallest) with (2 ^ 1074).
  set (U := total_ulps (relative_of_counts n v)) in *.
  set (P := 2 ^ 1074) in *.
  assert (HP : 0 < P) by (unfold P; apply Z.pow_pos_nonneg; lia).
  change (2 ^ 52) with 4503599627370496 in *. change (10 ^ 9) with 1000000000.
  assert (Hlo' : 4503599627370495 * P <= 4503599627370496 * U) by nia.
  assert (Hhi' : 4503599627370496 * U <= 4503599627370497 * P) by nia.
  lia.
Qed.

Lemma count_mode_relative_sum_near_one_witness :
  exists t w',
    tabela_distribuicao_frequencias 0%nat "n" true
      (one_column_world "n" (Int64 [3; 0; 4])) = (inr t, w') /\
    Forall (fun x => B64.is_finite x = true)
      (float_column (deref w' t) "frequencia_relativa") /\
    (Qabs (exact_sum (float_column (deref w' t) "frequencia_relativa") - 1)
     <= 1 # 10 ^ 9)%Q.
Proof.
  apply (count_mode_relative_sum_near_one
           (one_column_world "n" (Int64 [3; 0; 4])) 0%nat "n" [3; 0; 4]).
  - reflexivity.
  - repeat constructor; lia.
  - simpl. lia.
Defined.

(** ** The builder: calling it twice *)

(** X8. Two calls in a row on the same input give two distinct new frames
    with the same contents; the second call changes neither the input nor
    the table of the first. *)
Theorem tabela_twice
  (w : World) (dataframe : ref) (coluna : string) (coluna_frequencia : bool)
  (v : list Z) :
  lookup_column coluna (df_columns (deref w dataframe)) = Some (Int64 v) ->
  exists t1 w1 t2 w2,
    tabela_distribuicao_frequencias dataframe coluna coluna_frequencia w = (inr t1, w1) /\
    tabela_distribuicao_frequencias dataframe coluna coluna_frequencia w1 = (inr t2, w2) /\
    t1 <> t2 /\ t1 <> dataframe /\ t2 <> dataframe /\
    deref w2 t2 = deref w1 t1 /\
    deref w2 t1 = deref w1 t1 /\
    deref w2 dataframe = deref w dataframe.
Proof.
  intros Hcol. pose proof (lookup_allocated _ _ _ _ Hcol) as Hr.
  unfold allocated in Hr.
  assert (Hgen : forall T : DataFrame,
            tabela_distribuicao_frequencias dataframe coluna coluna_frequencia w =
              (inr (length (heap w)), alloc w T) ->
            (forall w0, lookup_column coluna (df_columns (deref w0 dataframe)) = Some (Int64 v) ->
               df_index (deref w0 dataframe) = df_index (deref w dataframe) ->
               tabela_distribuicao_frequencias dataframe coluna coluna_frequencia w0 =
                 (inr (length (heap w0)), alloc w0 T)) ->
            exists t1 w1 t2 w2,
              tabela_distribuicao_frequencias dataframe coluna coluna_frequencia w =
                (inr t1, w1) /\
              tabela_distribuicao_frequencias dataframe coluna coluna_frequencia w1 =
                (inr t2, w2) /\
              t1 <> t2 /\ t1 <> dataframe /\ t2 <> dataframe /\
              deref w2 t2 = deref w1 t1 /\ deref w2 t1 = deref w1 t1 /\
              deref w2 dataframe = deref w dataframe).
  { intros T H1 H2.
    assert (Hsame : deref (alloc w T) dataframe = deref w dataframe)
      by (apply deref_alloc_old; exact Hr).
    exists (length (heap w)), (alloc w T),
      (length (heap (alloc w T))), (alloc (alloc w T) T).
    split; [exact H1|].
    split; [apply H2; rewrite Hsame; [exact Hcol | reflexivity]|].
    assert (Hlen : length (heap (alloc w T)) = S (length (heap w)))
      by (unfold alloc; simpl; rewrite length_app; simpl; lia).
    split; [lia|]. split; [lia|]. split; [lia|].
    rewrite !deref_alloc_new.
    split; [reflexivity|].
    split; [rewrite deref_alloc_old by (unfold allocated; lia); apply deref_alloc_new|].
    rewrite deref_alloc_old by (unfold allocated; lia). exact Hsame. }
  destruct coluna_frequencia.
  - apply (Hgen (count_table (df_index (deref w dataframe)) v)).
    + now apply tabela_count_mode.
    + intros w0 H0 Hidx. rewrite <- Hidx. now apply tabela_count_mode.
  - apply (Hgen (raw_table v)).
    + now apply tabela_raw_mode.
    + intros w0 H0 _. now apply tabela_raw_mode.
Qed.

Lemma tabela_twice_witness :
  exists t1 w1 t2 w2,
    tabela_distribuicao_frequencias 0%nat "x" false
      (one_column_world "x" (Int64 [1; 1; 2])) = (inr t1, w1) /\
    tabela_distribuicao_frequencias 0%nat "x" false w1 = (inr t2, w2) /\
    t1 <> t2 /\ t1 <> 0%nat /\ t2 <> 0%nat /\
    deref w2 t2 = deref w1 t1 /\
    deref w2 t1 = deref w1 t1 /\
    deref w2 0%nat = deref (one_column_world "x" (Int64 [1; 1; 2])) 0%nat.
Proof.
  apply (tabela_twice (one_column_world "x" (Int64 [1; 1; 2])) 0%nat "x" false [1; 1; 2]).
  reflexivity.
Defined.

(** ** The builder: what it leaves alone *)

Lemma quiet_ret {A : Type} (a : A) : quiet (ret a).
Proof. intros w; simpl; auto. Qed.

Lemma quiet_lift {A : Type} (r : result A) : quiet (lift r).
Proof. intros w; simpl; auto. Qed.

Lemma quiet_getitem (r : ref) (name : string) : quiet (getitem r name).
Proof.
  intros w. unfold getitem.
  destruct (lookup_column name (df_columns (deref w r))); simpl; auto.
Qed.

Lemma quiet_setitem (r : ref) (name : string) (s : Series) : quiet (setitem r name s).
Proof.
  intros w. unfold setitem.
  destruct (frame_setitem name s (deref w r)); simpl; auto.
  now rewrite update_nth_length.
Qed.

Lemma quiet_bind {A B : Type} (m : M A) (k : A -> M B) :
  quiet m -> (forall a, quiet (k a)) -> quiet (bind m k).
Proof.
  intros Hm Hk w. unfold bind.
  destruct (Hm w) as (Hs & Hf & Hl).
  destruct (m w) as [[e|a] w1]; simpl in *; [auto|].
  destruct (Hk a w1) as (Hs' & Hf' & Hl').
  repeat split; congruence.
Qed.

Create HintDb quiet.

#[local] Hint Resolve quiet_ret quiet_lift quiet_getitem quiet_setitem : quiet.

Ltac quiet_step :=
  repeat first
    [ apply quiet_bind; [solve [auto with quiet]|]; intros ?
    | apply quiet_bind; [|intros ?]
    | match goal with
      | |- quiet (if ?b then _ else _) => destruct b
      end
    | solve [auto with quiet] ].

Lemma heap_grows_by_one (h h' : list DataFrame) :
  length h' = S (length h) ->
  (forall r, (r < length h)%nat -> nth r h' empty_DataFrame = nth r h empty_DataFrame) ->
  exists T, h' = h ++ [T].
Proof.
  intros Hlen Hsame.
  exists (nth (length h) h' empty_DataFrame).
  apply (nth_ext _ _ empty_DataFrame empty_DataFrame).
  - rewrite length_app. simpl. lia.
  - intros n Hn. destruct (Nat.lt_ge_cases n (length h)) as [Hlt|Hge].
    + rewrite app_nth1 by assumption. now apply Hsame.
    + assert (n = length h) by lia. subst n. now rewrite nth_middle.
Qed.

Lemma quiet_after_new_DataFrame {B : Type} (k : ref -> M B) (w : World) :
  (forall r, quiet (k r)) ->
  stdout (snd (bind new_DataFrame k w)) = stdout w /\
  figure (snd (bind new_DataFrame k w)) = figure w /\
  length (heap (snd (bind new_DataFrame k w))) = S (length (heap w)).
Proof.
  intros Hk. unfold bind, new_DataFrame.
  destruct (Hk (length (heap w)) (alloc w empty_DataFrame)) as (Hs & Hf & Hl).
  rewrite Hs, Hf, Hl. unfold alloc; simpl. rewrite length_app; simpl.
  repeat split; lia.
Qed.

(** X9. Whether it returns or raises, the builder prints nothing, draws
    nothing, and changes the store in one way only: it adds one frame, its
    own, after the frames that exist. *)
Theorem tabela_only_allocates
  (w : World) (dataframe : ref) (coluna : string) (coluna_frequencia : bool) :
  let w' := snd (tabela_distribuicao_frequencias dataframe coluna coluna_frequencia w) in
  stdout w' = stdout w /\ figure w' = figure w /\
  exists T, heap w' = heap w ++ [T].
Proof.
  intros w'.
  destruct (preserves_tabela (length (heap w)) dataframe coluna coluna_frequencia
              w (le_n _)) as [_ Hkeep].
  fold w' in Hkeep.
  assert (Hw' : stdout w' = stdout w /\ figure w' = figure w /\
                length (heap w') = S (length (heap w))).
  { subst w'. unfold tabela_distribuicao_frequencias.
    apply quiet_after_new_DataFrame.
    intros df_estatistica. destruct coluna_frequencia; quiet_step. }
  destruct Hw' as (Hs & Hf & Hl).
  split; [exact Hs|]. split; [exact Hf|].
  apply heap_grows_by_one; [exact Hl | exact Hkeep].
Qed.

(** ** The reporters: what they leave alone *)

Section ReporterEffects.

Context `{ScipyStats}.

(** X10. A reporter only prints: the frames and the figure are what they
    were, and the standard output is the former output followed by the
    lines of the report; so for the eight single reporters, for the
    Shapiro-Wilk reporter and for the composite one, whether they return
    or raise. *)
Theorem reporters_only_print
  (t : teste) (dataframe : ref) (alfa : float) (centro : string) (w : World) :
  only_prints (analise t dataframe alfa) w /\
  only_prints (analise_shapiro dataframe alfa) w /\
  only_prints (analises_shapiro_levene dataframe alfa centro) w.
Proof.
  assert (Hsay : forall (m : M unit) a lines,
            m w = (a, say w lines) -> only_prints m w).
  { intros m a lines Hrun. unfold only_prints.
    rewrite (printed_say _ _ _ _ Hrun), Hrun. repeat split. }
  split; [|split].
  - pose proof (analise_run t dataframe alfa w) as Hrun.
    destruct (rotina t (samples_of (deref w dataframe))); eapply Hsay; exact Hrun.
  - pose proof (analise_shapiro_run dataframe alfa w) as Hrun.
    eapply Hsay. exact Hrun.
  - pose proof (analises_shapiro_levene_run dataframe alfa centro w) as Hrun.
    destruct (fst (analise_shapiro dataframe alfa w)); eapply Hsay; exact Hrun.
Qed.

(** ** The reporters: a p-value that is not a number *)

Lemma gtb_nan (p alfa : float) :
  B64.isnan p = true \/ B64.isnan alfa = true -> B64.gtb p alfa = false.
Proof.
  intros [Hn|Hn]; apply isnan_true in Hn; subst; unfold B64.gtb, SFltb.
  - destruct alfa; reflexivity.
  - destruct p; reflexivity.
Qed.

(** When no p-value exceeds [alfa], the Shapiro-Wilk loop prints the second
    message for every column. *)
Lemma shapiro_lines_rejecting (df : DataFrame) (alfa : float) (nomes : list string) :
  (forall coluna, In coluna nomes ->
     exists r, shapiro (sample_of df coluna) "omit" = inr r /\
               B64.gtb (snd r) alfa = false) ->
  shapiro_lines df alfa nomes =
  (flat_map (fun coluna =>
     match shapiro (sample_of df coluna) "omit" with
     | inr r =>
         [debug_3f "estatistica_sw" (fst r);
          com_valor_p (coluna ++ " não segue uma distribuição normal") (snd r)]
     | inl _ => []
     end) nomes, None).
Proof.
  induction nomes as [|n nomes IH]; intros Hall; [reflexivity|].
  cbn [shapiro_lines flat_map].
  destruct (Hall n (or_introl eq_refl)) as [r [Hr Hgt]].
  rewrite Hr, IH by (intros c Hc; apply Hall; now right).
  unfold verdict. now rewrite Hgt.
Qed.

(** X11. A p-value that is NaN, or a threshold that is NaN, makes the
    comparison [p > alfa] false: the reporter prints the message of the
    rejection, with [nan] for a NaN p-value. *)
Theorem nan_is_reported_as_rejection
  (t : teste) (dataframe : ref) (alfa : float) (w : World) :
  (forall estatistica p,
     rotina t (samples_of (deref w dataframe)) = inr (estatistica, p) ->
     B64.isnan p = true \/ B64.isnan alfa = true ->
     printed (analise t dataframe alfa) w =
       [titulo t; debug_3f (nome_estatistica t) estatistica;
        com_valor_p (mensagem_rejeita t) p]) /\
  ((forall coluna, In coluna (map fst (df_columns (deref w dataframe))) ->
      exists r, shapiro (sample_of (deref w dataframe) coluna) "omit" = inr r /\
                (B64.isnan (snd r) = true \/ B64.isnan alfa = true)) ->
   printed (analise_shapiro dataframe alfa) w =
     "Teste de Shapiro-Wilk"%string ::
     flat_map (fun coluna =>
       match shapiro (sample_of (deref w dataframe) coluna) "omit" with
       | inr r =>
           [debug_3f "estatistica_sw" (fst r);
            com_valor_p (coluna ++ " não segue uma distribuição normal") (snd r)]
       | inl _ => []
       end) (map fst (df_columns (deref w dataframe)))) /\
  com_valor_p "Rejeita a hipótese nula" B64.nan =
    "Rejeita a hipótese nula (valor p: nan)"%string.
Proof.
  split; [|split; [|reflexivity]].
  - intros estatistica p Hr Hnan. apply gtb_nan in Hnan.
    pose proof (analise_run t dataframe alfa w) as Hrun.
    rewrite Hr in Hrun. rewrite (printed_say _ _ _ _ Hrun).
    unfold report, verdict. cbn [fst snd]. now rewrite Hnan.
  - intros Hall.
    pose proof (analise_shapiro_run dataframe alfa w) as Hrun.
    cbv zeta in Hrun. rewrite shapiro_lines_rejecting in Hrun.
    + exact (printed_say _ _ _ _ Hrun).
    + intros coluna Hin. destruct (Hall coluna Hin) as [r [Hr Hnan]].
      exists r. split; [exact Hr | now apply gtb_nan].
Qed.

(** ** The Shapiro-Wilk reporter: one report per column *)

Lemma shapiro_lines_app (df : DataFrame) (alfa : float) (a b : list string) :
  shapiro_lines df alfa (a ++ b) =
  match snd (shapiro_lines df alfa a) with
  | None => (fst (shapiro_lines df alfa a) ++ fst (shapiro_lines df alfa b),
             snd (shapiro_lines df alfa b))
  | Some e => (fst (shapiro_lines df alfa a), Some e)
  end.
Proof.
  induction a as [|n a IH]; [cbn; now destruct (shapiro_lines df alfa b)|].
  cbn [app shapiro_lines].
  destruct (shapiro (sample_of df n) "omit") as [e|r]; [reflexivity|].
  rewrite IH. cbn [fst snd].
  destruct (snd (shapiro_lines df alfa a)); reflexivity.
Qed.

Lemma shapiro_lines_all_return (df : DataFrame) (alfa : float) (nomes : list string) :
  (forall coluna, In coluna nomes ->
     exists r, shapiro (sample_of df coluna) "omit" = inr r) ->
  snd (shapiro_lines df alfa nomes) = None /\
  length (fst (shapiro_lines df alfa nomes)) = (2 * length nomes)%nat.
Proof.
  induction nomes as [|n nomes IH]; intros Hall; [split; reflexivity|].
  cbn [shapiro_lines].
  destruct (Hall n (or_introl eq_refl)) as [r ->].
  destruct IH as [Hnone Hlen]; [intros c Hc; apply Hall; now right|].
  cbn [fst snd length]. split; [exact Hnone | rewrite Hlen; lia].
Qed.

(** X12. When every call of [shapiro] returns, the Shapiro-Wilk reporter
    returns and prints its title and two lines for each column of the
    frame: [1 + 2 * columns] lines; on a frame without columns, the title
    alone. *)
Theorem shapiro_prints_two_lines_per_column
  (dataframe : ref) (alfa : float) (w : World) :
  (forall coluna, In coluna (map fst (df_columns (deref w dataframe))) ->
     exists r, shapiro (sample_of (deref w dataframe) coluna) "omit" = inr r) ->
  fst (analise_shapiro dataframe alfa w) = inr tt /\
  length (printed (analise_shapiro dataframe alfa) w) =
    (1 + 2 * length (df_columns (deref w dataframe)))%nat /\
  (df_columns (deref w dataframe) = [] ->
   printed (analise_shapiro dataframe alfa) w = ["Teste de Shapiro-Wilk"%string]).
Proof.
  intros Hall.
  pose proof (analise_shapiro_run dataframe alfa w) as Hrun. cbv zeta in Hrun.
  destruct (shapiro_lines_all_return (deref w dataframe) alfa _ Hall) as [Hnone Hlen].
  rewrite (printed_say _ _ _ _ Hrun), Hrun, Hnone.
  split; [reflexivity|]. split.
  - cbn [length]. rewrite Hlen, length_map. lia.
  - intros ->. reflexivity.
Qed.

(** X13. The Shapiro-Wilk reporter stops at the first column on which
    [shapiro] raises: the exception propagates, the columns before it have
    their two lines, and neither that column nor the ones after it are
    reported. *)
Theorem shapiro_stops_at_first_error
  (dataframe : ref) (alfa : float) (w : World)
  (before after : list string) (coluna : string) (e : exn) :
  map fst (df_columns (deref w dataframe)) = before ++ coluna :: after ->
  (forall c, In c before ->
     exists r, shapiro (sample_of (deref w dataframe) c) "omit" = inr r) ->
  shapiro (sample_of (deref w dataframe) coluna) "omit" = inl e ->
  fst (analise_shapiro dataframe alfa w) = inl e /\
  printed (analise_shapiro dataframe alfa) w =
    "Teste de Shapiro-Wilk"%string :: fst (shapiro_lines (deref w dataframe) alfa before) /\
  length (printed (analise_shapiro dataframe alfa) w) = (1 + 2 * length before)%nat.
Proof.
  intros Hcols Hbefore Hraise.
  pose proof (analise_shapiro_run dataframe alfa w) as Hrun. cbv zeta in Hrun.
  destruct (shapiro_lines_all_return (deref w dataframe) alfa _ Hbefore) as [Hnone Hlen].
  rewrite Hcols, shapiro_lines_app, Hnone in Hrun.
  cbn [shapiro_lines] in Hrun. rewrite Hraise in Hrun. cbn [fst snd] in Hrun.
  rewrite app_nil_r in Hrun.
  rewrite (printed_say _ _ _ _ Hrun), Hrun.
  split; [reflexivity|]. split; [reflexivity|].
  cbn [length]. rewrite Hlen. lia.
Qed.

(** ** The composite reporter: errors *)

(** X14. When the Shapiro-Wilk step raises, the composite reporter raises
    the same exception and prints what that step printed: no empty line, no
    Levene report. When the step returns, the composite reporter ends as
    the Levene reporter does, with its result or its exception. *)
Theorem composite_propagates_errors
  (dataframe : ref) (alfa : float) (centro : string) (w : World) :
  (forall e, fst (analise_shapiro dataframe alfa w) = inl e ->
     fst (analises_shapiro_levene dataframe alfa centro w) = inl e /\
     printed (analises_shapiro_levene dataframe alfa centro) w =
       printed (analise_shapiro dataframe alfa) w) /\
  (returns (analise_shapiro dataframe alfa) w ->
     fst (analises_shapiro_levene dataframe alfa centro w) =
       fst (analise_levene dataframe alfa centro w)).
Proof.
  pose proof (analises_shapiro_levene_run dataframe alfa centro w) as Hrun.
  split.
  - intros e He. rewrite He in Hrun.
    split; [now rewrite Hrun | exact (printed_say _ _ _ _ Hrun)].
  - intros [[] Hret]. rewrite Hret in Hrun. now rewrite Hrun.
Qed.

(** ** The reporters: moving the threshold *)

Lemma SFltb_SFleb_trans (a b p : float) :
  SFleb a b = true -> SFltb b p = true -> SFltb a p = true.
Proof.
  unfold SFleb, SFltb.
  destruct a as [sa|sa| |sa ma ea], b as [sb|sb| |sb mb eb], p as [sp|sp| |sp mp ep];
    cbn [SFcompare]; try discriminate; try reflexivity;
    try (destruct sa; try discriminate; try reflexivity;
         destruct sb; try discriminate; try reflexivity;
         destruct sp; try discriminate; reflexivity);
    try (destruct sa, sb; try discriminate; try reflexivity;
         destruct sp; try discriminate; reflexivity);
    try (destruct sa, sp; try discriminate; try reflexivity;
         destruct sb; try discriminate; reflexivity);
    try (destruct sb, sp; try discriminate; try reflexivity;
         destruct sa; try discriminate; reflexivity);
    try (destruct sa; discriminate || reflexivity);
    try (destruct sb; discriminate || reflexivity);
    try (destruct sp; discriminate || reflexivity).
  all: try (destruct sa, sb; discriminate || reflexivity || idtac).
  all: try (destruct sb, sp; discriminate || reflexivity || idtac).
  all: try (destruct sa, sp; discriminate || reflexivity || idtac).
  all: change (Pos.compare_cont Eq) with Pos.compare.
  all: try solve
    [ destruct sa, sb, sp; try discriminate; try reflexivity;
      destruct (Z.compare_spec ea eb), (Z.compare_spec eb ep), (Z.compare_spec ea ep);
      try discriminate; try reflexivity; try lia; subst;
      destruct (Pos.compare_spec ma mb), (Pos.compare_spec mb mp),
        (Pos.compare_spec ma mp);
      cbn [CompOpp]; try discriminate; try reflexivity; intros; lia
    | destruct sa, sb; try discriminate; try reflexivity;
      destruct (Z.compare_spec ea eb); try discriminate; try reflexivity;
      destruct (Pos.compare_spec ma mb); cbn [CompOpp]; discriminate || reflexivity
    | destruct sb, sp; try discriminate; try reflexivity;
      destruct (Z.compare_spec eb ep); try discriminate; try reflexivity;
      destruct (Pos.compare_spec mb mp); cbn [CompOpp]; discriminate || reflexivity ].
  all: destruct sp; try discriminate; try reflexivity; intros Hab Hbp;
    destruct (Z.compare_spec ea eb), (Z.compare_spec eb ep), (Z.compare_spec ea ep);
    try discriminate; try reflexivity; try lia; subst;
    destruct (Pos.compare_spec ma mb), (Pos.compare_spec mb mp),
      (Pos.compare_spec ma mp);
    cbn [CompOpp] in *; try discriminate; try reflexivity; lia.
Qed.

(** X15. The verdict is monotone in the threshold: a reporter that does
    not reject at [alfa] prints the same report at every threshold below
    [alfa], and a reporter that rejects at [alfa] rejects at every
    threshold above it. *)
Theorem verdict_is_monotone_in_alfa
  (t : teste) (dataframe : ref) (alfa alfa' : float) (w : World)
  (estatistica p : float) :
  rotina t (samples_of (deref w dataframe)) = inr (estatistica, p) ->
  float_leb alfa' alfa = true ->
  (B64.gtb p alfa = true ->
   printed (analise t dataframe alfa') w =
     [titulo t; debug_3f (nome_estatistica t) estatistica;
      com_valor_p (mensagem_nao_rejeita t) p]) /\
  (B64.gtb p alfa' = false ->
   printed (analise t dataframe alfa) w =
     [titulo t; debug_3f (nome_estatistica t) estatistica;
      com_valor_p (mensagem_rejeita t) p]).
Proof.
  intros Hr Hle.
  assert (Hout : forall a, printed (analise t dataframe a) w =
                   [titulo t; debug_3f (nome_estatistica t) estatistica;
                    if B64.gtb p a then com_valor_p (mensagem_nao_rejeita t) p
                    else com_valor_p (mensagem_rejeita t) p]).
  { intros a. pose proof (analise_run t dataframe a w) as Hrun.
    rewrite Hr in Hrun. exact (printed_say _ _ _ _ Hrun). }
  split; intros Hgt; rewrite Hout.
  - unfold B64.gtb in *. now rewrite (SFltb_SFleb_trans alfa' alfa p Hle Hgt).
  - destruct (B64.gtb p alfa) eqn:Hgt'; [|reflexivity].
    unfold B64.gtb in *.
    now rewrite (SFltb_SFleb_trans alfa' alfa p Hle Hgt') in Hgt.
Qed.

End ReporterEffects.

(** ** The composer *)

Section Composer.

Context `{Plotting}.

(** X16. The composer only draws: it leaves the frames and the standard
    output as they are and appends its calls to the figure. When it
    returns, the calls are the complete figure: the three lines stand at
    the mean, the median and the first mode that pandas gave for the
    column, and [plt.show()] comes last. When it raises, [plt.show()] was
    not called, unless it is the call that raised. *)
Theorem composicao_shows_when_it_returns
  (dataframe : ref) (coluna intervalos : string) (w : World) :
  let r := composicao_histograma_boxplot dataframe coluna intervalos w in
  heap (snd r) = heap w /\ stdout (snd r) = stdout w /\
  exists calls,
    figure (snd r) = figure w ++ calls /\
    (fst r = inr tt ->
     exists c media mediana moda modas,
       lookup_column coluna (df_columns (deref w dataframe)) = Some c /\
       series_mean (mkSeries (df_index (deref w dataframe)) c) = inr media /\
       series_median (mkSeries (df_index (deref w dataframe)) c) = inr mediana /\
       series_mode (mkSeries (df_index (deref w dataframe)) c) = inr (moda :: modas) /\
       calls = composicao_calls (deref w dataframe) coluna intervalos
                 media mediana moda) /\
    (forall e, fst r = inl e -> ~ In Show calls \/ render Show = inl e).
Proof.
  unfold composicao_histograma_boxplot. cbn [for_each].
  unfold draw, bind, plot, lift, getitem, ret.
  unfold deref. cbn [heap stdout figure fst snd].
  repeat match goal with
  | |- _ => progress cbn [heap stdout figure fst snd first_mode]
  | |- context [match render ?c with inl _ => _ | inr _ => _ end] =>
      destruct (render c) as [?|[]] eqn:?
  | |- context [match lookup_column ?n ?cols with Some _ => _ | None => _ end] =>
      destruct (lookup_column n cols) eqn:?
  | |- context [match series_mean ?s with inl _ => _ | inr _ => _ end] =>
      destruct (series_mean s) as [?|media] eqn:?
  | |- context [match series_median ?s with inl _ => _ | inr _ => _ end] =>
      destruct (series_median s) as [?|mediana] eqn:?
  | |- context [match series_mode ?s with inl _ => _ | inr _ => _ end] =>
      destruct (series_mode s) as [?|[|moda ?]] eqn:?
  end;
  (split; [reflexivity|]; split; [reflexivity|];
   rewrite <- ?app_assoc; cbn [app];
   eexists; split; [try reflexivity; symmetry; apply app_nil_r|];
   split;
   [ intros Hret;
     first
       [ discriminate Hret
       | repeat match goal with
                | Heq : Some _ = Some _ |- _ => injection Heq as <-
                end;
         do 5 eexists; split; [reflexivity|];
         split; [eassumption|]; split; [eassumption|]; split; [eassumption|];
         reflexivity ]
   | intros err Herr; try discriminate Herr;
     first
       [ left; intros Hin; cbn [In] in Hin;
         repeat (destruct Hin as [Hin|Hin]; [discriminate Hin|]); exact Hin
       | right; congruence ] ]).
Qed.

(** X17. A column without a mode, as an empty column has none: when
    drawing succeeds, the mean and the median are drawn, [mode()[0]] raises
    [KeyError], and the mode line, the legend and [plt.show()] never come. *)
Theorem composicao_without_mode
  (dataframe : ref) (coluna intervalos : string) (w : World)
  (c : column) (media mediana : float) :
  (forall call, render call = inr tt) ->
  lookup_column coluna (df_columns (deref w dataframe)) = Some c ->
  series_mean (mkSeries (df_index (deref w dataframe)) c) = inr media ->
  series_median (mkSeries (df_index (deref w dataframe)) c) = inr mediana ->
  series_mode (mkSeries (df_index (deref w dataframe)) c) = inr [] ->
  composicao_histograma_boxplot dataframe coluna intervalos w =
  (inl (KeyError "0"),
   mkWorld (heap w) (stdout w)
     (figure w ++
      [Subplots;
       Boxplot (deref w dataframe) coluna;
       Histplot (deref w dataframe) coluna intervalos;
       Grid 1; SetAxisbelow 1; Grid 2; SetAxisbelow 2;
       Axvline media "C1" "Média";
       Axvline mediana "C2" "Mediana"])).
Proof.
  intros Hrender Hcol Hmean Hmedian Hmode.
  unfold composicao_histograma_boxplot. cbn [for_each].
  unfold draw, bind, plot, lift, getitem, ret, deref in *.
  repeat progress (rewrite ?Hrender, ?Hcol, ?Hmean, ?Hmedian, ?Hmode;
                   cbn [heap stdout figure fst snd first_mode]).
  rewrite <- ?app_assoc. reflexivity.
Qed.

End Composer.

(** ** Instances of the properties of the reporters and of the composer *)

Lemma nan_is_reported_as_rejection_witness :
  printed (@analise strict_scipy Kruskal 0%nat alfa_padrao) three_samples_world =
    ["Teste de Kruskal"%string;
     "estatistica_kruskal=2.000"%string;
     "Rejeita a hipótese nula (valor p: nan)"%string].
Proof.
  destruct (@nan_is_reported_as_rejection strict_scipy Kruskal 0%nat alfa_padrao
              three_samples_world) as [Hone _].
  rewrite (Hone (B64.of_Z 2) B64.nan eq_refl (or_introl eq_refl)). reflexivity.
Defined.

Lemma shapiro_prints_two_lines_per_column_witness :
  fst (@analise_shapiro (mock_scipy (inr (B64.decimal 98 2, B64.decimal 5 1)))
         0%nat alfa_padrao two_samples_world) = inr tt /\
  length (printed (@analise_shapiro
                     (mock_scipy (inr (B64.decimal 98 2, B64.decimal 5 1)))
                     0%nat alfa_padrao) two_samples_world) = 5%nat.
Proof.
  destruct (@shapiro_prints_two_lines_per_column
              (mock_scipy (inr (B64.decimal 98 2, B64.decimal 5 1)))
              0%nat alfa_padrao two_samples_world) as (Hret & Hlen & _).
  - intros coluna _. eexists. reflexivity.
  - split; [exact Hret | exact Hlen].
Defined.

Lemma shapiro_stops_at_first_error_witness :
  fst (@analise_shapiro strict_scipy 0%nat alfa_padrao three_samples_world) =
    inl (LibraryError "Data must be at least length 3.") /\
  printed (@analise_shapiro strict_scipy 0%nat alfa_padrao) three_samples_world =
    ["Teste de Shapiro-Wilk"%string;
     "estatistica_sw=0.980"%string;
     "a segue uma distribuição normal (valor p: 0.500)"%string].
Proof.
  destruct (@shapiro_stops_at_first_error strict_scipy 0%nat alfa_padrao
              three_samples_world ["a"%string] ["c"%string] "b"
              (LibraryError "Data must be at least length 3."))
    as (Hret & Hout & _).
  - reflexivity.
  - intros c [<-|[]]. eexists. reflexivity.
  - reflexivity.
  - split; [exact Hret | rewrite Hout; reflexivity].
Defined.

Lemma composite_propagates_errors_witness :
  fst (@analises_shapiro_levene strict_scipy 0%nat alfa_padrao "mean"
         three_samples_world) =
    inl (LibraryError "Data must be at least length 3.") /\
  printed (@analises_shapiro_levene strict_scipy 0%nat alfa_padrao "mean")
    three_samples_world =
  printed (@analise_shapiro strict_scipy 0%nat alfa_padrao) three_samples_world.
Proof.
  destruct (@composite_propagates_errors strict_scipy 0%nat alfa_padrao "mean"
              three_samples_world) as [Herr _].
  apply Herr. reflexivity.
Defined.

Lemma verdict_is_monotone_in_alfa_witness :
  printed (@analise (mock_scipy (inr (B64.of_Z 2, B64.decimal 5 1)))
             Friedman 0%nat (B64.decimal 1 2)) two_samples_world =
    ["Teste de Friedman"%string;
     "estatistica_friedman=2.000"%string;
     "Não rejeita a hipótese nula (valor p: 0.500)"%string].
Proof.
  destruct (@verdict_is_monotone_in_alfa
              (mock_scipy (inr (B64.of_Z 2, B64.decimal 5 1)))
              Friedman 0%nat alfa_padrao (B64.decimal 1 2) two_samples_world
              (B64.of_Z 2) (B64.decimal 5 1) eq_refl eq_refl) as [Hkeep _].
  rewrite (Hkeep eq_refl). reflexivity.
Defined.

Lemma composicao_shows_when_it_returns_witness :
  figure (snd (@composicao_histograma_boxplot sample_plotting 0%nat "a" "auto"
                 two_samples_world)) =
  composicao_calls (deref two_samples_world 0%nat) "a" "auto"
    (B64.of_Z 2) (B64.of_Z 3) (B64.of_Z 1).
Proof.
  destruct (@composicao_shows_when_it_returns sample_plotting 0%nat "a" "auto"
              two_samples_world) as (_ & _ & calls & Hfig & Hret & _).
  destruct (Hret eq_refl) as (c & media & mediana & moda & modas &
                              Hcol & Hmean & Hmedian & Hmode & Hcalls).
  rewrite Hfig, Hcalls. vm_compute in Hcol. injection Hcol as <-.
  vm_compute in Hmean, Hmedian, Hmode.
  injection Hmean as <-. injection Hmedian as <-. injection Hmode as <- _.
  reflexivity.
Defined.

Lemma composicao_without_mode_witness :
  @composicao_histograma_boxplot plotting_without_mode 0%nat "x" "auto"
    (one_column_world "x" (Float64 [])) =
  (inl (KeyError "0"),
   mkWorld (heap (one_column_world "x" (Float64 []))) []
     [Subplots;
      Boxplot (deref (one_column_world "x" (Float64 [])) 0%nat) "x";
      Histplot (deref (one_column_world "x" (Float64 [])) 0%nat) "x" "auto";
      Grid 1; SetAxisbelow 1; Grid 2; SetAxisbelow 2;
      Axvline B64.nan "C1" "Média";
      Axvline B64.nan "C2" "Mediana"]).
Proof.
  apply (@composicao_without_mode plotting_without_mode 0%nat "x" "auto"
           (one_column_world "x" (Float64 [])) (Float64 []) B64.nan B64.nan);
    reflexivity.
Defined.

(** ** The builder: no NaN among the observations *)

Lemma mask_restore_no_nan (orig res : list float) :
  Forall (fun x => B64.isnan x = false) orig -> length orig = length res ->
  mask_restore orig res = res.
Proof.
  intros Hno; revert res.
  induction Hno as [|x orig Hx _ IH]; intros [|y res] Hlen; simpl in *;
    try discriminate; [reflexivity|].
  rewrite Hx, IH by lia. reflexivity.
Qed.

Lemma na_cumsum_no_nan (l : list float) :
  Forall (fun x => B64.isnan x = false) l -> na_cumsum l = np_cumsum_float l.
Proof.
  intros Hno. unfold na_cumsum. rewrite (mask_fill_no_nan l Hno).
  apply mask_restore_no_nan; [assumption|].
  now rewrite np_cumsum_float_length.
Qed.

Lemma positive_finite_not_nan (x : float) : positive_finite x -> B64.isnan x = false.
Proof. intros (m & e & -> & _). reflexivity. Qed.

(** X18. In raw-observation mode (fewer than [2^53] observations) no
    relative frequency is NaN, so that pandas has no row to skip: the
    cumulative relative frequencies are the relative frequencies added
    from the first row on, in [float64]. *)
Theorem raw_mode_cumulative_relative_is_running_sum
  (w : World) (dataframe : ref) (coluna : string) (v : list Z) :
  lookup_column coluna (df_columns (deref w dataframe)) = Some (Int64 v) ->
  Z.of_nat (length v) < 2 ^ 53 ->
  exists t w',
    tabela_distribuicao_frequencias dataframe coluna false w = (inr t, w') /\
    let rel := float_column (deref w' t) "frequencia_relativa" in
    let acc := float_column (deref w' t) "frequencia_relativa_acumulada" in
    Forall (fun x => B64.isnan x = false) rel /\
    acc = np_cumsum_float rel /\
    forall i, (i < length rel)%nat ->
      nth_error acc i = Some (partial_sum (firstn (S i) rel)).
Proof.
  intros Hcol Hlen.
  exists (length (heap w)), (alloc w (raw_table v)).
  split; [now apply tabela_raw_mode|].
  rewrite deref_alloc_new.
  unfold raw_table, frequency_table, float_column.
  cbn [lookup_column df_columns df_index String.eqb Ascii.eqb Bool.eqb].
  set (rel := relative_of_counts _ _).
  assert (Hno : Forall (fun x => B64.isnan x = false) rel).
  { subst rel. destruct v as [|x v]; [constructor|].
    rewrite sum_int64_exact.
    2:{ eapply Forall_impl; [|apply sort_values_positive]. simpl; intros; lia. }
    2:{ rewrite total_sort_values. change (2 ^ 63) with (2 ^ 53 * 1024). lia. }
    rewrite total_sort_values.
    set (n := Z.of_nat (length (x :: v))) in *.
    assert (Hn : 1 <= n < 2 ^ 53) by (subst n; simpl length in *; lia).
    pose proof (sorted_counts_positive (x :: v)) as Hpos.
    pose proof (total_sorted_counts (x :: v)) as Htot. fold n in Htot.
    eapply Forall_impl; [apply positive_finite_not_nan|].
    apply relative_positive_finite; [exact Hn|].
    rewrite Forall_forall in *. intros c Hc. split; [now apply Hpos|].
    assert (c <= total (map snd (sorted_counts (x :: v)))).
    { apply le_total; [|assumption]. rewrite Forall_forall. intros y Hy.
      specialize (Hpos y Hy). lia. }
    lia. }
  split; [exact Hno|]. rewrite (na_cumsum_no_nan rel Hno).
  split; [reflexivity|]. intros i Hi. now apply np_cumsum_float_nth.
Qed.

Lemma raw_mode_cumulative_relative_is_running_sum_witness :
  exists t w',
    tabela_distribuicao_frequencias 0%nat "x" false
      (one_column_world "x" (Int64 [1; 1; 2; 2; 3])) = (inr t, w') /\
    let rel := float_column (deref w' t) "frequencia_relativa" in
    let acc := float_column (deref w' t) "frequencia_relativa_acumulada" in
    Forall (fun x => B64.isnan x = false) rel /\
    acc = np_cumsum_float rel /\
    forall i, (i < length rel)%nat ->
      nth_error acc i = Some (partial_sum (firstn (S i) rel)).
Proof.
  apply (raw_mode_cumulative_relative_is_running_sum
           (one_column_world "x" (Int64 [1; 1; 2; 2; 3])) 0%nat "x" [1; 1; 2; 2; 3]).
  - reflexivity.
  - simpl. lia.
Defined.
